(** * cfiddle: the process-introspection engine and the session protocol

    A shallow embedding of
    - the debugger data module (FILE_FLAGS, readFlags, readProcessLine,
      readFileLine, loadRawProcessInfo, populateProcessTable,
      populateOpenFileTable, populateVnodeTable, cleanContainerData,
      reconstructTables),
    - src/server/socket-connection.ts (getRunParams and the SocketConnection
      handlers), and
    - the pages of the express application (generateIndexHtml and the
      static routes),
    followed by the properties of the specification that concern them.
    The loader is embedded on the lines of the kernel file; reading the
    file itself is outside the embedding.

    Conventions of the embedding.
    - A JavaScript number that the program only uses as an integer (pids,
      descriptor numbers, byte offsets, reference counts, lengths) is a [Z].
      The result of [parseInt] keeps NaN and the infinities, because
      [readFlags] feeds it to the 32-bit bitwise operators.
    - A JavaScript string is a [string]; a character stands for one code unit.
    - An object used as a dictionary is a [gmap] of the properties it was
      given.  A read of another key gives [undefined], except for the keys
      every object inherits from [Object.prototype] ([Js.prototypeKeys]):
      where the program tests a read against [undefined], these keys are
      told apart.
    - [Object.keys] and [Object.values] enumerate the array indices in
      ascending order and the other keys after them, in the order of their
      creation.  For the namespaces the embedding keeps that order
      ([Js.ownEntries]); for the objects with integer keys it has the
      ascending order only, which is the order of the program when the keys
      are array indices ([arrayIndexKeys]).
    - An exception is a value of [exn]; a function that can throw returns
      [exn + A]. *)

From Stdlib Require Import ZArith Ascii Bool Lia.
From stdpp Require Import gmap strings list fin_maps sorting pretty.

Local Open Scope Z_scope.

(** ** JavaScript primitives used by the program *)

Module Js.

(** A number as [parseInt] can return it.  [Integer z] is the finite value
    [z]; the sign of zero is not kept, no operation below observes it. *)
Inductive Number :=
  | NaN
  | Infinity (negative : bool)
  | Integer (z : Z).

(** The Number value for a non-negative mathematical integer: round to
    53 significant bits, ties to even; overflow gives Infinity. *)
Definition roundToDouble (n : Z) : Number :=
  let bits := Z.log2 n + 1 in
  if bits <=? 53 then Integer n
  else
    let sh := bits - 53 in
    let q := Z.shiftr n sh in
    let r := Z.land n (Z.ones sh) in
    let half := Z.shiftl 1 (sh - 1) in
    let q' := if (half <? r) || ((r =? half) && Z.odd q) then q + 1 else q in
    let v := Z.shiftl q' sh in
    if Z.shiftl 1 1024 <=? v then Infinity false else Integer v.

Definition negate (x : Number) : Number :=
  match x with
  | NaN => NaN
  | Infinity s => Infinity (negb s)
  | Integer z => Integer (- z)
  end.

(** ToInt32, the conversion the bitwise operators apply to their operands. *)
Definition toInt32 (x : Number) : Z :=
  match x with
  | NaN | Infinity _ => 0
  | Integer z =>
      let m := z mod 2 ^ 32 in
      if 2 ^ 31 <=? m then m - 2 ^ 32 else m
  end.

Definition isWhiteSpace (c : ascii) : bool :=
  let n := Z.of_N (N_of_ascii c) in
  ((9 <=? n) && (n <=? 13)) || (n =? 32) || (n =? 160).

Fixpoint trimStart (s : string) : string :=
  match s with
  | String c s' => if isWhiteSpace c then trimStart s' else s
  | EmptyString => EmptyString
  end.

Definition octalDigit (c : ascii) : option Z :=
  let n := Z.of_N (N_of_ascii c) in
  if (48 <=? n) && (n <=? 55) then Some (n - 48) else None.

(** The longest prefix of octal digits, as (number of digits, value). *)
Fixpoint octalPrefix (s : string) (count acc : Z) : Z * Z :=
  match s with
  | String c s' =>
      match octalDigit c with
      | Some d => octalPrefix s' (count + 1) (8 * acc + d)
      | None => (count, acc)
      end
  | EmptyString => (count, acc)
  end.

(** [parseInt(s, 8)]: leading white space is skipped, one sign is read, the
    longest run of octal digits is the value, and no digit at all is NaN. *)
Definition parseInt8 (s : string) : Number :=
  let s1 := trimStart s in
  let '(neg, s2) :=
    match s1 with
    | String "-"%char s' => (true, s')
    | String "+"%char s' => (false, s')
    | _ => (false, s1)
    end in
  let '(count, mathInt) := octalPrefix s2 0 0 in
  if count =? 0 then NaN
  else if neg then negate (roundToDouble mathInt) else roundToDouble mathInt.

(** [Array.prototype.indexOf]: the first index holding [x], or -1. *)
Fixpoint indexOf {A} `{EqDecision A} (x : A) (l : list A) : Z :=
  match l with
  | [] => -1
  | y :: l' =>
      if decide (y = x) then 0
      else let i := indexOf x l' in if i <? 0 then -1 else i + 1
  end.

(** [Array.prototype.splice(start, deleteCount)] without inserted items;
    the value is the array after the call.  A negative [start] counts from
    the end of the array. *)
Definition splice {A} (l : list A) (start deleteCount : Z) : list A :=
  let len := Z.of_nat (length l) in
  let actualStart :=
    if start <? 0 then Z.max (len + start) 0 else Z.min start len in
  let actualDeleteCount := Z.min (Z.max deleteCount 0) (len - actualStart) in
  take (Z.to_nat actualStart) l
    ++ drop (Z.to_nat (actualStart + actualDeleteCount)) l.

Fixpoint trimEnd (s : string) : string :=
  match s with
  | EmptyString => EmptyString
  | String c s' =>
      match trimEnd s' with
      | EmptyString => if isWhiteSpace c then EmptyString else String c EmptyString
      | t => String c t
      end
  end.

(** [String.prototype.trim] *)
Definition trim (s : string) : string := trimStart (trimEnd s).

Definition lowerChar (c : ascii) : ascii :=
  let n := N_of_ascii c in
  if ((65 <=? n) && (n <=? 90))%N
     || ((192 <=? n) && (n <=? 222) && negb (n =? 215))%N
  then ascii_of_N (n + 32) else c.

(** [String.prototype.toLowerCase] *)
Fixpoint toLowerCase (s : string) : string :=
  match s with
  | EmptyString => EmptyString
  | String c s' => String (lowerChar c) (toLowerCase s')
  end.

(** [Array.prototype.join] on an array of strings *)
Definition join (sep : string) (l : list string) : string :=
  String.concat sep l.

(** The [length] of a string *)
Definition strlen (s : string) : Z := Z.of_nat (String.length s).

(** The properties every object inherits from [Object.prototype].  A read
    [obj[key]] of a key that is not a property of [obj] itself gives the
    inherited value for these keys, and [undefined] for any other key. *)
Definition prototypeKeys : list string :=
  [ "constructor"; "__proto__"; "hasOwnProperty"; "isPrototypeOf";
    "propertyIsEnumerable"; "toString"; "toLocaleString"; "valueOf";
    "__defineGetter__"; "__defineSetter__"; "__lookupGetter__";
    "__lookupSetter__" ].

Definition inherited (key : string) : Prop := key ∈ prototypeKeys.

#[global] Instance inherited_dec key : Decision (inherited key).
Proof. unfold inherited. apply _. Defined.

#[global] Arguments inherited : simpl never.
#[global] Arguments inherited_dec : simpl never.

(** The array index a property key is, if it is one: the key is the
    decimal numeral, without a sign or a leading zero, of an integer from 0
    to 2^32 - 2. *)
Fixpoint digitsValue (s : string) (acc : Z) : option Z :=
  match s with
  | EmptyString => Some acc
  | String c s' =>
      let n := Z.of_N (N_of_ascii c) in
      if (48 <=? n) && (n <=? 57)
      then if 4294967295 <=? 10 * acc + (n - 48) then None
           else digitsValue s' (10 * acc + (n - 48))
      else None
  end.

Definition arrayIndex (key : string) : option Z :=
  match key with
  | EmptyString => None
  | String "0" EmptyString => Some 0
  | String "0" (String _ _) => None
  | String _ _ => digitsValue key 0
  end.

Definition indexLe {A} (x y : string * A) : Prop :=
  default 0 (arrayIndex x.1) <= default 0 (arrayIndex y.1).

#[global] Instance indexLe_dec {A} (x y : string * A) : Decision (indexLe x y).
Proof. unfold indexLe. apply _. Defined.

(** The properties of an object in the order [Object.keys] enumerates them,
    from the properties in the order of their creation: the array indices
    first, in ascending order, then the other keys as they were created. *)
Definition ownEntries {A} (created : list (string * A)) : list (string * A) :=
  merge_sort indexLe (filter (fun x => is_Some (arrayIndex x.1)) created)
  ++ filter (fun x => ¬ is_Some (arrayIndex x.1)) created.

(** [String.prototype.split] on a separator of one character: the pieces
    between the separators, the empty ones included. *)
Fixpoint split (sep : ascii) (s : string) : list string :=
  match s with
  | EmptyString => [EmptyString]
  | String c s' =>
      if decide (c = sep) then EmptyString :: split sep s'
      else match split sep s' with
           | piece :: pieces => String c piece :: pieces
           | [] => [String c EmptyString]
           end
  end.

(** [String.prototype.replace(pattern, replacement)] for a pattern that is
    a string.  The first occurrence of the pattern is replaced.  In the
    replacement, [$$] is a dollar sign, [$&] the matched text, [$`] the
    text before the match and [$'] the text after it; there are no
    captures, so any other [$] stands for itself. *)
Fixpoint startsWith (s pattern : string) : bool :=
  match pattern, s with
  | EmptyString, _ => true
  | String p pattern', String c s' =>
      if decide (p = c) then startsWith s' pattern' else false
  | String _ _, EmptyString => false
  end.

Fixpoint dropChars (n : nat) (s : string) : string :=
  match n, s with
  | S n', String _ s' => dropChars n' s'
  | _, _ => s
  end.

(** The text before and after the first occurrence of the pattern. *)
Fixpoint splitAt (pattern s : string) : option (string * string) :=
  if startsWith s pattern
  then Some (EmptyString, dropChars (String.length pattern) s)
  else match s with
       | EmptyString => None
       | String c s' =>
           match splitAt pattern s' with
           | Some (before, after) => Some (String c before, after)
           | None => None
           end
       end.

Fixpoint getSubstitution (matched before after replacement : string)
  : string :=
  match replacement with
  | EmptyString => EmptyString
  | String "$" (String "$" rest) =>
      String "$" (getSubstitution matched before after rest)
  | String "$" (String "&" rest) =>
      matched +:+ getSubstitution matched before after rest
  | String "$" (String "`" rest) =>
      before +:+ getSubstitution matched before after rest
  | String "$" (String "'" rest) =>
      after +:+ getSubstitution matched before after rest
  | String c rest => String c (getSubstitution matched before after rest)
  end.

Definition replace (s pattern replacement : string) : string :=
  match splitAt pattern s with
  | Some (before, after) =>
      before +:+ getSubstitution pattern before after replacement +:+ after
  | None => s
  end.

End Js.

(** ** Exceptions

    The classes of ./error that the two modules throw and test with
    [instanceof], and the other failures a call can end with. *)

Inductive exn :=
  | ClientValidationError (message : string)
  | DebugStateError (message : string)
  | DebugDataError (message : string)
  | TypeError (message : string)
  | OtherError (message : string).

Definition throws {A} (r : exn + A) : Prop :=
  match r with inl _ => True | inr _ => False end.

(** The error monad: [x ← m; k] runs [k] unless [m] threw. *)
#[global] Instance exn_bind : MBind (sum exn) := fun A B k m =>
  match m with
  | inl e => inl e
  | inr a => k a
  end.

(** A [for (const x of l) body] loop over a state [s]; a throw in the body
    leaves the loop. *)
Fixpoint forOf {A S} (l : list A) (body : S -> A -> exn + S) (s : S)
  : exn + S :=
  match l with
  | [] => inr s
  | x :: l' => s' ← body s x; forOf l' body s'
  end.

(** ** The debugger data module *)

Module Debugger.

Inductive FileFlag :=
  | O_RDONLY | O_WRONLY | O_RDWR | O_APPEND | O_NONBLOCK | O_NDELAY
  | O_SYNC | O_ASYNC | O_DSYNC | O_NOATIME | O_CLOEXEC
  | S_IFIFO | S_IFCHR | S_IFDIR | S_IFBLK | S_IFREG | S_IFLNK | S_IFSOCK.

#[global] Instance FileFlag_eq_dec : EqDecision FileFlag.
Proof. solve_decision. Defined.

(** The values of the FILE_FLAGS table (octal in the source). *)
Definition FILE_FLAGS (flag : FileFlag) : Z :=
  match flag with
  | O_RDONLY => 0
  | O_WRONLY => 1
  | O_RDWR => 2
  | O_APPEND => 1024
  | O_NONBLOCK => 2048
  | O_NDELAY => 2048
  | O_SYNC => 1052672
  | O_ASYNC => 8192
  | O_DSYNC => 4096
  | O_NOATIME => 262144
  | O_CLOEXEC => 524288
  | S_IFIFO => 4096
  | S_IFCHR => 8192
  | S_IFDIR => 16384
  | S_IFBLK => 24576
  | S_IFREG => 32768
  | S_IFLNK => 40960
  | S_IFSOCK => 49152
  end.

(** [Object.keys(FILE_FLAGS)]: the keys in the order of the literal. *)
Definition FILE_FLAGS_keys : list FileFlag :=
  [ O_RDONLY; O_WRONLY; O_RDWR; O_APPEND; O_NONBLOCK; O_NDELAY;
    O_SYNC; O_ASYNC; O_DSYNC; O_NOATIME; O_CLOEXEC;
    S_IFIFO; S_IFCHR; S_IFDIR; S_IFBLK; S_IFREG; S_IFLNK; S_IFSOCK ].

(** The test [(octal & FILE_FLAGS[flag]) === FILE_FLAGS[flag]]. *)
Definition hasFlag (octal : Z) (flag : FileFlag) : Prop :=
  Z.land octal (FILE_FLAGS flag) = FILE_FLAGS flag.

#[global] Instance hasFlag_dec octal flag : Decision (hasFlag octal flag).
Proof. unfold hasFlag. apply _. Defined.

(** The first loop of readFlags: the flags pushed, in key order. *)
Definition matchedFlags (octal : Z) : list FileFlag :=
  filter (hasFlag octal) FILE_FLAGS_keys.

(** The edge case of readFlags on the array of pushed flags. *)
Definition dropReadOnly (flags : list FileFlag) : list FileFlag :=
  if bool_decide (O_WRONLY ∈ flags) || bool_decide (O_RDWR ∈ flags)
  then Js.splice flags (Js.indexOf O_RDONLY flags) 1
  else flags.

(** The second loop of readFlags: [octal &= ~FILE_FLAGS[flag]] for every
    flag that is still included in the running value. *)
Definition clearFlags (octal : Z) : Z :=
  foldl (fun o flag =>
           if decide (hasFlag o flag)
           then Z.land o (Z.lnot (FILE_FLAGS flag)) else o)
        octal FILE_FLAGS_keys.

(** readFlags, from the 32-bit value of [parseInt(octalStr, 8)] on. *)
Definition readFlagsOf (octal : Z) : list FileFlag :=
  dropReadOnly (matchedFlags octal).

Definition readFlags (octalStr : string) : list FileFlag :=
  readFlagsOf (Js.toInt32 (Js.parseInt8 octalStr)).

(** The edge case as the specification words it: when one of the two
    write-mode flags is present, the read-only alias is removed if it is
    present, wherever it stands. *)
Definition dropReadOnly_removeIfPresent (flags : list FileFlag)
  : list FileFlag :=
  if bool_decide (O_WRONLY ∈ flags) || bool_decide (O_RDWR ∈ flags)
  then filter (fun flag => flag <> O_RDONLY) flags
  else flags.

Definition readFlags_removeIfPresent (octalStr : string) : list FileFlag :=
  dropReadOnly_removeIfPresent
    (matchedFlags (Js.toInt32 (Js.parseInt8 octalStr))).

(** Whether readFlags reaches its [console.warn]. *)
Definition readFlags_warns (octalStr : string) : bool :=
  negb (clearFlags (Js.toInt32 (Js.parseInt8 octalStr)) =? 0).

(** *** Raw records, as loadRawProcessInfo stores them *)

Record RawFileInfo := {
  fd : Z;
  closeOnExec : bool;
  openFileID : string;
  pos : Z;
  flags : list FileFlag;
  vnodeName : string;
}.

Record RawProcessInfo := {
  namespaceID : string;
  globalPID : Z;
  containerPID : Z;
  containerPPID : Z;
  containerPGID : Z;
  command : string;
  files : gmap Z RawFileInfo;
}.

(** The step of loadRawProcessInfo that stores a file record with the
    process read last: [currProcess.files[file.fd] = readFileLine(line)].
    readProcessLine starts every process with [files: {}]. *)
Definition storeFile (currProcess : RawProcessInfo) (file : RawFileInfo)
  : RawProcessInfo :=
  {| namespaceID := namespaceID currProcess;
     globalPID := globalPID currProcess;
     containerPID := containerPID currProcess;
     containerPPID := containerPPID currProcess;
     containerPGID := containerPGID currProcess;
     command := command currProcess;
     files := <[fd file := file]> (files currProcess) |}.

(** RawContainerInfo: the processes of a namespace under their
    container-relative pid. *)
Abbreviation RawContainerInfo := (gmap Z RawProcessInfo).

(** RawInfoByNamespace: the namespaces of the object, under their ids.
    reconstructTables takes them in the order [Object.keys] enumerates
    them; the loader has them in the order of their creation, and returns
    them in the order of [Object.keys] ([Js.ownEntries]). *)
Abbreviation RawInfoByNamespace := (list (string * RawContainerInfo)).

(** *** The tables sent to the client (../common/communication)

    [fdCloseOnExec], [procCommand], [fileFlags] and [fileRefcount] are the
    fields closeOnExec, command, flags and refcount of the source; they are
    renamed because a record field is a global name here. *)

Record FileDescriptor := {
  file : string;
  fdCloseOnExec : bool;
}.

Abbreviation FileDescriptorTable := (gmap Z FileDescriptor).

Record Process := {
  pid : Z;
  ppid : Z;
  pgid : Z;
  procCommand : string;
  fds : FileDescriptorTable;
}.

Record OpenFileEntry := {
  position : Z;
  fileFlags : list FileFlag;
  fileRefcount : Z;
  vnode : string;
}.

Record VnodeEntry := {
  name : string;
  refcount : Z;
}.

Abbreviation OpenFileTable := (gmap string OpenFileEntry).
Abbreviation VnodeTable := (gmap string VnodeEntry).

Record ContainerInfo := {
  processes : list Process;
  openFiles : OpenFileTable;
  vnodes : VnodeTable;
}.

Abbreviation CleanedInfoByNamespace := (gmap Z ContainerInfo).

#[global] Instance RawFileInfo_eq_dec : EqDecision RawFileInfo.
Proof. solve_decision. Defined.
#[global] Instance FileDescriptor_eq_dec : EqDecision FileDescriptor.
Proof. solve_decision. Defined.
#[global] Instance OpenFileEntry_eq_dec : EqDecision OpenFileEntry.
Proof. solve_decision. Defined.
#[global] Instance VnodeEntry_eq_dec : EqDecision VnodeEntry.
Proof. solve_decision. Defined.

(** *** Object.values *)

Definition keyLe {A} (x y : Z * A) : Prop := x.1 <= y.1.

#[global] Instance keyLe_dec {A} (x y : Z * A) : Decision (keyLe x y).
Proof. unfold keyLe. apply _. Defined.

(** The keys of an object that are array indices, from 0 to 2^32 - 2, are
    enumerated in ascending order; a key that is no array index comes after
    them, in the order of its creation, which a map does not record. *)
Definition arrayIndexKeys {A} (m : gmap Z A) : Prop :=
  map_Forall (fun k _ => 0 <= k < 4294967295) m.

#[global] Instance arrayIndexKeys_dec {A} (m : gmap Z A) :
  Decision (arrayIndexKeys m).
Proof. unfold arrayIndexKeys. apply _. Defined.

(** The entries of an object whose keys are integers (pids and descriptor
    numbers), in ascending key order.  This is the order of [Object.keys]
    when the keys are array indices ([arrayIndexKeys]); with other keys the
    list is a rearrangement of the enumeration, and only what does not
    depend on the order carries over. *)
Definition Object_entries {A} (m : gmap Z A) : list (Z * A) :=
  merge_sort keyLe (map_to_list m).

Definition Object_values {A} (m : gmap Z A) : list A :=
  (Object_entries m).*2.

(** The values of an object whose keys are strings.  The source enumerates
    them in insertion order, which a map does not record; the one loop that
    uses it only adds to counters, in any order with the same result. *)
Definition Object_values_str {A} (m : gmap string A) : list A :=
  (map_to_list m).*2.

(** *** deepCompare

    The source compares the JSON texts of its two arguments.  For the two
    shapes it is called on, the text lists the fields in one fixed order and
    determines each of them (an integer, a string, an array of flag names),
    so the comparison is the equality of the fields that are serialised:
    a field set to [undefined] is left out of the text. *)

Definition deepCompare_openFile (a b : OpenFileEntry) : bool :=
  bool_decide (position a = position b)
  && bool_decide (fileFlags a = fileFlags b)
  && bool_decide (vnode a = vnode b).

Definition deepCompare_vnode (a b : VnodeEntry) : bool :=
  bool_decide (name a = name b) && bool_decide (refcount a = refcount b).

(** *** The three tables

    The message of a DebugDataError is cut after its first sentence: the
    source appends the JSON text of the two entries.

    A table is a plain object.  Its keys are those of the map; a read of a
    key that is not in the map gives [undefined], except for the keys of
    [Js.prototypeKeys], for which it gives the inherited function or
    object.  [deepCompare] of an entry and an inherited value is false: the
    JSON text of an entry has at least one field, that of the inherited
    value is undefined or has none. *)

(** [fds[fd.fd] = { file: fd.openFileID, closeOnExec: fd.closeOnExec }] *)
Definition insertFd (fds : FileDescriptorTable) (f : RawFileInfo)
  : FileDescriptorTable :=
  <[fd f := {| file := openFileID f; fdCloseOnExec := closeOnExec f |}]> fds.

Definition fdTable (proc : RawProcessInfo) : FileDescriptorTable :=
  foldl insertFd ∅ (Object_values (files proc)).

Definition populateProcessTable (rawProcesses : list RawProcessInfo)
  : list Process :=
  map (fun proc =>
         {| pid := containerPID proc;
            ppid := containerPPID proc;
            pgid := containerPGID proc;
            procCommand := command proc;
            fds := fdTable proc |})
      rawProcesses.

Definition withRefcount (e : OpenFileEntry) (n : Z) : OpenFileEntry :=
  {| position := position e; fileFlags := fileFlags e;
     fileRefcount := n; vnode := vnode e |}.

Definition openFileStep (openFiles : OpenFileTable) (f : RawFileInfo)
  : exn + OpenFileTable :=
  let openFileEntry :=
    {| position := pos f; fileFlags := flags f;
       fileRefcount := 1; vnode := vnodeName f |} in
  let conflict :=
    DebugDataError
      ("There is already an open file " +:+ openFileID f
       +:+ " with different info compared to this open file entry!") in
  match openFiles !! openFileID f with
  | None =>
      if decide (Js.inherited (openFileID f)) then inl conflict
      else inr (<[openFileID f := openFileEntry]> openFiles)
  | Some existing =>
      if deepCompare_openFile openFileEntry existing
      then inr (<[openFileID f :=
                    withRefcount existing (fileRefcount existing + 1)]>
                  openFiles)
      else inl conflict
  end.

Definition populateOpenFileTable (rawFiles : list RawFileInfo)
  : exn + OpenFileTable :=
  forOf rawFiles openFileStep ∅.

Definition vnodeStep (vnodes : VnodeTable) (f : RawFileInfo)
  : exn + VnodeTable :=
  let vnodeEntry := {| name := vnodeName f; refcount := 0 |} in
  let conflict :=
    DebugDataError
      ("There is already a vnode " +:+ vnodeName f
       +:+ " with different info compared to this vnode!") in
  match vnodes !! vnodeName f with
  | None =>
      if decide (Js.inherited (vnodeName f)) then inl conflict
      else inr (<[vnodeName f := vnodeEntry]> vnodes)
  | Some existing =>
      if negb (deepCompare_vnode vnodeEntry existing)
      then inl conflict
      else inr vnodes
  end.

(** [vnodes[openFile.vnode].refcount += 1]; on a missing entry the property
    access throws a TypeError.  For an inherited key the assignment sets
    [refcount] on the inherited value and leaves the table as it is. *)
Definition vnodeRefStep (vnodes : VnodeTable) (openFile : OpenFileEntry)
  : exn + VnodeTable :=
  match vnodes !! vnode openFile with
  | None =>
      if decide (Js.inherited (vnode openFile)) then inr vnodes
      else inl (TypeError "Cannot read properties of undefined")
  | Some v =>
      inr (<[vnode openFile := {| name := name v;
                                  refcount := refcount v + 1 |}]> vnodes)
  end.

Definition populateVnodeTable (rawFiles : list RawFileInfo)
    (openFiles : OpenFileTable) : exn + VnodeTable :=
  vnodes ← forOf rawFiles vnodeStep ∅;
  forOf (Object_values_str openFiles) vnodeRefStep vnodes.

(** The processes cleanContainerData exposes, and their file records. *)
Definition exposedProcesses (rawProcesses : RawContainerInfo)
  : list RawProcessInfo :=
  filter (fun proc => 1 < containerPID proc) (Object_values rawProcesses).

Definition exposedFiles (rawProcesses : RawContainerInfo)
  : list RawFileInfo :=
  concat (map (fun process => Object_values (files process))
              (exposedProcesses rawProcesses)).

Definition cleanContainerData (rawProcesses : RawContainerInfo)
  : exn + (Z * ContainerInfo) :=
  match rawProcesses !! 1 with
  | None =>
      inl (DebugDataError
             "This namespace seems to be missing an init process! This should never happen.")
  | Some initProcess =>
      let processes := exposedProcesses rawProcesses in
      let files := exposedFiles rawProcesses in
      openFileTable ← populateOpenFileTable files;
      vnodeTable ← populateVnodeTable files openFileTable;
      inr (globalPID initProcess,
           {| processes := populateProcessTable processes;
              openFiles := openFileTable;
              vnodes := vnodeTable |})
  end.

(** reconstructTables: the body of the try block stores the cleaned data
    under the global pid, the catch block only logs. *)
Definition reconstructStep (containers : CleanedInfoByNamespace)
    (ns : string * RawContainerInfo) : CleanedInfoByNamespace :=
  match cleanContainerData ns.2 with
  | inr (globalPID, data) => <[globalPID := data]> containers
  | inl _ => containers
  end.

Definition reconstructTables (namespaces : RawInfoByNamespace)
  : CleanedInfoByNamespace :=
  foldl reconstructStep ∅ namespaces.

(** The namespaces for which reconstructTables reaches [console.error],
    with the exception caught. *)
Definition reconstructErrors (namespaces : RawInfoByNamespace)
  : list (string * exn) :=
  omap (fun ns : string * RawContainerInfo =>
          match cleanContainerData ns.2 with
          | inl exc => Some (ns.1, exc)
          | inr _ => None
          end)
       namespaces.

(** *** Notions the properties are stated with *)

(** What an open-file record says about its file: offset, flags, vnode. *)
Definition details (f : RawFileInfo) : Z * list FileFlag * string :=
  (pos f, flags f, vnodeName f).

Definition conflicting (f1 f2 : RawFileInfo) : Prop :=
  openFileID f1 = openFileID f2 ∧ details f1 ≠ details f2.

(** Two file records of exposed processes name one open file and disagree
    on it. *)
Definition conflictingRecords (rawProcesses : RawContainerInfo) : Prop :=
  ∃ f1 f2, f1 ∈ exposedFiles rawProcesses ∧ f2 ∈ exposedFiles rawProcesses
           ∧ conflicting f1 f2.

(** A file record names its open file, or its vnode, by a key every object
    inherits; and a namespace has such a record with an exposed process. *)
Definition inheritedKey (f : RawFileInfo) : Prop :=
  Js.inherited (openFileID f) ∨ Js.inherited (vnodeName f).

Definition inheritedKeys (rawProcesses : RawContainerInfo) : Prop :=
  Exists inheritedKey (exposedFiles rawProcesses).

#[global] Instance inheritedKeys_dec raw : Decision (inheritedKeys raw).
Proof. unfold inheritedKeys, inheritedKey. apply _. Defined.

(** loadRawProcessInfo stores a file record under its own descriptor number
    ([currProcess.files[file.fd] = readFileLine(line)]). *)
Definition filesKeyedByFd (rawProcesses : RawContainerInfo) : Prop :=
  map_Forall (fun _ proc => map_Forall (fun k f => fd f = k) (files proc))
             rawProcesses.

#[global] Instance filesKeyedByFd_dec raw : Decision (filesKeyedByFd raw).
Proof. unfold filesKeyedByFd. apply _. Defined.

(** The number of descriptor-table entries of a process, and of a list of
    processes, whose [file] is the open file [id]. *)
Definition descriptorsNaming (id : string) (p : Process) : nat :=
  length (filter (fun d => file d = id) (map_to_list (fds p)).*2).

Definition descriptorRefs (id : string) (ps : list Process) : nat :=
  sum_list (descriptorsNaming id <$> ps).

(** The number of open-file entries whose [vnode] is [vnodeName]. *)
Definition openFilesNaming (vnodeName : string) (t : OpenFileTable) : nat :=
  length (filter (fun e => vnode e = vnodeName) (map_to_list t).*2).

(** A raw process with its global pid blanked. *)
Definition eraseGlobalPID (p : RawProcessInfo) : RawProcessInfo :=
  {| namespaceID := namespaceID p; globalPID := 0;
     containerPID := containerPID p; containerPPID := containerPPID p;
     containerPGID := containerPGID p; command := command p;
     files := files p |}.

(** The global pid under which a namespace is stored, when it has an init
    process. *)
Definition initGlobalPID (rawProcesses : RawContainerInfo) : option Z :=
  globalPID <$> rawProcesses !! 1.

(** All the file records of a namespace, those of the processes that are
    not exposed included. *)
Definition allFiles (rawProcesses : RawContainerInfo) : list RawFileInfo :=
  concat (map (fun process => Object_values (files process))
              (Object_values rawProcesses)).

(** *** What the loops maintain *)

(** The number of file records that name the open file [id]. *)
Definition countId (id : string) (l : list RawFileInfo) : nat :=
  length (filter (fun f => openFileID f = id) l).

Definition entryDetails (e : OpenFileEntry) : Z * list FileFlag * string :=
  (position e, fileFlags e, vnode e).

(** The loop of populateOpenFileTable: after the records [seen], the table
    has an entry exactly for the ids seen, every record of an id agrees with
    its entry, and the reference count is the number of records of the id. *)
Definition openInv (seen : list RawFileInfo) (t : OpenFileTable) : Prop :=
  ∀ id,
    match t !! id with
    | Some e =>
        (0 < countId id seen)%nat
        ∧ fileRefcount e = Z.of_nat (countId id seen)
        ∧ ∀ f, f ∈ seen → openFileID f = id → details f = entryDetails e
    | None => countId id seen = 0%nat
    end.

(** The first loop of populateVnodeTable: an entry with count 0 exactly for
    the vnode names seen. *)
Definition vnodeInv (seen : list RawFileInfo) (v : VnodeTable) : Prop :=
  ∀ n, v !! n = if decide (n ∈ vnodeName <$> seen)
                then Some {| name := n; refcount := 0 |} else None.

(** The second loop: every count is raised by the number of entries of the
    list that name the vnode. *)
Definition addRefs (es : list OpenFileEntry) (n : string) (x : VnodeEntry)
  : VnodeEntry :=
  {| name := name x;
     refcount := refcount x
                 + Z.of_nat (length (filter (fun e => vnode e = n) es)) |}.

(** *** Notions for the warning of readFlags *)

(** The body of the second loop of readFlags. *)
Definition clearFlag (octal : Z) (flag : FileFlag) : Z :=
  if decide (hasFlag octal flag)
  then Z.land octal (Z.lnot (FILE_FLAGS flag)) else octal.

(** The bits the second loop can clear in a value: those of the one-bit
    flags (0o3176003), and 0o4000000 when the value includes O_SYNC, which
    is the only flag that has it. *)
Definition knownBits (octal : Z) : Z :=
  if decide (hasFlag octal O_SYNC) then 1899523 else 850947.

(** A flag that the loop clears whether or not it is included: it has one
    bit, or its bits are in the mask cleared before. *)
Definition oneBit (value : Z) : bool :=
  (0 <? value) && (value =? 2 ^ Z.log2 value).

Definition clearedAnyway (mask : Z) (flag : FileFlag) : bool :=
  oneBit (FILE_FLAGS flag)
  || (Z.land (FILE_FLAGS flag) (Z.lnot mask) =? 0).

Fixpoint allClearedAnyway (mask : Z) (flags : list FileFlag) : bool :=
  match flags with
  | [] => true
  | flag :: rest =>
      clearedAnyway mask flag
      && allClearedAnyway (Z.lor mask (FILE_FLAGS flag)) rest
  end.

Definition maskOf (mask : Z) (flags : list FileFlag) : Z :=
  foldl (fun m flag => Z.lor m (FILE_FLAGS flag)) mask flags.

(** *** The loader

    [toNumber] is [Number] on a field of /proc/cplayground.  The fields are
    integers; what [Number] gives on other text is not a value of the
    records above, and the readers take the conversion as a parameter.  A
    field that a short line leaves undefined is read as the empty
    string. *)

Definition fieldOf (fields : list string) (i : nat) : string :=
  default "" (fields !! i).

Definition readProcessLine (toNumber : string -> Z) (line : string)
  : RawProcessInfo :=
  let fields := Js.split "009" line in
  {| namespaceID := fieldOf fields 0;
     globalPID := toNumber (fieldOf fields 1);
     containerPID := toNumber (fieldOf fields 2);
     containerPPID := toNumber (fieldOf fields 3);
     containerPGID := toNumber (fieldOf fields 4);
     command := fieldOf fields 5;
     files := ∅ |}.

Definition readFileLine (toNumber : string -> Z) (line : string)
  : RawFileInfo :=
  let fields := Js.split "009" line in
  {| fd := toNumber (fieldOf fields 0);
     closeOnExec := negb (toNumber (fieldOf fields 1) =? 0);
     openFileID := fieldOf fields 2;
     pos := toNumber (fieldOf fields 3);
     flags := readFlags (fieldOf fields 4);
     vnodeName := fieldOf fields 5 |}.

(** The warnings of loadRawProcessInfo and of the readers. *)
Inductive LoadWarning :=
  | RepeatedContainerPID (containerPID : Z) (namespaceID : string)
  | RepeatedGlobalPID (globalPID : Z) (namespaceID : string)
  | RepeatedFd (fd : Z)
  | UnknownFlags (octalStr : string).

(** The console.warn of the call [readFileLine(line)]. *)
Definition readFileLine_warns (line : string) : list LoadWarning :=
  let octalStr := fieldOf (Js.split "009" line) 4 in
  if readFlags_warns octalStr then [UnknownFlags octalStr] else [].

(** [namespaces[namespaceID]] *)
Fixpoint namespaceAt (id : string) (namespaces : RawInfoByNamespace)
  : option RawContainerInfo :=
  match namespaces with
  | [] => None
  | (k, processes) :: rest =>
      if decide (k = id) then Some processes else namespaceAt id rest
  end.

(** [namespaces[namespaceID][containerPID] = process] for a namespace id
    that no object inherits: the namespace is created empty, after the
    others, when it is not there yet. *)
Fixpoint storeProcess (process : RawProcessInfo)
    (namespaces : RawInfoByNamespace) : RawInfoByNamespace :=
  match namespaces with
  | [] => [(namespaceID process, {[containerPID process := process]})]
  | (k, processes) :: rest =>
      if decide (k = namespaceID process)
      then (k, <[containerPID process := process]> processes) :: rest
      else (k, processes) :: storeProcess process rest
  end.

(** The variables of loadRawProcessInfo.  [currProcess] is the object that
    was stored in [namespaces] when its line was read: a file record added
    to it is added to the stored process.

    [namespaces] is a plain object.  For a namespace id that is a key every
    object inherits ([Js.prototypeKeys]), [namespaces[id]] is the inherited
    function or object and never [undefined]: the loader creates no
    namespace of that id, and the processes that name it become properties
    of the inherited value, kept here in [ld_inherited].  (For the id
    __proto__ that value is [Object.prototype] itself: a process stored on
    it is inherited by every object of the program from then on, which is
    outside this model; see [namesPrototype].) *)
Record Loader := {
  ld_namespaces : RawInfoByNamespace;
  ld_inherited : gmap string RawContainerInfo;
  ld_readingProcessLine : bool;
  ld_currProcess : option RawProcessInfo;
  ld_warnings : list LoadWarning;
}.

Definition loaderStart : Loader :=
  {| ld_namespaces := []; ld_inherited := ∅; ld_readingProcessLine := true;
     ld_currProcess := None; ld_warnings := [] |}.

(** The processes of [namespaces[id]], once the loader has made sure that
    it is not [undefined]. *)
Definition namespaceNamed (st : Loader) (id : string) : RawContainerInfo :=
  if decide (Js.inherited id) then default ∅ (ld_inherited st !! id)
  else default ∅ (namespaceAt id (ld_namespaces st)).

(** [namespaces[namespaceID][containerPID] = process], for the namespaces
    and for the inherited values. *)
Definition storeNamed (process : RawProcessInfo)
    (namespaces : RawInfoByNamespace) : RawInfoByNamespace :=
  if decide (Js.inherited (namespaceID process)) then namespaces
  else storeProcess process namespaces.

Definition storeInherited (process : RawProcessInfo)
    (inheritedValues : gmap string RawContainerInfo)
  : gmap string RawContainerInfo :=
  if decide (Js.inherited (namespaceID process))
  then <[namespaceID process :=
           <[containerPID process := process]>
             (default ∅ (inheritedValues !! namespaceID process))]>
         inheritedValues
  else inheritedValues.

(** The body of the loop over the lines. *)
Definition loadLine (toNumber : string -> Z) (st : Loader) (line : string)
  : exn + Loader :=
  if ld_readingProcessLine st then
    let currProcess := readProcessLine toNumber line in
    let seen := namespaceNamed st (namespaceID currProcess) in
    let repeatedContainerPID :=
      match seen !! containerPID currProcess with
      | Some _ => [RepeatedContainerPID (containerPID currProcess)
                                        (namespaceID currProcess)]
      | None => []
      end in
    let repeatedGlobalPID :=
      match filter (fun p => globalPID p = globalPID currProcess)
                   (Object_values seen) with
      | [] => []
      | _ :: _ => [RepeatedGlobalPID (globalPID currProcess)
                                     (namespaceID currProcess)]
      end in
    inr {| ld_namespaces := storeNamed currProcess (ld_namespaces st);
           ld_inherited := storeInherited currProcess (ld_inherited st);
           ld_readingProcessLine := false;
           ld_currProcess := Some currProcess;
           ld_warnings := ld_warnings st ++ repeatedContainerPID
                          ++ repeatedGlobalPID |}
  else if decide (line = "") then
    inr {| ld_namespaces := ld_namespaces st;
           ld_inherited := ld_inherited st;
           ld_readingProcessLine := true;
           ld_currProcess := ld_currProcess st;
           ld_warnings := ld_warnings st |}
  else
    let file := readFileLine toNumber line in
    match ld_currProcess st with
    | None => inl (TypeError "Cannot read properties of undefined")
    | Some currProcess =>
        let repeatedFd :=
          match files currProcess !! fd file with
          | Some _ => [RepeatedFd (fd file)]
          | None => []
          end in
        let stored := storeFile currProcess file in
        inr {| ld_namespaces := storeNamed stored (ld_namespaces st);
               ld_inherited := storeInherited stored (ld_inherited st);
               ld_readingProcessLine := false;
               ld_currProcess := Some stored;
               ld_warnings := ld_warnings st ++ readFileLine_warns line
                              ++ repeatedFd ++ readFileLine_warns line |}
    end.

(** loadRawProcessInfo, on the lines of /proc/cplayground: the namespaces
    it returns, as [Object.keys] enumerates them, and its warnings. *)
Definition loadRawProcessInfo (toNumber : string -> Z) (lines : list string)
  : exn + (RawInfoByNamespace * list LoadWarning) :=
  st ← forOf lines (loadLine toNumber) loaderStart;
  inr (Js.ownEntries (ld_namespaces st), ld_warnings st).

(** The assignment of init and of its timer:
    [processInfo = reconstructTables(await loadRawProcessInfo())]. *)
Definition poll (toNumber : string -> Z) (lines : list string)
  : exn + CleanedInfoByNamespace :=
  loaded ← loadRawProcessInfo toNumber lines;
  inr (reconstructTables loaded.1).

(** The line has __proto__ as its first field: read as the line of a
    process, it names [Object.prototype] as its namespace. *)
Definition namesPrototype (line : string) : Prop :=
  fieldOf (Js.split "009" line) 0 = "__proto__".

#[global] Instance namesPrototype_dec line : Decision (namesPrototype line).
Proof. unfold namesPrototype. apply _. Defined.

(** *** Notions for the properties of the tables as a whole *)

(** The namespaces reconstructTables stores, in the order of the input,
    with the key each is stored under. *)
Definition reconstructed (namespaces : RawInfoByNamespace)
  : list (Z * ContainerInfo) :=
  omap (fun ns : string * RawContainerInfo =>
          match cleanContainerData ns.2 with
          | inr stored => Some stored
          | inl _ => None
          end)
       namespaces.

(** loadRawProcessInfo stores a process under its container-relative pid
    ([namespaces[namespaceID][containerPID] = currProcess]). *)
Definition keyedByContainerPID (rawProcesses : RawContainerInfo) : Prop :=
  map_Forall (fun k proc => containerPID proc = k) rawProcesses.

#[global] Instance keyedByContainerPID_dec raw :
  Decision (keyedByContainerPID raw).
Proof. unfold keyedByContainerPID. apply _. Defined.

Definition sumZ (l : list Z) : Z := foldr Z.add 0 l.

(** The reference counts of a table, added up. *)
Definition openFileRefs (t : OpenFileTable) : Z :=
  sumZ (fileRefcount <$> (map_to_list t).*2).

Definition vnodeRefs (v : VnodeTable) : Z :=
  sumZ (refcount <$> (map_to_list v).*2).

(** The number of descriptor-table entries of a list of processes. *)
Definition descriptorCount (ps : list Process) : nat :=
  sum_list ((fun p => size (fds p)) <$> ps).

(** What the loop of loadRawProcessInfo maintains: the namespaces have
    different ids and are not empty; a process is stored in the namespace
    it names, under its container pid, and its file records under their
    descriptor number; no namespace has an inherited key as its id; and
    [currProcess], once set, is the process stored under its namespace and
    pid, when its namespace is one of them. *)
Definition loaded (namespaces : RawInfoByNamespace) : Prop :=
  NoDup namespaces.*1
  ∧ Forall (fun ns : string * RawContainerInfo =>
              ns.2 ≠ ∅
              ∧ keyedByContainerPID ns.2
              ∧ filesKeyedByFd ns.2
              ∧ map_Forall (fun _ p => namespaceID p = ns.1) ns.2)
           namespaces.

(** A text in blocks: the line of a process, then the lines of its files;
    an empty line between two blocks. *)
Fixpoint blockText (blocks : list (string * list string)) : list string :=
  match blocks with
  | [] => []
  | block :: rest =>
      (block.1 :: block.2)
        ++ match rest with
           | [] => []
           | _ :: _ => "" :: blockText rest
           end
  end.

(** The process of a block, with the records of its file lines. *)
Definition processOf (toNumber : string -> Z) (block : string * list string)
  : RawProcessInfo :=
  foldl storeFile (readProcessLine toNumber block.1)
        (readFileLine toNumber <$> block.2).

Definition isRepeatedGlobalPID (w : LoadWarning) : Prop :=
  match w with RepeatedGlobalPID _ _ => True | _ => False end.

#[global] Instance isRepeatedGlobalPID_dec w : Decision (isRepeatedGlobalPID w).
Proof. destruct w; simpl; apply _. Defined.

(** No two processes of a namespace have the same global pid. *)
Definition distinctGlobalPIDs (processes : RawContainerInfo) : Prop :=
  ∀ k1 k2 p1 p2, processes !! k1 = Some p1 → processes !! k2 = Some p2 →
                 globalPID p1 = globalPID p2 → k1 = k2.

Definition loaderInv (st : Loader) : Prop :=
  loaded (ld_namespaces st)
  ∧ Forall (fun ns : string * RawContainerInfo => ¬ Js.inherited ns.1)
           (ld_namespaces st)
  ∧ (ld_readingProcessLine st = false → is_Some (ld_currProcess st))
  ∧ ∀ currProcess, ld_currProcess st = Some currProcess →
      map_Forall (fun k f => fd f = k) (files currProcess)
      ∧ (¬ Js.inherited (namespaceID currProcess) →
         namespaceAt (namespaceID currProcess) (ld_namespaces st)
           ≫= (fun processes => processes !! containerPID currProcess)
         = Some currProcess).

End Debugger.

(** ** src/server/socket-connection.ts *)

Module SocketConnection.

Inductive Compiler := gcc | gpp.

(** A Buffer, as a string of bytes. *)
Abbreviation Buffer := string.

(** The constants imported from ../common/constants and ./db, and the
    queries of ./db.  These modules are outside the sources at hand, so the
    functions below take them as a parameter. *)
Record Config := {
  SUPPORTED_VERSIONS : list string;
  FLAG_WHITELIST : list string;
  DEFAULT_VERSION : string;
  CFLAGS_MAX_LEN : Z;
  CODE_MAX_LEN : Z;
  ARGS_MAX_LEN : Z;
  (** [db.getFileContents]: the bytes of an uploaded file, or null *)
  getFileContents : string -> option Buffer;
  (** [db.insertProgram]: the row of the program, as (id, alias) *)
  insertProgram :
    Compiler -> string -> string -> string -> option string ->
    string -> string -> Z * string;
  (** [db.createRun]: the id of the new run *)
  createRun : Z -> string -> string -> Z;
}.

(** [request.flags], which getRunParams reads twice: through
    [Array.isArray] for the filter, and through [|| []] for the length
    test.  Of a value that is no array the handler reads whether it is
    truthy, its [length] (a number or not: [None] for a value without a
    numeric length), and its text in the warning. *)
Inductive FlagsField :=
  | FlagsArray (requested : list string)
  | FlagsOther (truthy : bool) (len : option Z) (text : string).

(** RunEventBody.  A field the handler reads with a default ([|| ''],
    [|| 24], [Array.isArray]) is optional: [None] is a field that is absent
    or not of its type. *)
Record RunEventBody := {
  language : string;
  flags : FlagsField;
  code : option string;
  args : option string;
  includeFileId : option string;
  debug : bool;
  breakpoints : option (list Z);
  rows : option Z;
  cols : option Z;
}.

(** What getRunParams returns.  The fields are compiler, cflags, code,
    argsStr, includeFileId, includeFileData, debug and breakpoints in the
    source; they carry a prefix here because several are also fields of
    RunEventBody. *)
Record RunParams := {
  rp_compiler : Compiler;
  rp_cflags : string;
  rp_code : string;
  rp_argsStr : string;
  rp_includeFileId : option string;
  rp_includeFileData : option Buffer;
  rp_debug : bool;
  rp_breakpoints : list Z;
}.

(** The arguments of [new Container(...)], the callbacks apart: the session
    knows the container capability by what it was built from. *)
Record Container := {
  c_logPrefix : string;
  c_code : string;
  c_includeFileData : option Buffer;
  c_compiler : Compiler;
  c_cflags : string;
  c_argsStr : string;
  c_rows : Z;
  c_cols : Z;
  c_debug : bool;
  c_breakpoints : list Z;
}.

Record ContainerExitNotification := {
  exitStatus : Z;
  signal : option string;
  runtimeMs : Z;
  output : string;
}.

(** The calls a debug command makes on the container. *)
Inductive GdbCall :=
  | gdbSetBreakpoint (line : Z)
  | gdbRemoveBreakpoint (line : Z)
  | gdbProceed (threadId : Z)
  | gdbStepIn (threadId : Z)
  | gdbStepOut (threadId : Z)
  | gdbNext (threadId : Z).

(** What a handler does to its collaborators, in order: console output,
    calls on the socket, on ./db and on the container capability. *)
Inductive Effect :=
  | ConsoleInfo (text : string)
  | ConsoleLog (text : string)
  | ConsoleWarn (text : string)
  | ConsoleError (text : string)
  | ConsoleErrorExn (e : exn)
  | SocketEmitError (error : string)
  | SocketEmitSaved (alias : string)
  | SocketEmitExit (code : Z) (signal : option string)
  | SocketEmitData (data : string)
  | SocketEmitDebug (data : Debugger.ContainerInfo)
  | SocketDisconnect
  | DbGetFileContents (fileId : string)
  | DbInsertProgram (compiler : Compiler) (cflags code argsStr : string)
      (includeFileId : option string) (sourceIP sourceUA : string)
  | DbCreateRun (programId : Z) (sourceIP sourceUA : string)
  | DbUpdateRun (runId : option Z) (runtimeMs exitStatus : Z) (output : string)
  | NewContainer (c : Container)
  | ContainerOnInput (c : Container) (data : string)
  | ContainerResize (c : Container) (rows cols : Z)
  | ContainerShutdown (c : Container)
  | ContainerGdb (c : Container) (call : GdbCall).

(** The fields of a SocketConnection; the socket itself is a collaborator. *)
Record Session := {
  sourceIP : string;
  sourceUA : string;
  logPrefix : string;
  container : option Container;
  runId : option Z;
}.

Definition setContainer (s : Session) (c : option Container) : Session :=
  {| sourceIP := sourceIP s; sourceUA := sourceUA s;
     logPrefix := logPrefix s; container := c; runId := runId s |}.

Definition setRunId (s : Session) (r : Z) : Session :=
  {| sourceIP := sourceIP s; sourceUA := sourceUA s;
     logPrefix := logPrefix s; container := container s; runId := Some r |}.

Definition includes (x : string) (l : list string) : bool :=
  bool_decide (x ∈ l).

Definition langOf (cfg : Config) (request : RunEventBody) : string :=
  if includes (language request) (SUPPORTED_VERSIONS cfg)
  then language request else DEFAULT_VERSION cfg.

Definition compilerOf (lang : string) : Compiler :=
  if -1 <? Js.indexOf lang ["C99"; "C11"] then gcc else gpp.

(** [Array.isArray(request.flags) ? request.flags : []] *)
Definition requestedFlags (request : RunEventBody) : list string :=
  match flags request with
  | FlagsArray requested => requested
  | FlagsOther _ _ _ => []
  end.

(** [(request.flags || []).length] *)
Definition flagsLength (request : RunEventBody) : option Z :=
  match flags request with
  | FlagsArray requested => Some (Z.of_nat (length requested))
  | FlagsOther truthy len _ => if truthy then len else Some 0
  end.

(** The text of [request.flags] in a template: the elements of an array,
    joined by commas. *)
Definition flagsText (request : RunEventBody) : string :=
  match flags request with
  | FlagsArray requested => Js.join "," requested
  | FlagsOther _ _ text => text
  end.

Definition suppliedCflagsOf (cfg : Config) (request : RunEventBody)
  : list string :=
  filter (fun flag => includes flag (FLAG_WHITELIST cfg) = true)
         (requestedFlags request).

Definition cflagsOf (cfg : Config) (request : RunEventBody) : string :=
  Js.trim ("-std=" +:+ Js.toLowerCase (langOf cfg request) +:+ " "
           +:+ Js.join " " (suppliedCflagsOf cfg request)).

(** The console.warn of getRunParams, when it is reached. *)
Definition flagWarning (cfg : Config) (request : RunEventBody)
  : list Effect :=
  if decide (Some (Z.of_nat (length (suppliedCflagsOf cfg request)))
             = flagsLength request)
  then []
  else [ConsoleWarn ("Warning: someone passed non-whitelisted flags! "
                     +:+ flagsText request)].

(** [request.includeFileId ? ... : null]: the id when it is truthy. *)
Definition suppliedFileId (request : RunEventBody) : option string :=
  match includeFileId request with
  | Some id => if decide (id = "") then None else Some id
  | None => None
  end.

(** getRunParams: the effects up to the return or the throw, and the
    outcome. *)
Definition getRunParams (cfg : Config) (request : RunEventBody)
  : list Effect * (exn + RunParams) :=
  let lang := langOf cfg request in
  let compiler := compilerOf lang in
  let warned := flagWarning cfg request in
  let cflags := cflagsOf cfg request in
  if CFLAGS_MAX_LEN cfg <? Js.strlen cflags then
    (warned, inl (ClientValidationError "Submitted cflags exceeds max length!"))
  else
  let code := default "" (code request) in
  if CODE_MAX_LEN cfg <? Js.strlen code then
    (warned, inl (ClientValidationError "Submitted code exceeds max length!"))
  else
  let argsStr := default "" (args request) in
  if ARGS_MAX_LEN cfg <? Js.strlen argsStr then
    (warned, inl (ClientValidationError "Submitted args exceed max length!"))
  else
  let '(queried, includeFileData) :=
    match suppliedFileId request with
    | Some id => ([DbGetFileContents id], getFileContents cfg id)
    | None => ([], None)
    end in
  if bool_decide (is_Some (suppliedFileId request))
     && bool_decide (includeFileData = None) then
    (warned ++ queried, inl (ClientValidationError "includeFileId is invalid"))
  else
  let includeFileId :=
    match includeFileData with
    | None => None
    | Some _ => includeFileId request
    end in
  let breakpoints := default [] (breakpoints request) in
  let debug := debug request in
  if negb debug && bool_decide (0 < length breakpoints)%nat then
    (warned ++ queried,
     inl (ClientValidationError
            "Breakpoints are specified even though debugging is not enabled"))
  else
    (warned ++ queried,
     inr {| rp_compiler := compiler; rp_cflags := cflags; rp_code := code;
            rp_argsStr := argsStr; rp_includeFileId := includeFileId;
            rp_includeFileData := includeFileData; rp_debug := debug;
            rp_breakpoints := breakpoints |}).

(** [x || d] on an optional number: zero is falsy. *)
Definition orDefault (x : option Z) (d : Z) : Z :=
  match x with
  | Some v => if v =? 0 then d else v
  | None => d
  end.

Definition onSocketDisconnect (s : Session) : Session * list Effect :=
  (s, ConsoleInfo (logPrefix s +:+ "Client disconnected")
      :: match container s with
         | Some c => [ContainerShutdown c]
         | None => []
         end).

(** [this.socket.disconnect()] on a connected socket.  socket.io closes
    the socket and calls the listeners of 'disconnect', which the
    constructor made onSocketDisconnect, before the call returns:
    [SocketDisconnect] is listed where the call returns, after what the
    listener did. *)
Definition socketDisconnect (s : Session) : list Effect :=
  (onSocketDisconnect s).2 ++ [SocketDisconnect].

(** startContainer.  The awaited validation and the promise chain on ./db
    are run to their end, as one step of the session: the socket that
    delivered the run event is still connected when the catch block hangs
    up. *)
Definition startContainer (cfg : Config) (request : RunEventBody)
    (s : Session) : Session * list Effect :=
  match container s with
  | Some _ =>
      (s, [ConsoleWarn (logPrefix s +:+ "Got run command even though we "
                        +:+ "already have a container running")])
  | None =>
      let rows := orDefault (rows request) 24 in
      let cols := orDefault (cols request) 80 in
      match getRunParams cfg request with
      | (effects, inl e) =>
          (s, effects
              ++ [ConsoleError (logPrefix s +:+ "Failed to get valid run params!");
                  ConsoleErrorExn e]
              ++ socketDisconnect s)
      | (effects, inr p) =>
          let row :=
            insertProgram cfg (rp_compiler p) (rp_cflags p) (rp_code p)
              (rp_argsStr p) (rp_includeFileId p) (sourceIP s) (sourceUA s) in
          let run := createRun cfg row.1 (sourceIP s) (sourceUA s) in
          let c :=
            {| c_logPrefix := logPrefix s; c_code := rp_code p;
               c_includeFileData := rp_includeFileData p;
               c_compiler := rp_compiler p; c_cflags := rp_cflags p;
               c_argsStr := rp_argsStr p; c_rows := rows; c_cols := cols;
               c_debug := rp_debug p; c_breakpoints := rp_breakpoints p |} in
          (setContainer (setRunId s run) (Some c),
           effects
             ++ [DbInsertProgram (rp_compiler p) (rp_cflags p) (rp_code p)
                   (rp_argsStr p) (rp_includeFileId p) (sourceIP s) (sourceUA s);
                 ConsoleLog (logPrefix s +:+ "Program is at alias " +:+ row.2);
                 DbCreateRun row.1 (sourceIP s) (sourceUA s);
                 ConsoleLog (logPrefix s +:+ "Run logged with ID " +:+ pretty run);
                 SocketEmitSaved row.2;
                 NewContainer c])
      end
  end.

Definition onStdinReceived (data : string) (s : Session)
  : Session * list Effect :=
  match container s with
  | Some c => (s, [ContainerOnInput c data])
  | None => (s, [])
  end.

Definition onContainerOutput (data : string) (s : Session)
  : Session * list Effect :=
  (s, [SocketEmitData data]).

Definition onDebugInfo (data : Debugger.ContainerInfo) (s : Session)
  : Session * list Effect :=
  (s, [SocketEmitDebug data]).

Definition onTerminalResize (rows cols : Z) (s : Session)
  : Session * list Effect :=
  (s, ConsoleLog (logPrefix s +:+ "Resize info received: "
                  +:+ pretty rows +:+ "x" +:+ pretty cols)
      :: match container s with
         | Some c => [ContainerResize c rows cols]
         | None => []
         end).

(** onContainerExit; [connected] is the value of [this.socket.connected]
    when the handler runs.  The socket is closed, and with it the disconnect
    handler is run, before [this.container] is cleared. *)
Definition onContainerExit (connected : bool)
    (data : ContainerExitNotification) (s : Session)
  : Session * list Effect :=
  (setContainer s None,
   (if connected
    then [ConsoleLog (logPrefix s +:+ "Sending client exit info");
          SocketEmitExit (exitStatus data) (signal data);
          ConsoleLog (logPrefix s +:+ "Closing socket")]
         ++ socketDisconnect s
    else [])
   ++ [DbUpdateRun (runId s) (runtimeMs data) (exitStatus data) (output data)]).

(** What a call [executeCommand(data)] comes to: the calls it made on the
    container, and the exception it threw, if any. *)
Definition Command (T : Type) : Type :=
  T -> Container -> list Effect * option exn.

(** The handler makeDebugHandler returns: the session after it, its
    effects, and the exception that leaves the handler, if any. *)
Definition makeDebugHandler {T} (executeCommand : Command T) (data : T)
    (s : Session) : Session * list Effect * option exn :=
  match container s with
  | None =>
      (s, [SocketEmitError "No program is currently running."], None)
  | Some c =>
      match executeCommand data c with
      | (effects, None) => (s, effects, None)
      | (effects, Some e) =>
          match e with
          | DebugStateError message =>
              (s, effects ++ [SocketEmitError message], None)
          | _ => (s, effects, None)
          end
      end
  end.

(** *** Notions the properties are stated with *)

(** The flag string as the specification describes it: the dialect flag of
    the language, joined by single spaces with the flags that survive. *)
Definition composedFlags (cfg : Config) (request : RunEventBody) : string :=
  Js.join " " (("-std=" +:+ Js.toLowerCase (langOf cfg request))
               :: suppliedCflagsOf cfg request).

(** The constants hold no empty flag, and no flag or language tag that ends
    in white space; [trim] then has nothing to remove between the parts. *)
Definition tidyConstants (cfg : Config) : Prop :=
  Forall (fun flag => flag ≠ "" ∧ Js.trimEnd flag = flag) (FLAG_WHITELIST cfg)
  ∧ Forall (fun v => Js.trimEnd v = v)
           (DEFAULT_VERSION cfg :: SUPPORTED_VERSIONS cfg).

#[global] Instance tidyConstants_dec cfg : Decision (tidyConstants cfg).
Proof. unfold tidyConstants. apply _. Defined.

Definition setLanguage (request : RunEventBody) (lang : string)
  : RunEventBody :=
  {| language := lang; flags := flags request; code := code request;
     args := args request; includeFileId := includeFileId request;
     debug := debug request; breakpoints := breakpoints request;
     rows := rows request; cols := cols request |}.

(** The flags field is an array, or a value that [|| []] replaces by the
    empty array (it is absent, null, or another falsy value). *)
Definition flagsArrayOrFalsy (request : RunEventBody) : Prop :=
  match flags request with
  | FlagsArray _ => True
  | FlagsOther truthy _ _ => truthy = false
  end.

#[global] Instance flagsArrayOrFalsy_dec request :
  Decision (flagsArrayOrFalsy request).
Proof. unfold flagsArrayOrFalsy. destruct (flags request); apply _. Defined.

(** The failure conditions of the validation, rule by rule. *)
Definition cflagsTooLong (cfg : Config) (request : RunEventBody) : Prop :=
  CFLAGS_MAX_LEN cfg < Js.strlen (cflagsOf cfg request).

Definition codeTooLong (cfg : Config) (request : RunEventBody) : Prop :=
  CODE_MAX_LEN cfg < Js.strlen (default "" (code request)).

Definition argsTooLong (cfg : Config) (request : RunEventBody) : Prop :=
  ARGS_MAX_LEN cfg < Js.strlen (default "" (args request)).

Definition includeFileMissing (cfg : Config) (request : RunEventBody)
  : Prop :=
  ∃ id, includeFileId request = Some id ∧ id ≠ ""
        ∧ getFileContents cfg id = None.

Definition breakpointsWithoutDebug (request : RunEventBody) : Prop :=
  debug request = false ∧ default [] (breakpoints request) ≠ [].

(** What a trace holds of the things a failed validation must not do. *)
Definition constructsContainer (e : Effect) : Prop :=
  match e with NewContainer _ => True | _ => False end.

Definition persists (e : Effect) : Prop :=
  match e with
  | DbInsertProgram _ _ _ _ _ _ _ | DbCreateRun _ _ _ | DbUpdateRun _ _ _ _ =>
      True
  | _ => False
  end.

Definition isShutdown (e : Effect) : Prop :=
  match e with ContainerShutdown _ => True | _ => False end.

#[global] Instance isShutdown_dec e : Decision (isShutdown e).
Proof. destruct e; simpl; apply _. Defined.

(** The number of [shutdown()] calls in a trace. *)
Definition shutdownCalls (trace : list Effect) : nat :=
  length (filter isShutdown trace).

(** The six handlers the constructor registers. *)
Definition gdbCommand (call : GdbCall) (outcome : option exn)
  : Command unit :=
  fun _ c => ([ContainerGdb c call], outcome).

#[global] Instance constructsContainer_dec e : Decision (constructsContainer e).
Proof. destruct e; simpl; apply _. Defined.

#[global] Instance persists_dec e : Decision (persists e).
Proof. destruct e; simpl; apply _. Defined.

Definition isWarning (e : Effect) : Prop :=
  match e with ConsoleWarn _ => True | _ => False end.

#[global] Instance isWarning_dec e : Decision (isWarning e).
Proof. destruct e; simpl; apply _. Defined.

Definition isSaved (e : Effect) : Prop :=
  match e with SocketEmitSaved _ => True | _ => False end.

#[global] Instance isSaved_dec e : Decision (isSaved e).
Proof. destruct e; simpl; apply _. Defined.

(** Two requests that differ at most in their flags. *)
Definition sameButFlags (r1 r2 : RunEventBody) : Prop :=
  language r1 = language r2 ∧ code r1 = code r2 ∧ args r1 = args r2
  ∧ includeFileId r1 = includeFileId r2 ∧ debug r1 = debug r2
  ∧ breakpoints r1 = breakpoints r2 ∧ rows r1 = rows r2 ∧ cols r1 = cols r2.

#[global] Instance sameButFlags_dec r1 r2 : Decision (sameButFlags r1 r2).
Proof. unfold sameButFlags. apply _. Defined.

(** *** startContainer, callback by callback

    startContainer reads [this.container] when the run event arrives and
    assigns it in the last callback of the chain on ./db; other events of
    the socket are handled in between.  A run is split here where the
    session is written: what comes before the last callback, and the last
    callback. *)

(** What the last callback closes over. *)
Record LoggedRun := {
  lr_alias : string;
  lr_runId : Z;
  lr_params : RunParams;
  lr_rows : Z;
  lr_cols : Z;
}.

(** From the run event to the resolution of [db.createRun]: the guard, the
    validation, [db.insertProgram] and the first callback. *)
Definition startContainer_request (cfg : Config) (request : RunEventBody)
    (s : Session) : list Effect * option LoggedRun :=
  match container s with
  | Some _ =>
      ([ConsoleWarn (logPrefix s +:+ "Got run command even though we "
                     +:+ "already have a container running")], None)
  | None =>
      let rows := orDefault (rows request) 24 in
      let cols := orDefault (cols request) 80 in
      match getRunParams cfg request with
      | (effects, inl e) =>
          (effects
             ++ [ConsoleError (logPrefix s +:+ "Failed to get valid run params!");
                 ConsoleErrorExn e]
             ++ socketDisconnect s, None)
      | (effects, inr p) =>
          let row :=
            insertProgram cfg (rp_compiler p) (rp_cflags p) (rp_code p)
              (rp_argsStr p) (rp_includeFileId p) (sourceIP s) (sourceUA s) in
          let run := createRun cfg row.1 (sourceIP s) (sourceUA s) in
          (effects
             ++ [DbInsertProgram (rp_compiler p) (rp_cflags p) (rp_code p)
                   (rp_argsStr p) (rp_includeFileId p) (sourceIP s) (sourceUA s);
                 ConsoleLog (logPrefix s +:+ "Program is at alias " +:+ row.2);
                 DbCreateRun row.1 (sourceIP s) (sourceUA s)],
           Some {| lr_alias := row.2; lr_runId := run; lr_params := p;
                   lr_rows := rows; lr_cols := cols |})
      end
  end.

(** The container the last callback constructs. *)
Definition containerOf (run : LoggedRun) (s : Session) : Container :=
  let p := lr_params run in
  {| c_logPrefix := logPrefix s; c_code := rp_code p;
     c_includeFileData := rp_includeFileData p;
     c_compiler := rp_compiler p; c_cflags := rp_cflags p;
     c_argsStr := rp_argsStr p; c_rows := lr_rows run; c_cols := lr_cols run;
     c_debug := rp_debug p; c_breakpoints := rp_breakpoints p |}.

(** The last callback, [([alias, runId]) => { ... }]. *)
Definition startContainer_logged (run : LoggedRun) (s : Session)
  : Session * list Effect :=
  let c := containerOf run s in
  (setContainer (setRunId s (lr_runId run)) (Some c),
   [ConsoleLog (logPrefix s +:+ "Run logged with ID " +:+ pretty (lr_runId run));
    SocketEmitSaved (lr_alias run);
    NewContainer c]).

(** *** The events of a session

    The constructor, and the handlers it registers on the socket and hands
    to the containers, as a transition system.  A session has runs that
    wait for their last callback, and containers that were constructed and
    have not reported their exit; a container reports it once. *)

(** The constructor: the fields, and its line on the console. *)
Definition newConnection (ip ua prefix : string) : Session * list Effect :=
  ({| sourceIP := ip; sourceUA := ua; logPrefix := prefix;
      container := None; runId := None |},
   [ConsoleInfo (prefix +:+ "Websocket connection received from " +:+ ip)]).

Inductive Event :=
  | EvRun (request : RunEventBody)
  | EvLogged (i : nat)
  | EvData (data : string)
  | EvResize (rows cols : Z)
  | EvDisconnect
  | EvDebug (call : GdbCall) (outcome : option exn)
  | EvExit (connected : bool) (data : ContainerExitNotification).

Record Server := {
  session : Session;
  pending : list LoggedRun;
  live : nat;
}.

Definition handled (sv : Server) (r : Session * list Effect)
  : option (Server * list Effect) :=
  Some ({| session := r.1; pending := pending sv; live := live sv |}, r.2).

(** One event.  The effects of a run up to the resolution of
    [db.createRun] are listed with its run event; [EvLogged i] is the last
    callback of the [i]-th waiting run. *)
Definition step (cfg : Config) (ev : Event) (sv : Server)
  : option (Server * list Effect) :=
  match ev with
  | EvRun request =>
      let r := startContainer_request cfg request (session sv) in
      Some ({| session := session sv;
               pending := pending sv ++ option_list r.2;
               live := live sv |}, r.1)
  | EvLogged i =>
      match pending sv !! i with
      | Some run =>
          let r := startContainer_logged run (session sv) in
          Some ({| session := r.1; pending := delete i (pending sv);
                   live := S (live sv) |}, r.2)
      | None => None
      end
  | EvData data => handled sv (onStdinReceived data (session sv))
  | EvResize rows cols => handled sv (onTerminalResize rows cols (session sv))
  | EvDisconnect => handled sv (onSocketDisconnect (session sv))
  | EvDebug call outcome =>
      handled sv (makeDebugHandler (gdbCommand call outcome) tt (session sv)).1
  | EvExit connected data =>
      match live sv with
      | O => None
      | S n =>
          let r := onContainerExit connected data (session sv) in
          Some ({| session := r.1; pending := pending sv; live := n |}, r.2)
      end
  end.

Fixpoint exec (cfg : Config) (events : list Event) (sv : Server)
  : option (Server * list Effect) :=
  match events with
  | [] => Some (sv, [])
  | ev :: rest =>
      match step cfg ev sv with
      | Some (sv', effects) =>
          match exec cfg rest sv' with
          | Some (sv'', effects') => Some (sv'', effects ++ effects')
          | None => None
          end
      | None => None
      end
  end.

(** The record of a program in ./db is the program a container runs. *)
Definition persistedAs (c : Container) (e : Effect) : Prop :=
  ∃ fileId ip ua,
    e = DbInsertProgram (c_compiler c) (c_cflags c) (c_code c) (c_argsStr c)
          fileId ip ua.

(** What validation grants of a container. *)
Definition validated (cfg : Config) (c : Container) : Prop :=
  Js.strlen (c_cflags c) <= CFLAGS_MAX_LEN cfg
  ∧ Js.strlen (c_code c) <= CODE_MAX_LEN cfg
  ∧ Js.strlen (c_argsStr c) <= ARGS_MAX_LEN cfg
  ∧ (c_debug c = false → c_breakpoints c = [])
  ∧ c_rows c ≠ 0 ∧ c_cols c ≠ 0.

(** A trace in which every container constructed was validated and had
    its program stored in ./db before, and in which no run is updated in
    ./db under an id that is undefined. *)
Definition accountable (cfg : Config) (trace : list Effect) : Prop :=
  (∀ t1 c t2, trace = t1 ++ NewContainer c :: t2 →
     (∃ e, e ∈ t1 ∧ persistedAs c e) ∧ validated cfg c)
  ∧ (∀ ms st out, DbUpdateRun None ms st out ∉ trace).

Definition quietEffect (e : Effect) : Prop :=
  ¬ constructsContainer e ∧ ∀ ms st out, e ≠ DbUpdateRun None ms st out.

(** What the events of a session maintain, of the session and of the
    effects so far. *)
Definition sessionInv (cfg : Config) (sv : Server) (history : list Effect)
  : Prop :=
  accountable cfg history
  ∧ (∀ run s, run ∈ pending sv →
       (∃ e, e ∈ history ∧ persistedAs (containerOf run s) e)
       ∧ validated cfg (containerOf run s))
  ∧ ((0 < live sv)%nat ∨ container (session sv) ≠ None →
     runId (session sv) ≠ None).

(** The session of a new connection. *)
Definition opened (ip ua prefix : string) : Server :=
  {| session := (newConnection ip ua prefix).1; pending := []; live := O |}.

End SocketConnection.

(** ** The module that creates the express application

    THEMES is imported from ../common/constants and the page is read from
    src/client/index.html when the module is loaded; the functions below
    take both as parameters. *)

Module Express.

Inductive Effect :=
  | ConsoleInfo (text : string)
  | Send (body : string)
  | SendFile (path : string).

(** The name generateIndexHtml puts in the page.  [theme] is
    [req.query.theme] when it is a string; a parameter that is absent, or
    that the query parser made an array or an object of, is included in no
    array of strings. *)
Definition themeOf (THEMES : list string) (theme : option string) : string :=
  match theme with
  | Some t => if bool_decide (t ∈ THEMES) then "theme-" +:+ t else "styles"
  | None => "styles"
  end.

Definition generateIndexHtml (THEMES : list string) (INDEX_HTML_CODE : string)
    (originalUrl : string) (theme : option string) : list Effect :=
  [ConsoleInfo ("Incoming request for " +:+ originalUrl);
   Send (Js.replace INDEX_HTML_CODE "{{THEME}}" (themeOf THEMES theme))].

(** The calls of addStaticHandler, in their order: the path of the route
    and the file it sends, from the root of the repository. *)
Definition staticRoutes (THEMES : list string) : list (string * string) :=
  [("/styles.css", "dist/client/css/styles.css")]
  ++ ((fun theme => ("/theme-" +:+ theme +:+ ".css",
                     "dist/client/css/theme-" +:+ theme +:+ ".css"))
        <$> THEMES)
  ++ [("/app.js", "dist/client/bundle.js");
      ("/bundle.js.map", "dist/client/bundle.js.map");
      ("/ace-builds/src-noconflict/ace.js",
       "node_modules/ace-builds/src-noconflict/ace.js");
      ("/ace-builds/src-noconflict/mode-c_cpp.js",
       "node_modules/ace-builds/src-noconflict/mode-c_cpp.js");
      ("/xterm.css", "node_modules/xterm/css/xterm.css")].

(** The handler of a static route: [res.sendFile(getPathFromRoot(filePath))]
    for the first route registered for the path. *)
Definition staticHandler (THEMES : list string) (urlPath : string)
  : option (list Effect) :=
  (fun route : string * string => [SendFile route.2])
    <$> (snd <$> list_find (fun route => route.1 = urlPath)
                           (staticRoutes THEMES)).

(** A string without a dollar sign. *)
Fixpoint dollarFree (s : string) : bool :=
  match s with
  | EmptyString => true
  | String c s' => negb (bool_decide (c = "$"%char)) && dollarFree s'
  end.

End Express.

(** ** Sample snapshots *)

Module Samples.

Import Debugger.

Definition rawFile (fd : Z) (openFileID : string) (pos : Z) (octal : string)
    (vnodeName : string) : RawFileInfo :=
  {| fd := fd; closeOnExec := false; openFileID := openFileID; pos := pos;
     flags := readFlags octal; vnodeName := vnodeName |}.

Definition rawProcess (globalPID containerPID containerPPID : Z)
    (files : list RawFileInfo) : RawProcessInfo :=
  {| namespaceID := "ns"; globalPID := globalPID;
     containerPID := containerPID; containerPPID := containerPPID;
     containerPGID := 1; command := "output";
     files := list_to_map ((fun f => (fd f, f)) <$> files) |}.

Definition namespaceOf (procs : list RawProcessInfo) : RawContainerInfo :=
  list_to_map ((fun p => (containerPID p, p)) <$> procs).

(** A parent (pid 20) and its child (pid 21) share the terminal and the
    write end of a pipe; the child also holds the read end. *)
Definition forkedInit : RawProcessInfo :=
  rawProcess 4000 1 0 [rawFile 0 "tty" 0 "100002" "/dev/pts/0"].

Definition forked : RawContainerInfo :=
  namespaceOf
    [ forkedInit;
      rawProcess 4020 20 1
        [rawFile 0 "tty" 0 "100002" "/dev/pts/0";
         rawFile 1 "pipe-w" 0 "1" "pipe:[116131]"];
      rawProcess 4021 21 20
        [rawFile 0 "tty" 0 "100002" "/dev/pts/0";
         rawFile 1 "pipe-w" 0 "1" "pipe:[116131]";
         rawFile 3 "pipe-r" 0 "0" "pipe:[116131]"] ].

Definition forkedInfo : ContainerInfo :=
  match cleanContainerData forked with
  | inr (_, info) => info
  | inl _ => {| processes := []; openFiles := ∅; vnodes := ∅ |}
  end.

(** The same namespace seen from another host process table. *)
Definition forkedElsewhere : RawContainerInfo :=
  namespaceOf
    [ rawProcess 977 1 0 [rawFile 0 "tty" 0 "100002" "/dev/pts/0"];
      rawProcess 978 20 1
        [rawFile 0 "tty" 0 "100002" "/dev/pts/0";
         rawFile 1 "pipe-w" 0 "1" "pipe:[116131]"];
      rawProcess 979 21 20
        [rawFile 0 "tty" 0 "100002" "/dev/pts/0";
         rawFile 1 "pipe-w" 0 "1" "pipe:[116131]";
         rawFile 3 "pipe-r" 0 "0" "pipe:[116131]"] ].

(** A namespace without a process of container pid 1. *)
Definition noInit : RawContainerInfo :=
  namespaceOf
    [ rawProcess 5020 20 1 [rawFile 0 "tty" 0 "100002" "/dev/pts/1"] ].

(** Two exposed processes disagree on the vnode of the open file "tty". *)
Definition disagreeing : RawContainerInfo :=
  namespaceOf
    [ rawProcess 6000 1 0 [];
      rawProcess 6020 20 1 [rawFile 0 "tty" 0 "100002" "/dev/pts/2"];
      rawProcess 6021 21 20 [rawFile 0 "tty" 0 "100002" "/dev/pts/3"] ].

(** The init process and an exposed process disagree on the offset of the
    open file "tty". *)
Definition initDisagrees : RawContainerInfo :=
  namespaceOf
    [ rawProcess 7000 1 0 [rawFile 0 "tty" 512 "100002" "/dev/pts/4"];
      rawProcess 7020 20 1 [rawFile 0 "tty" 0 "100002" "/dev/pts/4"] ].

(** A namespace in which the program run under pid 20 has opened a file
    that the kernel module reports under the id "constructor". *)
Definition constructorNamed : RawContainerInfo :=
  namespaceOf
    [ rawProcess 8000 1 0 [];
      rawProcess 8020 20 1 [rawFile 3 "constructor" 0 "100002" "/tmp/out"] ].

(** The same with a file whose name is the vnode name "toString". *)
Definition toStringNamed : RawContainerInfo :=
  namespaceOf
    [ rawProcess 8100 1 0 [];
      rawProcess 8120 20 1 [rawFile 3 "file-9" 0 "100002" "toString"] ].

(** A conversion for the sample text: the value of a string of decimal
    digits. *)
Fixpoint decimalFrom (s : string) (acc : Z) : Z :=
  match s with
  | EmptyString => acc
  | String c s' => decimalFrom s' (10 * acc + (Z.of_N (N_of_ascii c) - 48))
  end.

Definition decimal (s : string) : Z := decimalFrom s 0.

(** A line of /proc/cplayground: fields separated by tabs. *)
Definition tabbed (fields : list string) : string :=
  Js.join (String "009" EmptyString) fields.

(** The text for an init process and its child, which share the terminal;
    the child has a pipe as well. *)
Definition procfile : list string :=
  [ tabbed ["ns-a"; "4000"; "1"; "0"; "1"; "init"];
    tabbed ["0"; "0"; "file-1"; "0"; "0100002"; "/dev/pts/0"];
    "";
    tabbed ["ns-a"; "4001"; "2"; "1"; "2"; "a.out"];
    tabbed ["0"; "0"; "file-1"; "0"; "0100002"; "/dev/pts/0"];
    tabbed ["3"; "1"; "file-2"; "12"; "01"; "pipe:[90222668]"] ].

(** Themes and a page for the express application. *)
Definition themes : list string := ["monokai"; "solarized_dark"].

Definition page : string :=
  "<link rel=stylesheet href=/{{THEME}}.css><title>{{THEME}}</title>".

(** The same text, block by block. *)
Definition procBlocks : list (string * list string) :=
  [ (tabbed ["ns-a"; "4000"; "1"; "0"; "1"; "init"],
     [tabbed ["0"; "0"; "file-1"; "0"; "0100002"; "/dev/pts/0"]]);
    (tabbed ["ns-a"; "4001"; "2"; "1"; "2"; "a.out"],
     [tabbed ["0"; "0"; "file-1"; "0"; "0100002"; "/dev/pts/0"];
      tabbed ["3"; "1"; "file-2"; "12"; "01"; "pipe:[90222668]"]]) ].

(** Constants and a database for the session. *)
Definition config : SocketConnection.Config :=
  {| SocketConnection.SUPPORTED_VERSIONS :=
       ["C99"; "C11"; "C++11"; "C++14"; "C++17"];
     SocketConnection.FLAG_WHITELIST :=
       ["-O0"; "-O1"; "-O2"; "-O3"; "-Wall"; "-no-pie"; "-lm"; "-pthread"];
     SocketConnection.DEFAULT_VERSION := "C++17";
     SocketConnection.CFLAGS_MAX_LEN := 100;
     SocketConnection.CODE_MAX_LEN := 16;
     SocketConnection.ARGS_MAX_LEN := 100;
     SocketConnection.getFileContents :=
       fun id => if decide (id = "upload-1") then Some "#define N 3" else None;
     SocketConnection.insertProgram :=
       fun _ _ _ _ _ _ _ => (7, "alias-7");
     SocketConnection.createRun := fun _ _ _ => 42 |}.

Definition request : SocketConnection.RunEventBody :=
  {| SocketConnection.language := "C99";
     SocketConnection.flags := SocketConnection.FlagsArray ["-O2"; "-Wall"];
     SocketConnection.code := Some "int main(){}";
     SocketConnection.args := None;
     SocketConnection.includeFileId := None;
     SocketConnection.debug := false;
     SocketConnection.breakpoints := None;
     SocketConnection.rows := None;
     SocketConnection.cols := None |}.

(** The same request with a program longer than CODE_MAX_LEN. *)
Definition longRequest : SocketConnection.RunEventBody :=
  {| SocketConnection.language := "C99";
     SocketConnection.flags := SocketConnection.FlagsArray ["-O2"; "-Wall"];
     SocketConnection.code := Some "int main(){return 0;}";
     SocketConnection.args := None;
     SocketConnection.includeFileId := None;
     SocketConnection.debug := false;
     SocketConnection.breakpoints := None;
     SocketConnection.rows := None;
     SocketConnection.cols := None |}.

Definition idle : SocketConnection.Session :=
  {| SocketConnection.sourceIP := "203.0.113.9";
     SocketConnection.sourceUA := "agent";
     SocketConnection.logPrefix := "[s1] ";
     SocketConnection.container := None;
     SocketConnection.runId := None |}.

(** The session after [request] was run. *)
Definition running : SocketConnection.Session :=
  (SocketConnection.startContainer config request idle).1.

(** The container [running] holds. *)
Definition held : SocketConnection.Container :=
  {| SocketConnection.c_logPrefix := "[s1] ";
     SocketConnection.c_code := "int main(){}";
     SocketConnection.c_includeFileData := None;
     SocketConnection.c_compiler := SocketConnection.gcc;
     SocketConnection.c_cflags := "-std=c99 -O2 -Wall";
     SocketConnection.c_argsStr := "";
     SocketConnection.c_rows := 24;
     SocketConnection.c_cols := 80;
     SocketConnection.c_debug := false;
     SocketConnection.c_breakpoints := [] |}.

(** A request to debug, with a breakpoint and a terminal size. *)
Definition debugRequest : SocketConnection.RunEventBody :=
  {| SocketConnection.language := "C++14";
     SocketConnection.flags :=
       SocketConnection.FlagsArray ["-O0"; "-fsanitize=address"];
     SocketConnection.code := Some "int main(){}";
     SocketConnection.args := Some "1 2";
     SocketConnection.includeFileId := Some "upload-1";
     SocketConnection.debug := true;
     SocketConnection.breakpoints := Some [1];
     SocketConnection.rows := Some 0;
     SocketConnection.cols := Some 120 |}.

(** [debugRequest] without the flag that is not whitelisted. *)
Definition debugRequestWhitelisted : SocketConnection.RunEventBody :=
  {| SocketConnection.language := "C++14";
     SocketConnection.flags := SocketConnection.FlagsArray ["-O0"];
     SocketConnection.code := Some "int main(){}";
     SocketConnection.args := Some "1 2";
     SocketConnection.includeFileId := Some "upload-1";
     SocketConnection.debug := true;
     SocketConnection.breakpoints := Some [1];
     SocketConnection.rows := Some 0;
     SocketConnection.cols := Some 120 |}.

(** The container of [debugRequestWhitelisted] on the idle session. *)
Definition heldDebug : SocketConnection.Container :=
  {| SocketConnection.c_logPrefix := "[s1] ";
     SocketConnection.c_code := "int main(){}";
     SocketConnection.c_includeFileData := Some "#define N 3";
     SocketConnection.c_compiler := SocketConnection.gpp;
     SocketConnection.c_cflags := "-std=c++14 -O0";
     SocketConnection.c_argsStr := "1 2";
     SocketConnection.c_rows := 24;
     SocketConnection.c_cols := 120;
     SocketConnection.c_debug := true;
     SocketConnection.c_breakpoints := [1] |}.

(** [request] with its flags sent as one string, not as an array. *)
Definition stringFlagsRequest : SocketConnection.RunEventBody :=
  {| SocketConnection.language := "C99";
     SocketConnection.flags := SocketConnection.FlagsOther true (Some 3) "-O2";
     SocketConnection.code := Some "int main(){}";
     SocketConnection.args := None;
     SocketConnection.includeFileId := None;
     SocketConnection.debug := false;
     SocketConnection.breakpoints := None;
     SocketConnection.rows := None;
     SocketConnection.cols := None |}.

Definition exitNotification : SocketConnection.ContainerExitNotification :=
  {| SocketConnection.exitStatus := 0;
     SocketConnection.signal := None;
     SocketConnection.runtimeMs := 12;
     SocketConnection.output := "" |}.

End Samples.

Import Debugger.

(** * Properties *)

(** ** readFlags *)

Section ReadFlags.

Implicit Types (octal : Z) (flags : list FileFlag) (flag : FileFlag).

(** O_RDONLY is 0, so every value includes it: the first loop always pushes
    it, and pushes it first. *)
Lemma matchedFlags_head octal :
  matchedFlags octal
  = O_RDONLY :: filter (hasFlag octal) (tail FILE_FLAGS_keys).
Proof.
  unfold matchedFlags, FILE_FLAGS_keys. rewrite filter_cons_True; [done|].
  unfold hasFlag. simpl. apply Z.land_0_r.
Qed.

Lemma O_RDONLY_not_in_tail octal :
  O_RDONLY ∉ filter (hasFlag octal) (tail FILE_FLAGS_keys).
Proof.
  intros [_ Hin]%list_elem_of_filter. revert Hin.
  apply (bool_decide_eq_false_1 (O_RDONLY ∈ tail FILE_FLAGS_keys)).
  reflexivity.
Qed.

Lemma indexOf_head {A} `{EqDecision A} (x : A) l : Js.indexOf x (x :: l) = 0.
Proof. simpl. by rewrite decide_True. Qed.

Lemma splice_head {A} (x : A) l : Js.splice (x :: l) 0 1 = l.
Proof.
  unfold Js.splice.
  replace (0 <? 0) with false by done.
  rewrite Z.min_l by lia.
  replace (Z.min (Z.max 1 0) (Z.of_nat (length (x :: l)) - 0)) with 1.
  - done.
  - rewrite length_cons. lia.
Qed.

Lemma filter_ne_head flag flags :
  flag ∉ flags -> filter (fun f => f <> flag) (flag :: flags) = flags.
Proof.
  intros Hnotin. rewrite filter_cons_False by (intros Hne; by apply Hne).
  induction flags as [|f flags IH]; [done|].
  apply not_elem_of_cons in Hnotin as [Hne Hnotin].
  rewrite filter_cons_True by done. by rewrite IH.
Qed.

(** On what the first loop pushes, the splice removes O_RDONLY and nothing
    else. *)
Lemma dropReadOnly_matched octal :
  dropReadOnly (matchedFlags octal)
  = dropReadOnly_removeIfPresent (matchedFlags octal).
Proof.
  unfold dropReadOnly, dropReadOnly_removeIfPresent.
  destruct (orb _ _); [|done].
  rewrite matchedFlags_head, indexOf_head, splice_head.
  symmetry. apply filter_ne_head. apply O_RDONLY_not_in_tail.
Qed.

Lemma readFlagsOf_no_readonly_with_write octal :
  O_RDONLY ∈ readFlagsOf octal →
  (O_WRONLY ∉ readFlagsOf octal) ∧ (O_RDWR ∉ readFlagsOf octal).
Proof.
  unfold readFlagsOf. rewrite dropReadOnly_matched.
  unfold dropReadOnly_removeIfPresent.
  destruct (bool_decide (O_WRONLY ∈ matchedFlags octal)) eqn:Hw;
    destruct (bool_decide (O_RDWR ∈ matchedFlags octal)) eqn:Hrw; simpl;
    intros Hin.
  1-3: apply list_elem_of_filter in Hin as [Hne _]; by destruct Hne.
  apply bool_decide_eq_false in Hw, Hrw. by split.
Qed.

(** C3 (as the code has it): the value 0o2 is the read-write flag, and the
    write-only flag is 0o1.  Decoding "2" gives O_RDWR alone, without
    O_RDONLY and without O_WRONLY; decoding "100002" gives the regular-file
    flag with O_RDWR; decoding "1" and "100001" gives O_WRONLY in the place
    of O_RDWR. *)
Theorem readFlags_octal_2_is_read_write :
  readFlags "2" = [O_RDWR]
  /\ readFlags "100002" = [O_RDWR; S_IFREG]
  /\ readFlags "1" = [O_WRONLY]
  /\ readFlags "100001" = [O_WRONLY; S_IFREG].
Proof. repeat split; reflexivity. Qed.

(** C3 as stated fails: the flags decoded from "2" do not contain the
    write-only alias. *)
Lemma readFlags_octal_2_not_write_only :
  ~ (O_WRONLY ∈ readFlags "2" /\ O_RDONLY ∉ readFlags "2").
Proof.
  intros [Hin _]. revert Hin.
  apply (bool_decide_eq_false_1 (O_WRONLY ∈ readFlags "2")). reflexivity.
Qed.

(** When both write-mode aliases are set, both stay. *)
Example readFlags_octal_3 : readFlags "3" = [O_WRONLY; O_RDWR].
Proof. reflexivity. Qed.

(** The value 0o4 is no known flag: readFlags warns, and still returns. *)
Example readFlags_unknown_bit :
  readFlags "4" = [O_RDONLY] ∧ readFlags_warns "4" = true
  ∧ readFlags_warns "100002" = false.
Proof. repeat split; reflexivity. Qed.

(** A string without an octal digit is NaN, which the bitwise operators
    read as 0. *)
Example readFlags_not_a_number : readFlags "rw" = [O_RDONLY].
Proof. reflexivity. Qed.

(** C10: for every input string, the removal by position in readFlags is
    the removal of O_RDONLY if present.  O_RDONLY is always among the flags
    the first loop pushes, [indexOf] finds it (at index 0, never -1), every
    other pushed flag is in the result, and the result never holds O_RDONLY
    together with O_WRONLY or O_RDWR. *)
Theorem readFlags_splice_removes_read_only (octalStr : string) :
  let pushed := matchedFlags (Js.toInt32 (Js.parseInt8 octalStr)) in
  O_RDONLY ∈ pushed
  /\ Js.indexOf O_RDONLY pushed = 0
  /\ readFlags octalStr = readFlags_removeIfPresent octalStr
  /\ (forall flag, flag <> O_RDONLY -> flag ∈ pushed ->
       flag ∈ readFlags octalStr)
  /\ ~ (O_RDONLY ∈ readFlags octalStr
        /\ (O_WRONLY ∈ readFlags octalStr \/ O_RDWR ∈ readFlags octalStr)).
Proof.
  intros pushed. subst pushed.
  set (octal := Js.toInt32 (Js.parseInt8 octalStr)).
  assert (Heq : readFlags octalStr = readFlags_removeIfPresent octalStr)
    by apply dropReadOnly_matched.
  repeat split.
  - rewrite matchedFlags_head. apply list_elem_of_here.
  - rewrite matchedFlags_head. apply indexOf_head.
  - exact Heq.
  - intros flag Hne Hin. rewrite Heq.
    unfold readFlags_removeIfPresent, dropReadOnly_removeIfPresent.
    fold octal. destruct (orb _ _); [|done].
    by apply list_elem_of_filter.
  - intros [Hro Hw].
    destruct (readFlagsOf_no_readonly_with_write octal Hro) as [H1 H2].
    destruct Hw; [by apply H1 | by apply H2].
Qed.

End ReadFlags.

(** ** The tables *)

Section ObjectValues.

Context {A : Type}.
Implicit Types (m : gmap Z A).

#[local] Instance keyLe_total : Total (@keyLe A).
Proof. intros x y. unfold keyLe. lia. Qed.

#[local] Instance keyLe_trans : Transitive (@keyLe A).
Proof. intros x y z. unfold keyLe. lia. Qed.

Lemma Object_entries_perm m : Object_entries m ≡ₚ map_to_list m.
Proof. apply merge_sort_Permutation. Qed.

Lemma Object_values_perm m : Object_values m ≡ₚ (map_to_list m).*2.
Proof. unfold Object_values. by rewrite Object_entries_perm. Qed.

Lemma elem_of_Object_entries m k v :
  (k, v) ∈ Object_entries m ↔ m !! k = Some v.
Proof. rewrite Object_entries_perm. apply elem_of_map_to_list. Qed.

Lemma elem_of_Object_values m v :
  v ∈ Object_values m ↔ ∃ k, m !! k = Some v.
Proof.
  unfold Object_values. rewrite list_elem_of_fmap. split.
  - intros [[k v'] [-> Hin]]. exists k. by apply elem_of_Object_entries.
  - intros [k Hk]. exists (k, v). split; [done|].
    by apply elem_of_Object_entries.
Qed.

Lemma NoDup_Object_entries_keys m : NoDup (Object_entries m).*1.
Proof. rewrite Object_entries_perm. apply NoDup_fst_map_to_list. Qed.

Lemma Object_entries_sorted m : StronglySorted keyLe (Object_entries m).
Proof. apply StronglySorted_merge_sort; apply _. Qed.

End ObjectValues.

(** Object.values commutes with a map over the values. *)
Lemma Object_values_fmap {A B} (f : A → B) (m : gmap Z A) :
  Object_values (f <$> m) = f <$> Object_values m.
Proof.
  unfold Object_values.
  assert (Object_entries (f <$> m) = prod_map id f <$> Object_entries m) as ->.
  { apply (StronglySorted_unique_strong keyLe).
    - intros [k1 v1] [k2 v2] H1 H2 Hle1 Hle2.
      unfold keyLe in *; simpl in *.
      assert (k1 = k2) as -> by lia.
      apply elem_of_Object_entries in H1.
      apply list_elem_of_fmap in H2 as [[k v] [Heq Hin]].
      apply elem_of_Object_entries in Hin.
      simpl in Heq. injection Heq as -> ->.
      rewrite lookup_fmap, Hin in H1. simpl in H1. congruence.
    - apply Object_entries_sorted.
    - apply StronglySorted_fmap with (R1 := keyLe).
      + by intros [] [].
      + apply Object_entries_sorted.
    - rewrite !Object_entries_perm. by rewrite map_to_list_fmap. }
  rewrite <- !list_fmap_compose. by apply list_fmap_ext; intros ? [].
Qed.

Section OpenFiles.

Implicit Types (f : RawFileInfo) (t : OpenFileTable) (e : OpenFileEntry)
  (id : string) (seen rest : list RawFileInfo).

Lemma countId_snoc id seen f :
  countId id (seen ++ [f])
  = (countId id seen + if decide (openFileID f = id) then 1 else 0)%nat.
Proof.
  unfold countId. rewrite filter_app, length_app. f_equal.
  rewrite filter_cons. by destruct (decide _).
Qed.

Lemma countId_app id l1 l2 :
  countId id (l1 ++ l2) = (countId id l1 + countId id l2)%nat.
Proof. unfold countId. by rewrite filter_app, length_app. Qed.

Lemma countId_pos id l : (0 < countId id l)%nat ↔ ∃ f, f ∈ l ∧ openFileID f = id.
Proof.
  unfold countId. split.
  - destruct (filter _ l) as [|f l'] eqn:Heq; simpl; [lia|]. intros _.
    assert (f ∈ filter (fun f => openFileID f = id) l) as Hin
      by (rewrite Heq; left).
    apply list_elem_of_filter in Hin as [? ?]. eauto.
  - intros (f & Hin & Hid).
    assert (f ∈ filter (fun f => openFileID f = id) l) as Hin'
      by (by apply list_elem_of_filter).
    destruct (filter _ l); [by apply elem_of_nil in Hin'|simpl; lia].
Qed.

Lemma deepCompare_openFile_spec f n e :
  deepCompare_openFile
    {| position := pos f; fileFlags := flags f;
       fileRefcount := n; vnode := vnodeName f |} e = true
  ↔ details f = entryDetails e.
Proof.
  unfold deepCompare_openFile, details, entryDetails. simpl.
  rewrite !andb_true_iff, !bool_decide_eq_true. split.
  - by intros [[-> ->] ->].
  - intros [= -> -> ->]. done.
Qed.

Lemma openInv_nil : openInv [] ∅.
Proof. intros id. by rewrite lookup_empty. Qed.

Lemma openFileStep_ok seen t f t' :
  openInv seen t → openFileStep t f = inr t' → openInv (seen ++ [f]) t'.
Proof.
  intros Hinv Hstep id. unfold openFileStep in Hstep.
  pose proof (Hinv (openFileID f)) as Hf. pose proof (Hinv id) as Hid.
  rewrite countId_snoc.
  destruct (t !! openFileID f) as [existing|] eqn:Hlook.
  - destruct (deepCompare_openFile _ existing) eqn:Hcmp; [|done].
    apply deepCompare_openFile_spec in Hcmp.
    injection Hstep as <-. destruct Hf as (Hpos & Hcount & Hsame).
    destruct (decide (openFileID f = id)) as [<-|Hne].
    + rewrite lookup_insert_eq. simpl. repeat split; [lia|lia|].
      intros f' [Hin| ->%list_elem_of_singleton]%elem_of_app Hid'; [|done].
      by apply Hsame.
    + rewrite lookup_insert_ne by done. rewrite Nat.add_0_r.
      destruct (t !! id) as [e|]; [|done].
      destruct Hid as (? & ? & Hsame'). repeat split; [done..|].
      intros f' [Hin| ->%list_elem_of_singleton]%elem_of_app Hid'; [|done].
      by apply Hsame'.
  - destruct (decide (Js.inherited (openFileID f))); [done|].
    injection Hstep as <-.
    destruct (decide (openFileID f = id)) as [<-|Hne].
    + rewrite lookup_insert_eq. simpl. rewrite Hf.
      split; [lia|]. split; [lia|].
      intros f' [Hin| ->%list_elem_of_singleton]%elem_of_app Hid'; [|done].
      assert (0 < countId (openFileID f) seen)%nat; [|lia].
      apply countId_pos. eauto.
    + rewrite lookup_insert_ne by done. rewrite Nat.add_0_r.
      destruct (t !! id) as [e|]; [|done].
      destruct Hid as (? & ? & Hsame'). repeat split; [done..|].
      intros f' [Hin| ->%list_elem_of_singleton]%elem_of_app Hid'; [|done].
      by apply Hsame'.
Qed.

(** No inherited key enters the table: the step throws on the first record
    that has one. *)
Lemma openFileStep_own seen t f t' :
  openInv seen t → (∀ f', f' ∈ seen → ¬ Js.inherited (openFileID f')) →
  openFileStep t f = inr t' → ¬ Js.inherited (openFileID f).
Proof.
  intros Hinv Hown Hstep. unfold openFileStep in Hstep.
  pose proof (Hinv (openFileID f)) as Hf.
  destruct (t !! openFileID f) as [existing|] eqn:Hlook.
  - destruct Hf as (Hpos & _). apply countId_pos in Hpos as (f' & Hin & <-).
    by apply Hown.
  - by destruct (decide (Js.inherited (openFileID f))).
Qed.

Lemma openFileStep_fails seen t f exc :
  openInv seen t → openFileStep t f = inl exc →
  (∃ message, exc = DebugDataError message)
  ∧ ((∃ f', f' ∈ seen ∧ conflicting f' f) ∨ Js.inherited (openFileID f)).
Proof.
  intros Hinv Hstep. unfold openFileStep in Hstep.
  pose proof (Hinv (openFileID f)) as Hf.
  destruct (t !! openFileID f) as [existing|] eqn:Hlook.
  2: { destruct (decide (Js.inherited (openFileID f))); [|done].
       injection Hstep as <-. eauto. }
  destruct (deepCompare_openFile _ existing) eqn:Hcmp; [done|].
  injection Hstep as <-. split; [eauto|]. left.
  destruct Hf as (Hpos & _ & Hsame).
  apply countId_pos in Hpos as (f' & Hin & Hid).
  exists f'. split; [done|]. split; [done|].
  rewrite (Hsame f' Hin Hid). intros Heq.
  symmetry in Heq. apply deepCompare_openFile_spec with (n := 1) in Heq.
  congruence.
Qed.

(** A record with an inherited id is never stored. *)
Lemma openFileStep_inherited seen t f :
  openInv seen t → (∀ f', f' ∈ seen → ¬ Js.inherited (openFileID f')) →
  Js.inherited (openFileID f) → throws (openFileStep t f).
Proof.
  intros Hinv Hown Hf.
  destruct (openFileStep t f) as [exc|t'] eqn:Hstep; [done|].
  by destruct (openFileStep_own _ _ _ _ Hinv Hown Hstep).
Qed.

Lemma openFile_loop rest : ∀ seen t,
  openInv seen t → (∀ f, f ∈ seen → ¬ Js.inherited (openFileID f)) →
  match forOf rest openFileStep t with
  | inr t' =>
      openInv (seen ++ rest) t'
      ∧ ∀ f, f ∈ seen ++ rest → ¬ Js.inherited (openFileID f)
  | inl exc =>
      (∃ message, exc = DebugDataError message)
      ∧ ((∃ f1 f2, f1 ∈ seen ++ rest ∧ f2 ∈ seen ++ rest ∧ conflicting f1 f2)
         ∨ ∃ f, f ∈ seen ++ rest ∧ Js.inherited (openFileID f))
  end.
Proof.
  induction rest as [|f rest IH]; intros seen t Hinv Hown; simpl.
  - by rewrite app_nil_r.
  - destruct (openFileStep t f) as [exc|t'] eqn:Hstep; simpl.
    + destruct (openFileStep_fails _ _ _ _ Hinv Hstep)
        as (Hexc & [(f' & Hin & Hconflict)|Hinherited]).
      * split; [done|]. left. exists f', f. split_and!; [|  |done].
        -- apply elem_of_app. by left.
        -- apply elem_of_app. right. left.
      * split; [done|]. right. exists f. split; [|done].
        apply elem_of_app. right. left.
    + specialize (IH (seen ++ [f]) t' (openFileStep_ok _ _ _ _ Hinv Hstep)).
      rewrite <- app_assoc in IH. apply IH.
      intros f' [Hin| ->%list_elem_of_singleton]%elem_of_app.
      * by apply Hown.
      * by apply (openFileStep_own _ _ _ _ Hinv Hown Hstep).
Qed.

Lemma populateOpenFileTable_spec l :
  match populateOpenFileTable l with
  | inr t => openInv l t
  | inl exc =>
      (∃ message, exc = DebugDataError message)
      ∧ ((∃ f1 f2, f1 ∈ l ∧ f2 ∈ l ∧ conflicting f1 f2)
         ∨ ∃ f, f ∈ l ∧ Js.inherited (openFileID f))
  end.
Proof.
  pose proof (openFile_loop l [] ∅ openInv_nil) as Hloop.
  unfold populateOpenFileTable. simpl in Hloop.
  destruct (forOf l openFileStep ∅); apply Hloop;
    intros f []%elem_of_nil.
Qed.

(** The keys of the table populateOpenFileTable returns are not inherited
    ones. *)
Lemma populateOpenFileTable_own l t :
  populateOpenFileTable l = inr t →
  ∀ f, f ∈ l → ¬ Js.inherited (openFileID f).
Proof.
  pose proof (openFile_loop l [] ∅ openInv_nil) as Hloop.
  unfold populateOpenFileTable. simpl in Hloop. intros Ht.
  rewrite Ht in Hloop. apply Hloop. intros f []%elem_of_nil.
Qed.

Lemma openInv_no_conflict l t f1 f2 :
  openInv l t → f1 ∈ l → f2 ∈ l → ¬ conflicting f1 f2.
Proof.
  intros Hinv H1 H2 [Hid Hne]. specialize (Hinv (openFileID f1)).
  destruct (t !! openFileID f1) as [e|].
  - destruct Hinv as (_ & _ & Hsame). apply Hne.
    by rewrite (Hsame f1), (Hsame f2).
  - assert (0 < countId (openFileID f1) l)%nat; [|lia].
    apply countId_pos. eauto.
Qed.

(** populateOpenFileTable throws exactly on conflicting records and on a
    record whose id is an inherited key. *)
Lemma populateOpenFileTable_throws l :
  throws (populateOpenFileTable l)
  ↔ (∃ f1 f2, f1 ∈ l ∧ f2 ∈ l ∧ conflicting f1 f2)
    ∨ ∃ f, f ∈ l ∧ Js.inherited (openFileID f).
Proof.
  pose proof (populateOpenFileTable_spec l) as Hspec.
  pose proof (populateOpenFileTable_own l) as Hown.
  destruct (populateOpenFileTable l) as [exc|t]; simpl.
  - split; [intros _; apply Hspec | done].
  - split; [done|]. intros [(f1 & f2 & H1 & H2 & Hc)|(f & Hin & Hf)].
    + by apply (openInv_no_conflict l t f1 f2).
    + by apply (Hown t eq_refl f).
Qed.

End OpenFiles.

Section Vnodes.

Implicit Types (f : RawFileInfo) (v : VnodeTable) (t : OpenFileTable)
  (seen rest : list RawFileInfo) (es : list OpenFileEntry).

Lemma vnodeInv_nil : vnodeInv [] ∅.
Proof.
  intros n. rewrite lookup_empty. rewrite decide_False; [done|].
  apply not_elem_of_nil.
Qed.

(** The comparison of populateVnodeTable fails on an inherited key only: an
    existing entry was built from the same name, and its count is still
    0. *)
Lemma vnodeStep_ok seen v f :
  vnodeInv seen v → (∀ f', f' ∈ seen → ¬ Js.inherited (vnodeName f')) →
  if decide (Js.inherited (vnodeName f))
  then ∃ message, vnodeStep v f = inl (DebugDataError message)
  else ∃ v', vnodeStep v f = inr v' ∧ vnodeInv (seen ++ [f]) v'.
Proof.
  intros Hinv Hown. unfold vnodeStep. pose proof (Hinv (vnodeName f)) as Hf.
  destruct (decide (vnodeName f ∈ vnodeName <$> seen)) as [Hin|Hnotin].
  - rewrite decide_False.
    2: { apply list_elem_of_fmap in Hin as (f' & -> & Hin). by apply Hown. }
    rewrite Hf. unfold deepCompare_vnode. simpl.
    rewrite !bool_decide_eq_true_2 by done. simpl.
    exists v. split; [done|]. intros n. rewrite (Hinv n).
    rewrite fmap_app. simpl.
    destruct (decide (n ∈ vnodeName <$> seen)) as [Hn|Hn].
    + rewrite decide_True; [done|]. apply elem_of_app. by left.
    + rewrite decide_False; [done|].
      intros [?| ->%list_elem_of_singleton]%elem_of_app; done.
  - rewrite Hf.
    destruct (decide (Js.inherited (vnodeName f))) as [Hyes|Hno]; [eauto|].
    eexists. split; [done|]. intros n.
    rewrite fmap_app. simpl.
    destruct (decide (vnodeName f = n)) as [<-|Hne].
    + rewrite lookup_insert_eq. rewrite decide_True; [done|].
      apply elem_of_app. right. left.
    + rewrite lookup_insert_ne by done. rewrite (Hinv n).
      destruct (decide (n ∈ vnodeName <$> seen)) as [Hn|Hn].
      * rewrite decide_True; [done|]. apply elem_of_app. by left.
      * rewrite decide_False; [done|].
        intros [?| ->%list_elem_of_singleton]%elem_of_app; done.
Qed.

Lemma vnode_loop rest : ∀ seen v,
  vnodeInv seen v → (∀ f, f ∈ seen → ¬ Js.inherited (vnodeName f)) →
  match forOf rest vnodeStep v with
  | inr v' =>
      vnodeInv (seen ++ rest) v'
      ∧ ∀ f, f ∈ rest → ¬ Js.inherited (vnodeName f)
  | inl exc =>
      (∃ message, exc = DebugDataError message)
      ∧ ∃ f, f ∈ rest ∧ Js.inherited (vnodeName f)
  end.
Proof.
  induction rest as [|f rest IH]; intros seen v Hinv Hown; simpl.
  - rewrite app_nil_r. split; [done|]. intros f []%elem_of_nil.
  - pose proof (vnodeStep_ok seen v f Hinv Hown) as Hstep.
    destruct (decide (Js.inherited (vnodeName f))) as [Hf|Hf].
    + destruct Hstep as [message ->]. simpl. split; [eauto|].
      exists f. split; [left|done].
    + destruct Hstep as (v1 & -> & Hinv1). simpl.
      specialize (IH (seen ++ [f]) v1 Hinv1).
      rewrite <- app_assoc in IH. simpl in IH.
      destruct (forOf rest vnodeStep v1) as [exc|v'].
      * destruct IH as (Hexc & f' & Hin & Hf').
        { intros f' [?| ->%list_elem_of_singleton]%elem_of_app; auto. }
        split; [done|]. exists f'. split; [by right|done].
      * destruct IH as (Hinv' & Hrest).
        { intros f' [?| ->%list_elem_of_singleton]%elem_of_app; auto. }
        split; [done|]. intros f' [->|Hin]%elem_of_cons; auto.
Qed.

Lemma addRefs_nil n x : addRefs [] n x = x.
Proof. unfold addRefs. simpl. rewrite Z.add_0_r. by destruct x. Qed.

Lemma vnodeRefStep_found v e x :
  v !! vnode e = Some x →
  vnodeRefStep v e
  = inr (<[vnode e := {| name := name x; refcount := refcount x + 1 |}]> v).
Proof. intros Hx. unfold vnodeRefStep. by rewrite Hx. Qed.

Lemma vnodeRef_loop es : ∀ v,
  (∀ e, e ∈ es → is_Some (v !! vnode e)) →
  ∃ v', forOf es vnodeRefStep v = inr v'
        ∧ ∀ n, v' !! n = addRefs es n <$> v !! n.
Proof.
  induction es as [|e es IH]; intros v Hdom; simpl.
  - exists v. split; [done|]. intros n.
    destruct (v !! n) as [x|]; simpl; [|done]. by rewrite addRefs_nil.
  - destruct (Hdom e) as [x Hx]; [left|].
    rewrite (vnodeRefStep_found _ _ _ Hx). simpl.
    destruct (IH (<[vnode e := {| name := name x;
                                  refcount := refcount x + 1 |}]> v))
      as (v' & Hloop & Hv').
    { intros e' Hin. destruct (decide (vnode e = vnode e')) as [->|Hne].
      - rewrite lookup_insert_eq. eauto.
      - rewrite lookup_insert_ne by done. apply Hdom. by right. }
    exists v'. split; [done|]. intros n. rewrite (Hv' n).
    destruct (decide (vnode e = n)) as [<-|Hne].
    + rewrite lookup_insert_eq, Hx. simpl. f_equal.
      unfold addRefs. simpl. rewrite filter_cons_True by done. simpl.
      f_equal. lia.
    + rewrite lookup_insert_ne by done.
      destruct (v !! n) as [y|]; simpl; [|done]. f_equal.
      unfold addRefs. by rewrite filter_cons_False by done.
Qed.

(** populateVnodeTable, on the table populateOpenFileTable built from the
    same records: it throws a DebugDataError when the vnode name of a
    record is an inherited key, and returns otherwise, with an entry for
    every vnode name of a record, counted by the open-file entries that
    name it. *)
Lemma populateVnodeTable_spec l t :
  openInv l t →
  match populateVnodeTable l t with
  | inr v =>
      (∀ f, f ∈ l → ¬ Js.inherited (vnodeName f))
      ∧ ∀ n, v !! n = if decide (n ∈ vnodeName <$> l)
                      then Some {| name := n;
                                   refcount := Z.of_nat (openFilesNaming n t) |}
                      else None
  | inl exc =>
      (∃ message, exc = DebugDataError message)
      ∧ ∃ f, f ∈ l ∧ Js.inherited (vnodeName f)
  end.
Proof.
  intros Hopen. unfold populateVnodeTable.
  pose proof (vnode_loop l [] ∅ vnodeInv_nil) as Hloop. simpl in Hloop.
  destruct (forOf l vnodeStep ∅) as [exc|v1]; simpl.
  { apply Hloop. intros f []%elem_of_nil. }
  destruct Hloop as (Hv1 & Hown); [intros f []%elem_of_nil|].
  destruct (vnodeRef_loop (Object_values_str t) v1) as (v & -> & Hv).
  { intros e [[id e'] [-> Hin]]%list_elem_of_fmap. simpl.
    apply elem_of_map_to_list in Hin. specialize (Hopen id).
    rewrite Hin in Hopen. destruct Hopen as (Hpos & _ & Hsame).
    apply countId_pos in Hpos as (f & Hf & Hid).
    specialize (Hsame f Hf Hid). injection Hsame as _ _ Hvn.
    rewrite (Hv1 (vnode e')). rewrite decide_True; [eauto|].
    rewrite <- Hvn. apply list_elem_of_fmap. eauto. }
  split; [done|]. intros n. rewrite (Hv n), (Hv1 n).
  destruct (decide _); simpl; [|done].
  unfold addRefs, openFilesNaming, Object_values_str. simpl. by rewrite Z.add_0_l.
Qed.

(** The table populateVnodeTable returns. *)
Lemma populateVnodeTable_returned l t v :
  openInv l t → populateVnodeTable l t = inr v →
  ∀ n, v !! n = if decide (n ∈ vnodeName <$> l)
                then Some {| name := n;
                             refcount := Z.of_nat (openFilesNaming n t) |}
                else None.
Proof.
  intros Hopen Hv. pose proof (populateVnodeTable_spec l t Hopen) as Hspec.
  rewrite Hv in Hspec. apply Hspec.
Qed.

End Vnodes.

Section CleanContainerData.

Implicit Types (raw : RawContainerInfo) (proc : RawProcessInfo)
  (info : ContainerInfo) (id : string).

(** cleanContainerData returns exactly on a namespace that has an init
    process and no conflicting records, and what it returns is determined
    by the two loops above. *)
Lemma cleanContainerData_returns raw g info :
  cleanContainerData raw = inr (g, info) →
  (∃ init, raw !! 1 = Some init ∧ g = globalPID init)
  ∧ processes info = populateProcessTable (exposedProcesses raw)
  ∧ populateOpenFileTable (exposedFiles raw) = inr (openFiles info)
  ∧ populateVnodeTable (exposedFiles raw) (openFiles info) = inr (vnodes info).
Proof.
  unfold cleanContainerData. destruct (raw !! 1) as [init|]; [|done].
  destruct (populateOpenFileTable (exposedFiles raw)) as [?|t] eqn:Ht;
    [done|]. simpl.
  destruct (populateVnodeTable (exposedFiles raw) t) as [?|v] eqn:Hv;
    [done|]. simpl.
  intros [= <- <-]. simpl. split_and!; eauto.
Qed.

Lemma elem_of_inheritedKeys raw :
  inheritedKeys raw
  ↔ ∃ f, f ∈ exposedFiles raw
         ∧ (Js.inherited (openFileID f) ∨ Js.inherited (vnodeName f)).
Proof. unfold inheritedKeys. apply Exists_exists. Qed.

Lemma cleanContainerData_wellFormed raw init :
  raw !! 1 = Some init → ¬ conflictingRecords raw → ¬ inheritedKeys raw →
  ∃ info, cleanContainerData raw = inr (globalPID init, info).
Proof.
  intros Hinit Hok Hown. unfold cleanContainerData. rewrite Hinit.
  pose proof (populateOpenFileTable_spec (exposedFiles raw)) as Hopen.
  destruct (populateOpenFileTable (exposedFiles raw)) as [exc|t].
  { destruct Hopen as (_ & [(f1 & f2 & ? & ? & ?)|(f & ? & ?)]).
    - destruct Hok. by exists f1, f2.
    - destruct Hown. apply elem_of_inheritedKeys. eauto. }
  simpl. pose proof (populateVnodeTable_spec _ _ Hopen) as Hvnodes.
  destruct (populateVnodeTable (exposedFiles raw) t) as [exc|v].
  { destruct Hvnodes as (_ & f & ? & ?).
    destruct Hown. apply elem_of_inheritedKeys. eauto. }
  simpl. eauto.
Qed.

Lemma cleanContainerData_exn raw exc :
  cleanContainerData raw = inl exc → ∃ message, exc = DebugDataError message.
Proof.
  unfold cleanContainerData. destruct (raw !! 1) as [init|].
  2: { intros [= <-]. eauto. }
  pose proof (populateOpenFileTable_spec (exposedFiles raw)) as Hopen.
  destruct (populateOpenFileTable (exposedFiles raw)) as [exc'|t]; simpl.
  - intros [= <-]. apply Hopen.
  - pose proof (populateVnodeTable_spec _ _ Hopen) as Hvnodes.
    destruct (populateVnodeTable (exposedFiles raw) t) as [exc'|v]; simpl.
    + intros [= <-]. apply Hvnodes.
    + done.
Qed.

Lemma cleanContainerData_throws raw :
  raw !! 1 = None ∨ conflictingRecords raw ∨ inheritedKeys raw →
  ∃ message, cleanContainerData raw = inl (DebugDataError message).
Proof.
  intros Hbad.
  destruct (cleanContainerData raw) as [exc|[g info]] eqn:Hclean.
  { destruct (cleanContainerData_exn _ _ Hclean) as [message ->]. eauto. }
  exfalso. revert Hclean. unfold cleanContainerData.
  destruct (raw !! 1) as [init|]; [|done].
  pose proof (populateOpenFileTable_spec (exposedFiles raw)) as Hopen.
  pose proof (populateOpenFileTable_own (exposedFiles raw)) as Hown.
  destruct (populateOpenFileTable (exposedFiles raw)) as [exc|t]; [done|].
  simpl. pose proof (populateVnodeTable_spec _ _ Hopen) as Hvnodes.
  destruct (populateVnodeTable (exposedFiles raw) t) as [exc|v]; [done|].
  intros _. destruct Hbad as [|[Hconflict|Hkeys]]; [done| |].
  - destruct Hconflict as (f1 & f2 & H1 & H2 & Hc).
    by destruct (openInv_no_conflict _ _ _ _ Hopen H1 H2).
  - apply elem_of_inheritedKeys in Hkeys as (f & Hin & [Hf|Hf]).
    + by apply (Hown t eq_refl f).
    + by apply (proj1 Hvnodes f).
Qed.

End CleanContainerData.

Section Refcounts.

Implicit Types (raw : RawContainerInfo) (proc : RawProcessInfo)
  (info : ContainerInfo) (id : string) (l : list RawFileInfo).

Lemma foldl_insertFd_other l : ∀ fds k,
  k ∉ fd <$> l → foldl insertFd fds l !! k = fds !! k.
Proof.
  induction l as [|f l IH]; intros fds k Hk; simpl; [done|].
  rewrite fmap_cons in Hk. apply not_elem_of_cons in Hk as [Hne Hk].
  rewrite IH by done. unfold insertFd. by rewrite lookup_insert_ne.
Qed.

Lemma foldl_insertFd_found l : ∀ fds f,
  NoDup (fd <$> l) → f ∈ l →
  foldl insertFd fds l !! fd f
  = Some {| file := openFileID f; fdCloseOnExec := closeOnExec f |}.
Proof.
  induction l as [|f' l IH]; intros fds f Hnodup Hin; simpl.
  { by apply elem_of_nil in Hin. }
  rewrite fmap_cons in Hnodup. apply NoDup_cons in Hnodup as [Hfresh Hnodup].
  apply elem_of_cons in Hin as [->|Hin].
  - rewrite foldl_insertFd_other by done. unfold insertFd.
    by rewrite lookup_insert_eq.
  - by apply IH.
Qed.

(** When the file records are stored under their descriptor number, the
    descriptor table has one entry per record, under the same key. *)
Lemma fdTable_keyed proc :
  map_Forall (fun k f => fd f = k) (files proc) →
  fdTable proc
  = (fun f => {| file := openFileID f; fdCloseOnExec := closeOnExec f |})
      <$> files proc.
Proof.
  intros Hkeyed. apply map_eq. intros k. rewrite lookup_fmap.
  unfold fdTable.
  assert (fd <$> Object_values (files proc) = (Object_entries (files proc)).*1)
    as Hkeys.
  { unfold Object_values. rewrite <- list_fmap_compose.
    apply list_fmap_ext. intros i [k' f] Hin. simpl.
    apply list_elem_of_lookup_2, elem_of_Object_entries in Hin.
    by apply Hkeyed in Hin. }
  destruct (files proc !! k) as [f|] eqn:Hk; simpl.
  - rewrite <- (Hkeyed k f Hk). apply foldl_insertFd_found.
    + rewrite Hkeys. apply NoDup_Object_entries_keys.
    + apply elem_of_Object_values. eauto.
  - rewrite foldl_insertFd_other; [apply lookup_empty|].
    rewrite Hkeys. intros [[k' f] [Hk' Hin]]%list_elem_of_fmap.
    simpl in Hk'. subst k'. apply elem_of_Object_entries in Hin. congruence.
Qed.

Lemma length_filter_fmap {A B} (g : A → B) (P : B → Prop)
    `{∀ y, Decision (P y)} (l : list A) :
  length (filter P (g <$> l)) = length (filter (fun x => P (g x)) l).
Proof.
  induction l as [|x l IH]; [done|]. rewrite fmap_cons, !filter_cons.
  destruct (decide (P (g x))); simpl; by rewrite IH.
Qed.

Lemma countId_perm id l1 l2 : l1 ≡ₚ l2 → countId id l1 = countId id l2.
Proof. intros Hperm. unfold countId. by rewrite Hperm. Qed.

Lemma elem_of_concat {A} (x : A) (xss : list (list A)) :
  x ∈ concat xss ↔ ∃ xs, xs ∈ xss ∧ x ∈ xs.
Proof.
  induction xss as [|xs xss IH]; simpl.
  - split; [by intros ?%elem_of_nil | by intros (? & ?%elem_of_nil & _)].
  - rewrite elem_of_app, IH. split.
    + intros [Hx|(xs' & Hxs' & Hx)]; [exists xs | exists xs'];
        (split; [|done]); [left | by right].
    + intros (xs' & [->|Hxs']%elem_of_cons & Hx); [by left | right; eauto].
Qed.

Lemma countId_concat id (ls : list (list RawFileInfo)) :
  countId id (concat ls) = sum_list (countId id <$> ls).
Proof.
  induction ls as [|l ls IH]; simpl; [done|].
  by rewrite countId_app, IH.
Qed.

Lemma descriptorsNaming_keyed id proc p :
  map_Forall (fun k f => fd f = k) (files proc) →
  fds p = fdTable proc →
  descriptorsNaming id p = countId id (Object_values (files proc)).
Proof.
  intros Hkeyed Hfds. unfold descriptorsNaming.
  rewrite Hfds, fdTable_keyed by done.
  rewrite map_to_list_fmap, <- list_fmap_compose.
  rewrite (countId_perm id _ _ (Object_values_perm (files proc))).
  unfold countId.
  by rewrite !length_filter_fmap.
Qed.

Lemma descriptorRefs_exposed id raw :
  filesKeyedByFd raw →
  descriptorRefs id (populateProcessTable (exposedProcesses raw))
  = countId id (exposedFiles raw).
Proof.
  intros Hkeyed. unfold descriptorRefs, exposedFiles, populateProcessTable.
  rewrite countId_concat. f_equal.
  rewrite <- !list_fmap_compose. apply list_fmap_ext. intros i proc Hin. simpl.
  apply descriptorsNaming_keyed; [|done].
  apply list_elem_of_lookup_2, list_elem_of_filter in Hin as [_ Hin].
  apply elem_of_Object_values in Hin as [k Hk].
  by apply (Hkeyed k proc).
Qed.

(** loadRawProcessInfo keeps the file records under their descriptor
    number. *)
Lemma storeFile_keyed proc f :
  map_Forall (fun k f => fd f = k) (files proc) →
  map_Forall (fun k f => fd f = k) (files (storeFile proc f)).
Proof. intros Hkeyed. simpl. by apply map_Forall_insert_2. Qed.

End Refcounts.

Import Samples.

Section Namespaces.

Implicit Types (raw : RawContainerInfo) (info : ContainerInfo)
  (namespaces before after : RawInfoByNamespace)
  (containers : CleanedInfoByNamespace).

(** C1: in the ContainerInfo of a namespace that reconstructs, the reference
    count of every open-file entry is the number of descriptor-table entries
    of the exposed processes that name it, and the reference count of every
    vnode entry is the number of open-file entries that name it.  The file
    records are stored under their descriptor number, as loadRawProcessInfo
    stores them. *)
Theorem reconstructed_refcounts raw g info :
  filesKeyedByFd raw →
  cleanContainerData raw = inr (g, info) →
  (∀ id e, openFiles info !! id = Some e →
           fileRefcount e = Z.of_nat (descriptorRefs id (processes info)))
  ∧ (∀ n v, vnodes info !! n = Some v →
            refcount v = Z.of_nat (openFilesNaming n (openFiles info))).
Proof.
  intros Hkeyed (_ & Hprocs & Hopen & Hvnodes)%cleanContainerData_returns.
  pose proof (populateOpenFileTable_spec (exposedFiles raw)) as Hinv.
  rewrite Hopen in Hinv. split.
  - intros id e He. rewrite Hprocs, descriptorRefs_exposed by done.
    specialize (Hinv id). rewrite He in Hinv. by destruct Hinv as (_ & ? & _).
  - intros n v Hv.
    pose proof (populateVnodeTable_returned _ _ _ Hinv Hvnodes) as Hspec.
    rewrite (Hspec n) in Hv. destruct (decide _); [|done].
    by injection Hv as <-.
Qed.

(** Every reference of a cleaned namespace has its entry. *)
Lemma cleaned_references_resolve raw g info :
  filesKeyedByFd raw →
  cleanContainerData raw = inr (g, info) →
  (∀ p k d, p ∈ processes info → fds p !! k = Some d →
            is_Some (openFiles info !! file d))
  ∧ (∀ id e, openFiles info !! id = Some e →
             is_Some (vnodes info !! vnode e)).
Proof.
  intros Hkeyed (_ & Hprocs & Hopen & Hvnodes)%cleanContainerData_returns.
  pose proof (populateOpenFileTable_spec (exposedFiles raw)) as Hinv.
  rewrite Hopen in Hinv. split.
  - intros p k d Hp Hd. rewrite Hprocs in Hp.
    apply list_elem_of_fmap in Hp as [proc [-> Hproc]]. simpl in Hd.
    assert (map_Forall (fun k f => fd f = k) (files proc)) as Hk.
    { apply list_elem_of_filter in Hproc as [_ Hin].
      apply elem_of_Object_values in Hin as [k' Hk']. by apply (Hkeyed k'). }
    rewrite fdTable_keyed, lookup_fmap in Hd by done.
    destruct (files proc !! k) as [f|] eqn:Hf; [|done].
    injection Hd as <-. simpl.
    assert (f ∈ exposedFiles raw) as Hin.
    { unfold exposedFiles. apply elem_of_concat.
      exists (Object_values (files proc)). split.
      - apply list_elem_of_fmap. eauto.
      - apply elem_of_Object_values. eauto. }
    specialize (Hinv (openFileID f)).
    destruct (openFiles info !! openFileID f); [eauto|].
    assert (0 < countId (openFileID f) (exposedFiles raw))%nat; [|lia].
    apply countId_pos. eauto.
  - intros id e He.
    pose proof (populateVnodeTable_returned _ _ _ Hinv Hvnodes) as Hspec.
    specialize (Hinv id). rewrite He in Hinv.
    destruct Hinv as (Hpos & _ & Hsame).
    apply countId_pos in Hpos as (f & Hf & Hid).
    specialize (Hsame f Hf Hid). injection Hsame as _ _ Hvn.
    rewrite (Hspec (vnode e)), decide_True; [eauto|].
    rewrite <- Hvn. apply list_elem_of_fmap. eauto.
Qed.

(** X9: the references between the three tables resolve: the open file of
    every descriptor is in the open-file table, and the vnode of every
    open file is in the vnode table. *)
Lemma reconstructed_references_resolve raw g info :
  filesKeyedByFd raw →
  cleanContainerData raw = inr (g, info) →
  (∀ p k d, p ∈ processes info → fds p !! k = Some d →
            is_Some (openFiles info !! file d))
  ∧ (∀ id e, openFiles info !! id = Some e →
             is_Some (vnodes info !! vnode e)).
Proof. exact (cleaned_references_resolve raw g info). Qed.

(** The parent and the child of [forked] share two open files: each is one
    entry with count 2; the pipe is one vnode named by two open files. *)
Lemma reconstructed_refcounts_forked :
  cleanContainerData forked = inr (4000, forkedInfo)
  ∧ fileRefcount <$> openFiles forkedInfo !! "pipe-w" = Some 2
  ∧ refcount <$> vnodes forkedInfo !! "pipe:[116131]" = Some 2
  ∧ (∀ id e, openFiles forkedInfo !! id = Some e →
             fileRefcount e = Z.of_nat (descriptorRefs id (processes forkedInfo)))
  ∧ (∀ n v, vnodes forkedInfo !! n = Some v →
            refcount v = Z.of_nat (openFilesNaming n (openFiles forkedInfo))).
Proof.
  split; [vm_compute; reflexivity|].
  split; [vm_compute; reflexivity|].
  split; [vm_compute; reflexivity|].
  apply (reconstructed_refcounts forked 4000 forkedInfo).
  - apply (bool_decide_unpack _). vm_compute. exact I.
  - vm_compute. reflexivity.
Defined.

Lemma filter_fmap_comm {A B} (g : A → B) (P : B → Prop)
    `{∀ y, Decision (P y)} (l : list A) :
  filter P (g <$> l) = g <$> filter (fun x => P (g x)) l.
Proof.
  induction l as [|x l IH]; [done|]. rewrite fmap_cons, !filter_cons.
  destruct (decide (P (g x))); simpl; by rewrite IH.
Qed.

Lemma exposedProcesses_erase raw :
  exposedProcesses (eraseGlobalPID <$> raw)
  = eraseGlobalPID <$> exposedProcesses raw.
Proof.
  unfold exposedProcesses. rewrite Object_values_fmap.
  by rewrite filter_fmap_comm.
Qed.

Lemma exposedFiles_erase raw :
  exposedFiles (eraseGlobalPID <$> raw) = exposedFiles raw.
Proof.
  unfold exposedFiles. rewrite exposedProcesses_erase.
  f_equal. rewrite <- !list_fmap_compose. by apply list_fmap_ext.
Qed.

(** The tables of a namespace are computed from the raw data with the
    global pids blanked. *)
Lemma cleanContainerData_erase raw g info :
  cleanContainerData raw = inr (g, info) →
  cleanContainerData (eraseGlobalPID <$> raw) = inr (0, info).
Proof.
  unfold cleanContainerData.
  rewrite lookup_fmap, exposedFiles_erase, exposedProcesses_erase.
  destruct (raw !! 1) as [init|]; [|done]. simpl.
  destruct (populateOpenFileTable (exposedFiles raw)) as [?|t]; [done|]. simpl.
  destruct (populateVnodeTable (exposedFiles raw) t) as [?|v]; [done|]. simpl.
  intros [= <- <-]. do 3 f_equal.
  unfold populateProcessTable. rewrite <- !list_fmap_compose.
  by apply list_fmap_ext.
Qed.

Lemma cleanContainerData_unerase raw info :
  cleanContainerData (eraseGlobalPID <$> raw) = inr (0, info) →
  ∃ g, cleanContainerData raw = inr (g, info).
Proof.
  unfold cleanContainerData.
  rewrite lookup_fmap, exposedFiles_erase, exposedProcesses_erase.
  destruct (raw !! 1) as [init|]; [|done]. simpl.
  destruct (populateOpenFileTable (exposedFiles raw)) as [?|t]; [done|]. simpl.
  destruct (populateVnodeTable (exposedFiles raw) t) as [?|v]; [done|]. simpl.
  intros [= <-]. eexists. do 3 f_equal.
  unfold populateProcessTable. rewrite <- !list_fmap_compose.
  by apply list_fmap_ext.
Qed.

(** C5: for a namespace that reconstructs, every exposed process has a
    container-relative pid greater than 1; the snapshot is stored under the
    global pid of the process held under container pid 1; and the
    ContainerInfo holds no global pid: a namespace that differs in its
    global pids only gives the same ContainerInfo. *)
Theorem reconstructed_exposes_no_global_pid raw g info :
  cleanContainerData raw = inr (g, info) →
  (∀ p, p ∈ processes info →
        1 < pid p
        ∧ ∃ proc, proc ∈ Object_values raw
                  ∧ pid p = containerPID proc ∧ ppid p = containerPPID proc
                  ∧ pgid p = containerPGID proc)
  ∧ (∃ init, raw !! 1 = Some init ∧ g = globalPID init)
  ∧ (∀ namespaceID, reconstructTables [(namespaceID, raw)] = {[ g := info ]})
  ∧ (∀ raw', eraseGlobalPID <$> raw' = eraseGlobalPID <$> raw →
             ∃ g', cleanContainerData raw' = inr (g', info)).
Proof.
  intros Hclean.
  destruct (cleanContainerData_returns _ _ _ Hclean) as (Hinit & Hprocs & _).
  split_and!.
  - intros p. rewrite Hprocs. unfold populateProcessTable.
    intros [proc [-> Hin]]%list_elem_of_fmap. simpl.
    apply list_elem_of_filter in Hin as [? ?]. eauto 10.
  - done.
  - intros namespaceID. unfold reconstructTables. simpl.
    unfold reconstructStep. simpl. by rewrite Hclean.
  - intros raw' Heq. apply cleanContainerData_unerase.
    rewrite Heq. by apply (cleanContainerData_erase raw g).
Qed.

(** The properties of C5 on [forked], stored under global pid 4000. *)
Lemma reconstructed_exposes_no_global_pid_forked :
  (∀ p, p ∈ processes forkedInfo →
        1 < pid p
        ∧ ∃ proc, proc ∈ Object_values forked
                  ∧ pid p = containerPID proc ∧ ppid p = containerPPID proc
                  ∧ pgid p = containerPGID proc)
  ∧ (∃ init, forked !! 1 = Some init ∧ 4000 = globalPID init)
  ∧ (∀ namespaceID,
       reconstructTables [(namespaceID, forked)] = {[ 4000 := forkedInfo ]})
  ∧ (∀ raw', eraseGlobalPID <$> raw' = eraseGlobalPID <$> forked →
             ∃ g', cleanContainerData raw' = inr (g', forkedInfo)).
Proof.
  apply (reconstructed_exposes_no_global_pid forked 4000 forkedInfo).
  vm_compute. reflexivity.
Defined.

(** The same processes under other global pids: the same tables, stored
    under the other global pid of the init process. *)
Example forkedElsewhere_same_info :
  cleanContainerData forkedElsewhere = inr (977, forkedInfo).
Proof. vm_compute. reflexivity. Qed.

Lemma conflictingRecords_throws raw :
  ¬ inheritedKeys raw →
  conflictingRecords raw ↔ throws (populateOpenFileTable (exposedFiles raw)).
Proof.
  intros Hown. rewrite populateOpenFileTable_throws. split; [by left|].
  intros [?|(f & Hin & Hf)]; [done|].
  destruct Hown. apply elem_of_inheritedKeys. eauto.
Qed.

Lemma reconstructStep_lookup containers (ns : string * RawContainerInfo)
    g info :
  (∀ info', cleanContainerData ns.2 = inr (g, info') → info' = info) →
  containers !! g = Some info →
  reconstructStep containers ns !! g = Some info.
Proof.
  intros Hsame Hg. unfold reconstructStep.
  destruct (cleanContainerData ns.2) as [?|[g' info']]; [done|].
  destruct (decide (g' = g)) as [->|Hne].
  - rewrite lookup_insert_eq. f_equal. by apply Hsame.
  - by rewrite lookup_insert_ne.
Qed.

(** A namespace that reconstructs is in the result under its global pid,
    unless another namespace of the input is stored under the same global
    pid with other tables. *)
Lemma reconstruct_loop_lookup namespaces : ∀ containers g info,
  (∀ ns info', ns ∈ namespaces →
     cleanContainerData ns.2 = inr (g, info') → info' = info) →
  containers !! g = Some info
  ∨ (∃ ns, ns ∈ namespaces ∧ cleanContainerData ns.2 = inr (g, info)) →
  foldl reconstructStep containers namespaces !! g = Some info.
Proof.
  induction namespaces as [|ns namespaces IH];
    intros containers g info Hsame Hfound; simpl.
  { destruct Hfound as [?|(ns & []%elem_of_nil & _)]. done. }
  apply IH.
  { intros ns' info' Hin. apply Hsame. by right. }
  destruct Hfound as [Hg|(ns' & [->|Hin]%elem_of_cons & Hclean)].
  - left. apply reconstructStep_lookup; [|done].
    intros info'. apply Hsame. left.
  - left. unfold reconstructStep. rewrite Hclean. apply lookup_insert_eq.
  - right. eauto.
Qed.

(** C4 (as the code has it): a namespace that has no process under
    container pid 1, or in which two file records of exposed processes
    (container pid above 1) carry the same open-file id with differing
    offset, flags or vnode, makes cleanContainerData throw a DebugDataError;
    reconstructTables catches and logs it, and its result is the result for
    the input without that namespace.  Every other namespace of the input
    that has an init process, no such conflict, and no file record of an
    exposed process whose open-file id or vnode name is a key every object
    inherits ([Js.prototypeKeys]), is in the result, under the global pid of
    its init process, when no further namespace of the input has an init
    process with that global pid. *)
Theorem reconstructTables_isolates_failure before after
    (namespaceID : string) raw :
  raw !! 1 = None ∨ conflictingRecords raw →
  let input := before ++ (namespaceID, raw) :: after in
  (∃ message, cleanContainerData raw = inl (DebugDataError message))
  ∧ reconstructTables input = reconstructTables (before ++ after)
  ∧ (∃ exc, reconstructErrors input
            = reconstructErrors before
              ++ (namespaceID, exc) :: reconstructErrors after)
  ∧ (∀ (other : string * RawContainerInfo) init,
       other ∈ before ++ after →
       other.2 !! 1 = Some init →
       ¬ conflictingRecords other.2 →
       ¬ inheritedKeys other.2 →
       (∀ ns : string * RawContainerInfo, ns ∈ before ++ after →
          initGlobalPID ns.2 = Some (globalPID init) → ns.2 = other.2) →
       ∃ info, cleanContainerData other.2 = inr (globalPID init, info)
               ∧ reconstructTables input !! globalPID init = Some info).
Proof.
  intros Hbad input.
  destruct (cleanContainerData_throws raw) as [message Hthrows].
  { destruct Hbad; auto. }
  assert (reconstructTables input = reconstructTables (before ++ after))
    as Hsame.
  { unfold reconstructTables, input. rewrite !foldl_app. simpl.
    unfold reconstructStep at 2. simpl. by rewrite Hthrows. }
  split_and!.
  - eauto.
  - done.
  - exists (DebugDataError message). unfold reconstructErrors, input.
    rewrite omap_app. simpl. by rewrite Hthrows.
  - intros other init Hin Hinit Hok Hown Hsole.
    destruct (cleanContainerData_wellFormed _ _ Hinit Hok Hown)
      as [info Hclean].
    exists info. split; [done|]. rewrite Hsame.
    apply reconstruct_loop_lookup; [|right; eauto].
    intros ns info' Hns Hclean'.
    destruct (cleanContainerData_returns _ _ _ Hclean')
      as ((init' & Hinit' & Hg) & _).
    assert (ns.2 = other.2) as Heq.
    { apply Hsole; [done|]. unfold initGlobalPID. rewrite Hinit'. simpl.
      by rewrite Hg. }
    rewrite Heq in Hclean'. congruence.
Qed.

(** [disagreeing] and [noInit] are dropped, and [forked], polled with
    them, is in the result. *)
Lemma reconstructTables_isolates_failure_sample :
  reconstructTables [("c", noInit); ("a", disagreeing); ("b", forked)]
  = reconstructTables [("c", noInit); ("b", forked)]
  ∧ ∃ info, cleanContainerData forked = inr (4000, info)
            ∧ reconstructTables
                [("c", noInit); ("a", disagreeing); ("b", forked)] !! 4000
              = Some info.
Proof.
  assert (¬ inheritedKeys disagreeing) as Hown'.
  { apply (bool_decide_unpack _). vm_compute. exact I. }
  assert (¬ inheritedKeys forked) as Hown.
  { apply (bool_decide_unpack _). vm_compute. exact I. }
  assert (conflictingRecords disagreeing) as Hbad.
  { apply (conflictingRecords_throws _ Hown'). vm_compute. exact I. }
  assert (¬ conflictingRecords forked) as Hok.
  { rewrite (conflictingRecords_throws _ Hown). vm_compute. exact id. }
  destruct (reconstructTables_isolates_failure
              [("c", noInit)] [("b", forked)] "a" disagreeing
              (or_intror Hbad))
    as (_ & Hsame & _ & Hothers).
  split; [exact Hsame|].
  refine (Hothers ("b", forked) forkedInit _ _ Hok Hown _).
  - vm_compute. right. left.
  - vm_compute. reflexivity.
  - intros ns [Hns|Hns]%elem_of_app;
      apply list_elem_of_singleton in Hns; subst ns.
    + vm_compute. discriminate.
    + reflexivity.
Defined.

(** C4 as stated fails: in [initDisagrees] two file records carry the open
    file "tty" with different offsets, one of them held by the init
    process; no DebugDataError is thrown and the namespace is in the
    result. *)
Lemma reconstructTables_keeps_init_conflict :
  (∃ f1 f2, f1 ∈ allFiles initDisagrees ∧ f2 ∈ allFiles initDisagrees
            ∧ conflicting f1 f2)
  ∧ initDisagrees !! 1 ≠ None
  ∧ ¬ throws (cleanContainerData initDisagrees)
  ∧ reconstructErrors [("d", initDisagrees)] = []
  ∧ is_Some (reconstructTables [("d", initDisagrees)] !! 7000).
Proof.
  split_and!.
  - exists (rawFile 0 "tty" 512 "100002" "/dev/pts/4"),
           (rawFile 0 "tty" 0 "100002" "/dev/pts/4").
    split_and!.
    + vm_compute. left.
    + vm_compute. right. left.
    + split; [reflexivity|]. vm_compute. discriminate.
  - vm_compute. discriminate.
  - vm_compute. exact id.
  - vm_compute. reflexivity.
  - vm_compute. eauto.
Qed.

(** The tables are plain objects: an open-file id or a vnode name that is
    a key every object inherits is taken for an entry that is already
    there.  [constructorNamed] and [toStringNamed] have an init process
    and a single file record, which conflicts with no other, and both fail
    with the error of a conflict. *)
Example cleanContainerData_inherited_key :
  is_Some (constructorNamed !! 1) ∧ ¬ conflictingRecords constructorNamed
  ∧ cleanContainerData constructorNamed
    = inl (DebugDataError
             "There is already an open file constructor with different info compared to this open file entry!")
  ∧ is_Some (toStringNamed !! 1) ∧ ¬ conflictingRecords toStringNamed
  ∧ cleanContainerData toStringNamed
    = inl (DebugDataError
             "There is already a vnode toString with different info compared to this vnode!")
  ∧ reconstructTables [("e", constructorNamed); ("f", toStringNamed)] = ∅.
Proof.
  assert (∀ raw f, exposedFiles raw = [f] → ¬ conflictingRecords raw)
    as Hsingle.
  { intros raw f Hf (f1 & f2 & H1 & H2 & _ & Hne). rewrite Hf in H1, H2.
    apply list_elem_of_singleton in H1, H2. by subst. }
  split_and!.
  - vm_compute. eauto.
  - apply (Hsingle _ (rawFile 3 "constructor" 0 "100002" "/tmp/out")).
    vm_compute. reflexivity.
  - vm_compute. reflexivity.
  - vm_compute. eauto.
  - apply (Hsingle _ (rawFile 3 "file-9" 0 "100002" "toString")).
    vm_compute. reflexivity.
  - vm_compute. reflexivity.
  - vm_compute. reflexivity.
Qed.

End Namespaces.

(** ** Strings *)

Section Strings.

Implicit Types (s t : string) (c : ascii).

Lemma app_cons c s t : String c s +:+ t = String c (s +:+ t).
Proof. reflexivity. Qed.

Lemma app_empty_r s : s +:+ "" = s.
Proof. induction s as [|c s IH]; [done|]. by rewrite app_cons, IH. Qed.

Lemma app_assoc' s t u : s +:+ (t +:+ u) = (s +:+ t) +:+ u.
Proof. induction s as [|c s IH]; [done|]. by rewrite !app_cons, IH. Qed.

Lemma app_nonempty_r s t : t ≠ "" → s +:+ t ≠ "".
Proof. destruct s; [done|]. by rewrite app_cons. Qed.

Lemma trimEnd_cons c s :
  Js.trimEnd s ≠ "" → Js.trimEnd (String c s) = String c (Js.trimEnd s).
Proof. simpl. by destruct (Js.trimEnd s). Qed.

(** A suffix that [trimEnd] keeps protects what stands before it. *)
Lemma trimEnd_app_kept s t :
  t ≠ "" → Js.trimEnd t = t → Js.trimEnd (s +:+ t) = s +:+ t.
Proof.
  intros Hne Ht. induction s as [|c s IH]; [done|].
  rewrite app_cons, trimEnd_cons; rewrite IH; [done|].
  by apply app_nonempty_r.
Qed.

Lemma trimEnd_app_space s : Js.trimEnd (s +:+ " ") = Js.trimEnd s.
Proof.
  induction s as [|c s IH]; [done|]. rewrite app_cons. simpl. by rewrite IH.
Qed.

Lemma isWhiteSpace_lowerChar c :
  Js.isWhiteSpace (Js.lowerChar c) = Js.isWhiteSpace c.
Proof. by destruct c as [[] [] [] [] [] [] [] []]. Qed.

Lemma trimEnd_toLowerCase s :
  Js.trimEnd (Js.toLowerCase s) = Js.toLowerCase (Js.trimEnd s).
Proof.
  induction s as [|c s IH]; [done|]. simpl. rewrite IH.
  destruct (Js.trimEnd s); simpl; [|done].
  rewrite isWhiteSpace_lowerChar. by destruct (Js.isWhiteSpace c).
Qed.

Lemma join_cons sep s (l : list string) :
  l ≠ [] → Js.join sep (s :: l) = s +:+ sep +:+ Js.join sep l.
Proof. by destruct l. Qed.

(** The join of strings that [trimEnd] keeps is kept. *)
Lemma trimEnd_join (l : list string) :
  l ≠ [] → Forall (fun s => s ≠ "" ∧ Js.trimEnd s = s) l →
  Js.join " " l ≠ "" ∧ Js.trimEnd (Js.join " " l) = Js.join " " l.
Proof.
  intros Hne Hall. induction Hall as [|s l [Hs Hts] Hall IH]; [done|].
  destruct l as [|s' l]; [done|].
  destruct IH as [IH1 IH2]; [done|].
  rewrite join_cons by done. split.
  - by apply app_nonempty_r, app_nonempty_r.
  - apply trimEnd_app_kept.
    + by apply app_nonempty_r.
    + by apply trimEnd_app_kept.
Qed.

End Strings.

(** ** getRunParams *)

Import SocketConnection.

Section RunParams.

Variable cfg : Config.
Implicit Types (request : RunEventBody) (s : Session) (p : RunParams).

Lemma langOf_known request :
  langOf cfg request ∈ DEFAULT_VERSION cfg :: SUPPORTED_VERSIONS cfg.
Proof.
  unfold langOf, includes. case_bool_decide; [by right|left].
Qed.

Lemma suppliedCflagsOf_spec request flag :
  flag ∈ suppliedCflagsOf cfg request
  ↔ flag ∈ requestedFlags request ∧ flag ∈ FLAG_WHITELIST cfg.
Proof.
  unfold suppliedCflagsOf, includes. rewrite list_elem_of_filter.
  rewrite bool_decide_eq_true. tauto.
Qed.

(** With tidy constants, [trim] only removes the space that the template
    leaves behind the language when no flag survives. *)
Lemma cflagsOf_composed request :
  tidyConstants cfg → cflagsOf cfg request = composedFlags cfg request.
Proof.
  intros [Hflags Hlangs]. unfold cflagsOf, composedFlags, Js.trim.
  set (low := Js.toLowerCase (langOf cfg request)).
  assert (Js.trimEnd low = low) as Hlow.
  { unfold low. rewrite trimEnd_toLowerCase. f_equal.
    rewrite Forall_forall in Hlangs. apply Hlangs, langOf_known. }
  assert (Js.trimEnd ("-std=" +:+ low) = "-std=" +:+ low) as Hstd.
  { destruct low as [|c low'] eqn:Heq; [done|].
    by apply trimEnd_app_kept. }
  assert (∀ t, Js.trimStart ("-std=" +:+ t) = "-std=" +:+ t) as Hstart by done.
  destruct (suppliedCflagsOf cfg request) as [|flag kept] eqn:Hkept.
  - change (Js.join " " []) with "". simpl Js.join.
    rewrite app_empty_r, (app_assoc' "-std=" low " ").
    by rewrite trimEnd_app_space, Hstd, Hstart.
  - destruct (trimEnd_join (flag :: kept)) as [Hne Hjoin]; [done| |].
    { rewrite <- Hkept. apply Forall_forall. intros x Hx.
      apply suppliedCflagsOf_spec in Hx as [_ Hx].
      rewrite Forall_forall in Hflags. by apply Hflags. }
    rewrite (join_cons " " ("-std=" +:+ low) (flag :: kept)) by done.
    set (joined := Js.join " " (flag :: kept)) in *.
    assert (Js.trimEnd (" " +:+ joined) = " " +:+ joined) as Hsp
      by (by apply trimEnd_app_kept).
    assert (Js.trimEnd (low +:+ " " +:+ joined) = low +:+ " " +:+ joined)
      as Htail.
    { apply trimEnd_app_kept; [|done]. by apply app_nonempty_r. }
    rewrite trimEnd_app_kept; [|by apply app_nonempty_r, app_nonempty_r|done].
    by rewrite Hstart, app_assoc'.
Qed.

Lemma filter_length_all {A} (P : A → Prop) `{∀ x, Decision (P x)}
    (l : list A) :
  length (filter P l) = length l ↔ Forall P l.
Proof.
  induction l as [|x l IH]; [by split|].
  rewrite filter_cons, Forall_cons. destruct (decide (P x)) as [HP|HP]; simpl.
  - rewrite <- IH. split; [intros [=]; by split | intros [_ ->]; done].
  - split; [|tauto]. intros Hlen.
    pose proof (length_filter P l). lia.
Qed.

Lemma flagsLength_requested request :
  flagsArrayOrFalsy request →
  flagsLength request = Some (Z.of_nat (length (requestedFlags request))).
Proof.
  unfold flagsArrayOrFalsy, flagsLength, requestedFlags.
  destruct (flags request) as [requested|truthy len text]; [done|].
  by intros ->.
Qed.

(** For a flags field that is an array or falsy, the warning fires exactly
    when a requested flag is not whitelisted. *)
Lemma flagWarning_spec request :
  flagsArrayOrFalsy request →
  flagWarning cfg request ≠ []
  ↔ ∃ flag, flag ∈ requestedFlags request ∧ flag ∉ FLAG_WHITELIST cfg.
Proof.
  intros Hflags. unfold flagWarning.
  rewrite (flagsLength_requested request Hflags). unfold suppliedCflagsOf.
  destruct (decide (Some _ = Some _)) as [Hlen|Hlen].
  - apply (inj Some), (inj Z.of_nat) in Hlen.
    split; [done|]. intros (flag & Hin & Hnot). exfalso.
    apply filter_length_all in Hlen. rewrite Forall_forall in Hlen.
    apply Hnot. specialize (Hlen flag Hin). unfold includes in Hlen.
    by apply bool_decide_eq_true in Hlen.
  - split; [|done]. intros _.
    assert (¬ Forall (fun flag => includes flag (FLAG_WHITELIST cfg) = true)
              (requestedFlags request)) as Hsome.
    { intros Hall. apply Hlen. f_equal. f_equal.
      by apply filter_length_all. }
    clear Hlen. rename Hsome into Hlen.
    apply not_Forall_Exists in Hlen; [|apply _].
    apply Exists_exists in Hlen as (flag & Hin & Hnot). exists flag.
    split; [done|]. intros Hwl. apply Hnot. unfold includes.
    by apply bool_decide_eq_true.
Qed.

Lemma suppliedFileId_spec request id :
  suppliedFileId request = Some id
  ↔ includeFileId request = Some id ∧ id ≠ "".
Proof.
  unfold suppliedFileId. destruct (includeFileId request) as [id'|].
  - case_decide as Hempty.
    + split; [done|]. intros [[= ->] Hne]. done.
    + split; [intros [= ->]; done|]. by intros [-> _].
  - split; [done|]. by intros [? _].
Qed.

Lemma breakpointsWithoutDebug_spec request :
  negb (debug request)
  && bool_decide (0 < length (default [] (breakpoints request)))%nat = true
  ↔ breakpointsWithoutDebug request.
Proof.
  unfold breakpointsWithoutDebug.
  rewrite andb_true_iff, negb_true_iff, bool_decide_eq_true.
  destruct (default [] (breakpoints request)); simpl.
  - split; intros [? ?]; [lia|done].
  - split; intros [? _]; (split; [done|]); [done|lia].
Qed.

(** The outcome of getRunParams, rule by rule in the order of the source,
    and its trace: the flag warning, then at most the query for the
    include file. *)
Lemma getRunParams_cases request :
  let result := getRunParams cfg request in
  (∃ queried, result.1 = flagWarning cfg request ++ queried
              ∧ Forall (fun e => ∃ id, e = DbGetFileContents id) queried)
  ∧ ((cflagsTooLong cfg request
      ∧ result.2
        = inl (ClientValidationError "Submitted cflags exceeds max length!"))
     ∨ (¬ cflagsTooLong cfg request ∧ codeTooLong cfg request
        ∧ result.2
          = inl (ClientValidationError "Submitted code exceeds max length!"))
     ∨ (¬ cflagsTooLong cfg request ∧ ¬ codeTooLong cfg request
        ∧ argsTooLong cfg request
        ∧ result.2
          = inl (ClientValidationError "Submitted args exceed max length!"))
     ∨ (¬ cflagsTooLong cfg request ∧ ¬ codeTooLong cfg request
        ∧ ¬ argsTooLong cfg request ∧ includeFileMissing cfg request
        ∧ result.2 = inl (ClientValidationError "includeFileId is invalid"))
     ∨ (¬ cflagsTooLong cfg request ∧ ¬ codeTooLong cfg request
        ∧ ¬ argsTooLong cfg request ∧ ¬ includeFileMissing cfg request
        ∧ breakpointsWithoutDebug request
        ∧ result.2
          = inl (ClientValidationError
                   "Breakpoints are specified even though debugging is not enabled"))
     ∨ (¬ cflagsTooLong cfg request ∧ ¬ codeTooLong cfg request
        ∧ ¬ argsTooLong cfg request ∧ ¬ includeFileMissing cfg request
        ∧ ¬ breakpointsWithoutDebug request
        ∧ ∃ p, result.2 = inr p
               ∧ rp_compiler p = compilerOf (langOf cfg request)
               ∧ rp_cflags p = cflagsOf cfg request)).
Proof.
  unfold getRunParams, cflagsTooLong, codeTooLong, argsTooLong.
  destruct (CFLAGS_MAX_LEN cfg <? _) eqn:H1; simpl.
  { apply Z.ltb_lt in H1. split; [exists []; by rewrite app_nil_r|]. by left. }
  apply Z.ltb_ge in H1.
  destruct (CODE_MAX_LEN cfg <? _) eqn:H2; simpl.
  { apply Z.ltb_lt in H2. split; [exists []; by rewrite app_nil_r|].
    right. left. split_and!; [lia|done..]. }
  apply Z.ltb_ge in H2.
  destruct (ARGS_MAX_LEN cfg <? _) eqn:H3; simpl.
  { apply Z.ltb_lt in H3. split; [exists []; by rewrite app_nil_r|].
    right. right. left. split_and!; [lia|lia|done..]. }
  apply Z.ltb_ge in H3.
  destruct (suppliedFileId request) as [id|] eqn:Hid.
  - apply suppliedFileId_spec in Hid as [Hid Hne].
    rewrite (bool_decide_eq_true_2 (is_Some (Some id))) by eauto.
    split.
    { destruct (getFileContents cfg id); simpl;
        [destruct (negb _ && _)|]; simpl;
        (eexists; split; [done|]; repeat constructor; eauto). }
    destruct (getFileContents cfg id) as [data|] eqn:Hdata; simpl.
    + assert (¬ includeFileMissing cfg request) as Hfound.
      { intros (id' & Hid' & _ & Hnone). congruence. }
      destruct (negb _ && _) eqn:Hbp; simpl.
      * apply breakpointsWithoutDebug_spec in Hbp.
        do 4 right. left. split_and!; [lia|lia|lia|done..].
      * do 5 right. split_and!; [lia|lia|lia|done| |eauto].
        rewrite <- breakpointsWithoutDebug_spec. congruence.
    + do 3 right. left. split_and!; [lia|lia|lia| |done]. by exists id.
  - assert (¬ includeFileMissing cfg request) as Hfound.
    { intros (id' & Hid' & Hne & _).
      assert (suppliedFileId request = Some id') as Hs
        by (by apply suppliedFileId_spec).
      congruence. }
    rewrite (bool_decide_eq_false_2 (is_Some None)) by (by intros [? ?]).
    simpl. rewrite app_nil_r.
    split.
    { destruct (negb _ && _); simpl; exists []; by rewrite app_nil_r. }
    destruct (negb _ && _) eqn:Hbp; simpl.
    + apply breakpointsWithoutDebug_spec in Hbp.
      do 4 right. left. split_and!; [lia|lia|lia|done..].
    + do 5 right. split_and!; [lia|lia|lia|done| |eauto].
      rewrite <- breakpointsWithoutDebug_spec. congruence.
Qed.

End RunParams.

Section Validation.

Variable cfg : Config.
Implicit Types (request : RunEventBody) (s : Session) (p : RunParams).

Lemma getRunParams_default_language request :
  language request ∉ SUPPORTED_VERSIONS cfg →
  getRunParams cfg request
  = getRunParams cfg (setLanguage request (DEFAULT_VERSION cfg)).
Proof.
  intros Hnot.
  assert (langOf cfg request
          = langOf cfg (setLanguage request (DEFAULT_VERSION cfg))) as Hlang.
  { unfold langOf, includes. simpl.
    rewrite bool_decide_eq_false_2 by done. by case_bool_decide. }
  unfold getRunParams, cflagsOf. by rewrite Hlang.
Qed.

Lemma compilerOf_gcc lang :
  compilerOf lang = gcc ↔ lang = "C99" ∨ lang = "C11".
Proof.
  unfold compilerOf. simpl.
  destruct (decide ("C99" = lang)) as [<-|H99]; [by split; [left|]|].
  destruct (decide ("C11" = lang)) as [<-|H11]; [by split; [right|]|].
  simpl. split; [done|]. intros [?|?]; congruence.
Qed.

Lemma getRunParams_warning request :
  (∃ text, ConsoleWarn text ∈ (getRunParams cfg request).1)
  ↔ flagWarning cfg request ≠ [].
Proof.
  destruct (getRunParams_cases cfg request) as [(queried & -> & Hq) _].
  rewrite Forall_forall in Hq. split.
  - intros [text [Hw|Hw]%elem_of_app]; [by intros Heq; rewrite Heq in Hw; apply elem_of_nil in Hw|].
    by destruct (Hq _ Hw).
  - unfold flagWarning. case_decide; [done|]. intros _.
    eexists. apply elem_of_app. left. left.
Qed.

Lemma getRunParams_warns request :
  flagsArrayOrFalsy request →
  (∃ text, ConsoleWarn text ∈ (getRunParams cfg request).1)
  ↔ ∃ flag, flag ∈ requestedFlags request ∧ flag ∉ FLAG_WHITELIST cfg.
Proof.
  intros Hflags. rewrite getRunParams_warning. by apply flagWarning_spec.
Qed.

(** A flags field that is no array: the filter runs on the empty array, the
    length test on the value, and the warning fires for every truthy value
    whose length is not 0, with nothing dropped. *)
Lemma getRunParams_warns_no_array request truthy len text :
  flags request = FlagsOther truthy len text →
  suppliedCflagsOf cfg request = []
  ∧ ((∃ warning, ConsoleWarn warning ∈ (getRunParams cfg request).1)
     ↔ truthy = true ∧ len ≠ Some 0).
Proof.
  intros Hflags.
  assert (suppliedCflagsOf cfg request = []) as Hnone.
  { unfold suppliedCflagsOf, requestedFlags. by rewrite Hflags. }
  split; [done|]. rewrite getRunParams_warning.
  unfold flagWarning, flagsLength. rewrite Hnone, Hflags. simpl.
  destruct truthy; case_decide; split; try done; try tauto.
  - by intros [_ ?].
  - by intros [? _].
Qed.

(** C6 (as the code has it): the language never causes a rejection, an
    unsupported one is treated as the default one; the compiler is gcc
    exactly for C99 and C11, g++ otherwise; with constants that hold no
    empty flag and no trailing white space, the flag string is "-std=" and
    the lowercased language, joined by single spaces with exactly the
    requested flags (the elements of the flags field when it is an array,
    none otherwise) that are whitelisted; when the flags field is an array,
    or a falsy value, the warning fires exactly when a requested flag was
    dropped; and the rejection of the flag rule, with its message, is
    thrown exactly when that string is longer than CFLAGS_MAX_LEN. *)
Theorem getRunParams_language_and_flags request :
  tidyConstants cfg →
  (language request ∈ SUPPORTED_VERSIONS cfg →
     langOf cfg request = language request)
  ∧ (language request ∉ SUPPORTED_VERSIONS cfg →
       langOf cfg request = DEFAULT_VERSION cfg
       ∧ getRunParams cfg request
         = getRunParams cfg (setLanguage request (DEFAULT_VERSION cfg)))
  ∧ (compilerOf (langOf cfg request) = gcc
     ↔ langOf cfg request = "C99" ∨ langOf cfg request = "C11")
  ∧ (compilerOf (langOf cfg request) = gpp
     ↔ ¬ (langOf cfg request = "C99" ∨ langOf cfg request = "C11"))
  ∧ (∀ flag, flag ∈ suppliedCflagsOf cfg request
             ↔ flag ∈ requestedFlags request ∧ flag ∈ FLAG_WHITELIST cfg)
  ∧ cflagsOf cfg request = composedFlags cfg request
  ∧ (∀ p, (getRunParams cfg request).2 = inr p →
          rp_compiler p = compilerOf (langOf cfg request)
          ∧ rp_cflags p = composedFlags cfg request)
  ∧ (flagsArrayOrFalsy request →
     ((∃ text, ConsoleWarn text ∈ (getRunParams cfg request).1)
      ↔ ∃ flag, flag ∈ requestedFlags request
                ∧ flag ∉ FLAG_WHITELIST cfg))
  ∧ ((getRunParams cfg request).2
       = inl (ClientValidationError "Submitted cflags exceeds max length!")
     ↔ CFLAGS_MAX_LEN cfg < Js.strlen (composedFlags cfg request)).
Proof.
  intros Htidy.
  pose proof (cflagsOf_composed cfg request Htidy) as Hcomposed.
  split_and!.
  - intros Hin. unfold langOf, includes. by rewrite bool_decide_eq_true_2.
  - intros Hnot. split; [|by apply getRunParams_default_language].
    unfold langOf, includes. by rewrite bool_decide_eq_false_2.
  - apply compilerOf_gcc.
  - rewrite <- compilerOf_gcc. by destruct (compilerOf _).
  - apply suppliedCflagsOf_spec.
  - done.
  - intros p Hp. rewrite <- Hcomposed.
    destruct (getRunParams_cases cfg request) as [_ Hcases].
    destruct Hcases as [[_ H]|[(_&_&H)|[(_&_&_&H)|[(_&_&_&_&H)|
                        [(_&_&_&_&_&H)|(_&_&_&_&_&p'&H&?&?)]]]]];
      rewrite Hp in H; [done..|]. by injection H as <-.
  - apply getRunParams_warns.
  - rewrite <- Hcomposed. fold (cflagsTooLong cfg request).
    destruct (getRunParams_cases cfg request) as [_ Hcases].
    destruct Hcases as [[? H]|[(?&_&H)|[(?&_&_&H)|[(?&_&_&_&H)|
                        [(?&_&_&_&_&H)|(?&_&_&_&_&p'&H&_)]]]]];
      rewrite H; split; done.
Qed.

(** Hanging up on a session without a container: the disconnect handler
    logs, and has nothing to shut down. *)
Lemma socketDisconnect_idle s :
  container s = None →
  socketDisconnect s
  = [ConsoleInfo (logPrefix s +:+ "Client disconnected"); SocketDisconnect].
Proof. intros Hidle. unfold socketDisconnect, onSocketDisconnect. by rewrite Hidle. Qed.

Lemma last_socketDisconnect (effects : list Effect) s :
  last (effects ++ socketDisconnect s) = Some SocketDisconnect.
Proof. unfold socketDisconnect. rewrite app_assoc. apply last_snoc. Qed.

(** C7: getRunParams fails exactly when the flag string, the code or the
    arguments are longer than their maximum, when a supplied include file
    id resolves to no bytes, or when breakpoints come without debug; every
    failure is a ClientValidationError; and startContainer, on a session
    without a container, then leaves the session as it is, constructs no
    container, persists nothing, and ends by disconnecting the socket. *)
Theorem getRunParams_fails_exactly request :
  (throws (getRunParams cfg request).2
   ↔ cflagsTooLong cfg request ∨ codeTooLong cfg request
     ∨ argsTooLong cfg request ∨ includeFileMissing cfg request
     ∨ breakpointsWithoutDebug request)
  ∧ (∀ exc, (getRunParams cfg request).2 = inl exc →
            ∃ message, exc = ClientValidationError message)
  ∧ (∀ s, container s = None → throws (getRunParams cfg request).2 →
          (startContainer cfg request s).1 = s
          ∧ Forall (fun e => ¬ constructsContainer e ∧ ¬ persists e)
                   (startContainer cfg request s).2
          ∧ last (startContainer cfg request s).2 = Some SocketDisconnect).
Proof.
  destruct (getRunParams_cases cfg request) as [(queried & Htrace & Hq) Hcases].
  split_and!.
  - destruct Hcases as [[? H]|[(?&?&H)|[(?&?&?&H)|[(?&?&?&?&H)|
                        [(?&?&?&?&?&H)|(?&?&?&?&?&p&H&_)]]]]];
      rewrite H; simpl; tauto.
  - intros exc Hexc.
    destruct Hcases as [[? H]|[(?&?&H)|[(?&?&?&H)|[(?&?&?&?&H)|
                        [(?&?&?&?&?&H)|(?&?&?&?&?&p&H&_)]]]]];
      rewrite H in Hexc; [| | | | |done]; injection Hexc as <-; eauto.
  - intros s Hidle Hthrows. unfold startContainer. rewrite Hidle.
    destruct (getRunParams cfg request) as [effects [exc|p]]; [|done].
    simpl in *. subst effects. split_and!; [done| |].
    + rewrite (socketDisconnect_idle s Hidle), !Forall_app. split_and!.
      * unfold flagWarning. case_decide; repeat constructor; simpl; tauto.
      * eapply Forall_impl; [exact Hq|]. intros e [id ->]. simpl. tauto.
      * repeat constructor; simpl; tauto.
    + match goal with
      | |- context [?a :: ?b :: socketDisconnect s] =>
          change (a :: b :: socketDisconnect s)
            with ([a; b] ++ socketDisconnect s)
      end.
      rewrite app_assoc. apply last_socketDisconnect.
Qed.

(** A run event that arrives while the session holds a container is
    ignored: the session is unchanged, the held container with it, and the
    only effect is the warning on the console; nothing is validated,
    persisted or emitted. *)
Lemma startContainer_ignored_while_running request s :
  container s ≠ None →
  startContainer cfg request s
  = (s, [ConsoleWarn (logPrefix s +:+ "Got run command even though we "
                      +:+ "already have a container running")])
  ∧ container (startContainer cfg request s).1 = container s
  ∧ Forall (fun e => match e with ConsoleWarn _ => True | _ => False end)
           (startContainer cfg request s).2.
Proof.
  intros Hheld. unfold startContainer.
  destruct (container s) as [c|] eqn:Hc; [|done].
  split_and!; [done|done|]. by repeat constructor.
Qed.

End Validation.

(** C6 as stated fails: validation also rejects a request whose flag
    string is short, here for its code. *)
Lemma getRunParams_rejects_short_flags :
  throws (getRunParams config longRequest).2
  ∧ ¬ CFLAGS_MAX_LEN config < Js.strlen (composedFlags config longRequest).
Proof. split; [exact I|]. vm_compute. discriminate. Qed.

(** The flags sent as the string "-O2": the filter runs on the empty array,
    so that no flag is requested or dropped and the flag string is the
    dialect alone; the length test reads the string, and the warning
    fires. *)
Example getRunParams_warns_for_string :
  requestedFlags stringFlagsRequest = []
  ∧ suppliedCflagsOf config stringFlagsRequest = []
  ∧ cflagsOf config stringFlagsRequest = "-std=c99"
  ∧ (getRunParams config stringFlagsRequest).1
    = [ConsoleWarn "Warning: someone passed non-whitelisted flags! -O2"].
Proof. repeat split; vm_compute; reflexivity. Qed.

(** C99 with two whitelisted flags, under the sample constants. *)
Lemma getRunParams_language_and_flags_sample :
  tidyConstants config
  ∧ cflagsOf config request = composedFlags config request
  ∧ composedFlags config request = "-std=c99 -O2 -Wall".
Proof.
  assert (tidyConstants config) as Htidy
    by (apply (bool_decide_unpack _); exact I).
  split; [exact Htidy|]. split; [|reflexivity].
  apply (getRunParams_language_and_flags config request Htidy).
Defined.

(** The long program is refused for its length, with a
    ClientValidationError, and the idle session hangs up. *)
Lemma getRunParams_fails_exactly_sample :
  codeTooLong config longRequest
  ∧ (getRunParams config longRequest).2
    = inl (ClientValidationError "Submitted code exceeds max length!")
  ∧ (startContainer config longRequest idle).1 = idle
  ∧ last (startContainer config longRequest idle).2 = Some SocketDisconnect.
Proof.
  destruct (getRunParams_fails_exactly config longRequest)
    as (_ & _ & Hstart).
  destruct (Hstart idle eq_refl I) as (Hsame & _ & Hlast).
  split; [vm_compute; reflexivity|]. split; [reflexivity|].
  split; [exact Hsame | exact Hlast].
Defined.

(** A second run request on the running session, valid or not, changes
    nothing. *)
Lemma startContainer_ignored_while_running_sample :
  (startContainer config longRequest running).1 = running
  ∧ (startContainer config request running).1 = running.
Proof.
  assert (container running ≠ None) as Hheld by (vm_compute; discriminate).
  split.
  - destruct (startContainer_ignored_while_running config longRequest running
                Hheld) as (-> & _). reflexivity.
  - destruct (startContainer_ignored_while_running config request running
                Hheld) as (-> & _). reflexivity.
Defined.

(** ** The session handlers *)

Section Handlers.

Implicit Types (s : Session) (c : Container) (e : exn).

Lemma onContainerExit_clears connected data s :
  container (onContainerExit connected data s).1 = None.
Proof. reflexivity. Qed.

(** C9 (as the code has it): the disconnect handler calls [shutdown()]
    once, on the held container, when the session holds one, and not at
    all when it holds none; it leaves the session as it is.  A session that
    holds a container sees exactly one [shutdown()] call, in either order
    of the two events.  When the client disconnects first, the call is that
    of the disconnect handler, and the exit notification that follows, on a
    socket that is no longer connected, adds none.  When the container
    exits first, on a connected socket, the exit handler closes the socket,
    which runs the disconnect handler and its call before the reference is
    cleared; a disconnect handled after that adds none. *)
Theorem onSocketDisconnect_shutdown_calls s :
  (onSocketDisconnect s).1 = s
  ∧ shutdownCalls (onSocketDisconnect s).2
    = match container s with Some _ => 1%nat | None => 0%nat end
  ∧ (∀ c, container s = Some c →
          filter isShutdown (onSocketDisconnect s).2 = [ContainerShutdown c])
  ∧ (∀ c data, container s = Some c →
       filter isShutdown
         ((onSocketDisconnect s).2
          ++ (onContainerExit false data (onSocketDisconnect s).1).2)
       = [ContainerShutdown c])
  ∧ (∀ c data, container s = Some c →
       filter isShutdown (onContainerExit true data s).2
       = [ContainerShutdown c]
       ∧ container (onContainerExit true data s).1 = None
       ∧ shutdownCalls
           ((onContainerExit true data s).2
            ++ (onSocketDisconnect (onContainerExit true data s).1).2)
         = 1%nat).
Proof.
  split_and!.
  - done.
  - unfold onSocketDisconnect, shutdownCalls. by destruct (container s).
  - intros c Hc. unfold onSocketDisconnect. by rewrite Hc.
  - intros c data Hc. unfold onContainerExit, onSocketDisconnect.
    by rewrite Hc.
  - intros c data Hc.
    unfold shutdownCalls, onContainerExit, socketDisconnect,
      onSocketDisconnect.
    by rewrite Hc.
Qed.

(** C2 (as the code has it): a debug handler on a session without a
    container emits one cplaygroundError, "No program is currently
    running.", and does nothing else; when the container call throws a
    DebugStateError it emits a cplaygroundError with the message of the
    error, and keeps the container and the socket; any other exception of
    the container call is caught as well and dropped: nothing is emitted and
    no exception leaves the handler. *)
Theorem makeDebugHandler_outcomes {T} (executeCommand : Command T) data s :
  (container s = None →
     makeDebugHandler executeCommand data s
     = (s, [SocketEmitError "No program is currently running."], None))
  ∧ (∀ c effects message,
       container s = Some c →
       executeCommand data c = (effects, Some (DebugStateError message)) →
       makeDebugHandler executeCommand data s
       = (s, effects ++ [SocketEmitError message], None))
  ∧ (∀ c effects e,
       container s = Some c →
       executeCommand data c = (effects, Some e) →
       (∀ message, e ≠ DebugStateError message) →
       makeDebugHandler executeCommand data s = (s, effects, None))
  ∧ (∀ c effects,
       container s = Some c →
       executeCommand data c = (effects, None) →
       makeDebugHandler executeCommand data s = (s, effects, None)).
Proof.
  unfold makeDebugHandler. split_and!.
  - by intros ->.
  - by intros c effects message -> ->.
  - intros c effects e -> -> Hother. destruct e; try done.
    by destruct (Hother message).
  - by intros c effects -> ->.
Qed.

End Handlers.

(** C9 as stated fails: the shutdown call is not unconditional.  On a
    session that holds no container the disconnect handler makes no
    shutdown call: when the client leaves before any run, and when a run
    request is refused and the session hangs up on the client, which runs
    the disconnect handler. *)
Lemma onSocketDisconnect_without_shutdown :
  (onSocketDisconnect idle).2 = [ConsoleInfo "[s1] Client disconnected"]
  ∧ shutdownCalls (onSocketDisconnect idle).2 = 0%nat
  ∧ (startContainer config longRequest idle).2
    = [ConsoleError "[s1] Failed to get valid run params!";
       ConsoleErrorExn
         (ClientValidationError "Submitted code exceeds max length!");
       ConsoleInfo "[s1] Client disconnected";
       SocketDisconnect]
  ∧ shutdownCalls (startContainer config longRequest idle).2 = 0%nat.
Proof. repeat split; reflexivity. Qed.

(** C2 as stated fails: debugProceed on a running session whose container
    call throws a TypeError.  No exception leaves the handler and no event
    is emitted: the failure is swallowed. *)
Lemma makeDebugHandler_swallows_TypeError :
  container running = Some held
  ∧ gdbCommand (gdbProceed 1) (Some (TypeError "gdb is not running")) tt held
    = ([ContainerGdb held (gdbProceed 1)],
       Some (TypeError "gdb is not running"))
  ∧ makeDebugHandler
      (gdbCommand (gdbProceed 1) (Some (TypeError "gdb is not running")))
      tt running
    = (running, [ContainerGdb held (gdbProceed 1)], None).
Proof. split_and!; reflexivity. Qed.

(** debugStepIn before the program has started: the DebugStateError is
    reported and the session keeps its container. *)
Lemma makeDebugHandler_outcomes_sample :
  makeDebugHandler
    (gdbCommand (gdbStepIn 1) (Some (DebugStateError "Not started")))
    tt running
  = (running,
     [ContainerGdb held (gdbStepIn 1); SocketEmitError "Not started"], None).
Proof.
  destruct (makeDebugHandler_outcomes
              (gdbCommand (gdbStepIn 1) (Some (DebugStateError "Not started")))
              tt running) as (_ & Hreported & _).
  apply (Hreported held [ContainerGdb held (gdbStepIn 1)] "Not started");
    reflexivity.
Defined.

(** debugProceed before any run: one cplaygroundError, no other change. *)
Example debugProceed_before_run :
  makeDebugHandler (gdbCommand (gdbProceed 1) None) tt idle
  = (idle, [SocketEmitError "No program is currently running."], None).
Proof. reflexivity. Qed.

(** * Further properties of the tables *)

Section Tables.

Implicit Types (raw : RawContainerInfo) (info : ContainerInfo)
  (l : list RawFileInfo) (t : OpenFileTable) (v : VnodeTable)
  (namespaces : RawInfoByNamespace).

(** X1: populateOpenFileTable throws exactly when two records give one
    open-file id different offsets, flags or vnodes, or the open-file id of
    a record is a key every object inherits (such as constructor: the table
    is a plain object, and the inherited value is compared with the entry),
    and then a DebugDataError.  When it returns, the table has an entry
    exactly for the ids of the records; the entry copies the offset, flags
    and vnode of every record of its id and counts these records. *)
Theorem populateOpenFileTable_outcome l :
  (throws (populateOpenFileTable l)
   ↔ (∃ f1 f2, f1 ∈ l ∧ f2 ∈ l ∧ conflicting f1 f2)
     ∨ ∃ f, f ∈ l ∧ Js.inherited (openFileID f))
  ∧ (∀ exc, populateOpenFileTable l = inl exc →
            ∃ message, exc = DebugDataError message)
  ∧ (∀ t, populateOpenFileTable l = inr t →
          ∀ id, (is_Some (t !! id) ↔ ∃ f, f ∈ l ∧ openFileID f = id)
                ∧ ∀ e f, t !! id = Some e → f ∈ l → openFileID f = id →
                         position e = pos f ∧ fileFlags e = Debugger.flags f
                         ∧ vnode e = vnodeName f
                         ∧ fileRefcount e = Z.of_nat (countId id l)).
Proof.
  pose proof (populateOpenFileTable_spec l) as Hspec. split_and!.
  - apply populateOpenFileTable_throws.
  - intros exc Hexc. rewrite Hexc in Hspec. apply Hspec.
  - intros t Ht id. rewrite Ht in Hspec. pose proof (Hspec id) as Hid.
    split.
    + rewrite <- countId_pos. destruct (t !! id) as [e|].
      * split; [intros _; apply Hid | eauto].
      * split; [by intros [? ?] | lia].
    + intros e f He Hf Hfid. rewrite He in Hid.
      destruct Hid as (_ & Hcount & Hsame).
      specialize (Hsame f Hf Hfid). unfold details, entryDetails in Hsame.
      by injection Hsame as -> -> ->.
Qed.

(** X2: the table populateOpenFileTable returns does not depend on the
    order of the records, and neither does whether it throws. *)
Theorem populateOpenFileTable_order l1 l2 :
  l1 ≡ₚ l2 →
  (throws (populateOpenFileTable l1) ↔ throws (populateOpenFileTable l2))
  ∧ ∀ t1 t2, populateOpenFileTable l1 = inr t1 →
             populateOpenFileTable l2 = inr t2 → t1 = t2.
Proof.
  intros Hperm. split.
  - rewrite !populateOpenFileTable_throws.
    split; (intros [(f1 & f2 & H1 & H2 & Hc)|(f & Hin & Hf)];
      [left; exists f1, f2; split_and!; [| |done]
      |right; exists f; split; [|done]]);
      by first [rewrite <- Hperm | rewrite Hperm].
  - intros t1 t2 H1 H2.
    pose proof (populateOpenFileTable_spec l1) as Hinv1.
    pose proof (populateOpenFileTable_spec l2) as Hinv2.
    rewrite H1 in Hinv1. rewrite H2 in Hinv2.
    apply map_eq. intros id.
    pose proof (Hinv1 id) as Hid1. pose proof (Hinv2 id) as Hid2.
    rewrite <- (countId_perm id _ _ Hperm) in Hid2.
    destruct (t1 !! id) as [e1|], (t2 !! id) as [e2|]; [|lia|lia|done].
    destruct Hid1 as (Hpos & Hc1 & Hsame1), Hid2 as (_ & Hc2 & Hsame2).
    apply countId_pos in Hpos as (f & Hf & Hfid).
    pose proof (Hsame1 f Hf Hfid) as Hd1.
    assert (f ∈ l2) as Hf2 by (by rewrite <- Hperm).
    pose proof (Hsame2 f Hf2 Hfid) as Hd2.
    rewrite Hd1 in Hd2. unfold entryDetails in Hd2.
    injection Hd2 as ? ? ?. destruct e1, e2. simpl in *. congruence.
Qed.

Lemma sum_list_indicator {K} `{EqDecision K} (a : K) (ks : list K) :
  NoDup ks → a ∈ ks →
  sum_list ((fun k => if decide (a = k) then 1 else 0)%nat <$> ks) = 1%nat.
Proof.
  induction 1 as [|k ks Hfresh Hnodup IH]; [by intros ?%elem_of_nil|].
  intros [->|Hin]%elem_of_cons; simpl.
  - rewrite decide_True by done. f_equal.
    clear IH Hnodup. induction ks as [|k' ks IH]; [done|]. simpl.
    apply not_elem_of_cons in Hfresh as [Hne Hfresh].
    rewrite decide_False by done. by apply IH.
  - rewrite decide_False by (intros ->; done). by apply IH.
Qed.

Lemma sum_list_cons (n : nat) (ns : list nat) :
  sum_list (n :: ns) = (n + sum_list ns)%nat.
Proof. reflexivity. Qed.

(** Counting the elements of a list key by key counts every element once. *)
Lemma count_partition {A K} `{EqDecision K} (key : A → K) (ks : list K)
    (xs : list A) :
  NoDup ks → (∀ x, x ∈ xs → key x ∈ ks) →
  sum_list ((fun k => length (filter (fun x => key x = k) xs)) <$> ks)
  = length xs.
Proof.
  intros Hnodup. induction xs as [|x xs IH]; intros Hkeys.
  - clear. induction ks as [|k ks IHk]; [done|]. simpl. apply IHk.
  - assert (sum_list
              ((fun k => length (filter (fun y => key y = k) (x :: xs))) <$> ks)
            = (sum_list ((fun k => if decide (key x = k) then 1 else 0)%nat
                           <$> ks)
               + sum_list
                   ((fun k => length (filter (fun y => key y = k) xs)) <$> ks))%nat)
      as ->.
    { clear. induction ks as [|k ks IHk]; [done|].
      rewrite !fmap_cons, !sum_list_cons, IHk, filter_cons.
      destruct (decide (key x = k)); simpl; lia. }
    rewrite sum_list_indicator; [|done|apply Hkeys; left].
    rewrite IH; [done|]. intros y Hy. apply Hkeys. by right.
Qed.

Lemma sumZ_of_nat (ns : list nat) :
  sumZ (Z.of_nat <$> ns) = Z.of_nat (sum_list ns).
Proof.
  unfold sumZ. induction ns as [|n ns IH]; [done|].
  rewrite fmap_cons, sum_list_cons. simpl foldr. rewrite IH. lia.
Qed.

Lemma openFileRefs_total l t :
  openInv l t → openFileRefs t = Z.of_nat (length l).
Proof.
  intros Hinv. unfold openFileRefs.
  assert (fileRefcount <$> (map_to_list t).*2
          = Z.of_nat <$> ((fun id => countId id l) <$> (map_to_list t).*1))
    as ->.
  { rewrite <- !list_fmap_compose. apply list_fmap_ext.
    intros i [id e] Hin%list_elem_of_lookup_2%elem_of_map_to_list. simpl.
    specialize (Hinv id). rewrite Hin in Hinv. by destruct Hinv as (_ & ? & _). }
  rewrite sumZ_of_nat. f_equal. unfold countId.
  apply (count_partition openFileID).
  - apply NoDup_fst_map_to_list.
  - intros f Hf. specialize (Hinv (openFileID f)).
    destruct (t !! openFileID f) as [e|] eqn:He.
    + apply list_elem_of_fmap. exists (openFileID f, e).
      split; [done|]. by apply elem_of_map_to_list.
    + assert (0 < countId (openFileID f) l)%nat; [|lia].
      apply countId_pos. eauto.
Qed.

Lemma populateVnodeTable_full l t v :
  populateOpenFileTable l = inr t →
  populateVnodeTable l t = inr v →
  (∀ n, is_Some (v !! n) ↔ ∃ f, f ∈ l ∧ vnodeName f = n)
  ∧ (∀ n e, v !! n = Some e →
            name e = n ∧ refcount e = Z.of_nat (openFilesNaming n t))
  ∧ vnodeRefs v = Z.of_nat (size t).
Proof.
  intros Ht Hv. pose proof (populateOpenFileTable_spec l) as Hinv.
  rewrite Ht in Hinv.
  pose proof (populateVnodeTable_returned l t v Hinv Hv) as Hspec.
  split_and!.
  - intros n. rewrite (Hspec n).
    destruct (decide (n ∈ vnodeName <$> l)) as [Hin|Hnot].
    + split; [intros _|eauto].
      apply list_elem_of_fmap in Hin as (f & -> & Hf). eauto.
    + split; [by intros [? ?]|]. intros (f & Hf & <-).
      destruct Hnot. apply list_elem_of_fmap. eauto.
  - intros n e. rewrite (Hspec n). case_decide; [|done].
    by intros [= <-].
  - unfold vnodeRefs.
    assert (refcount <$> (map_to_list v).*2
            = Z.of_nat
                <$> ((fun n => openFilesNaming n t) <$> (map_to_list v).*1))
      as ->.
    { rewrite <- !list_fmap_compose. apply list_fmap_ext.
      intros i [n e] Hin%list_elem_of_lookup_2%elem_of_map_to_list. simpl.
      rewrite (Hspec n) in Hin. case_decide; [|done]. by injection Hin as <-. }
    rewrite sumZ_of_nat. f_equal. unfold openFilesNaming.
    rewrite (count_partition vnode).
    + by rewrite length_fmap, length_map_to_list.
    + apply NoDup_fst_map_to_list.
    + intros e [[id e'] [-> Hin]]%list_elem_of_fmap. simpl.
      apply elem_of_map_to_list in Hin.
      specialize (Hinv id). rewrite Hin in Hinv.
      destruct Hinv as (Hpos & _ & Hsame).
      apply countId_pos in Hpos as (f & Hf & Hid).
      specialize (Hsame f Hf Hid). injection Hsame as _ _ Hvn.
      apply list_elem_of_fmap. exists (vnode e', {| name := vnode e';
        refcount := Z.of_nat (openFilesNaming (vnode e') t) |}).
      split; [done|]. apply elem_of_map_to_list. rewrite (Hspec (vnode e')).
      rewrite decide_True; [done|]. rewrite <- Hvn.
      apply list_elem_of_fmap. eauto.
Qed.

(** X3: on the table populateOpenFileTable built from the same records,
    populateVnodeTable throws exactly when the vnode name of a record is a
    key every object inherits (such as constructor), and then a
    DebugDataError; a TypeError on a missing vnode cannot occur.  When it
    returns, the table has an entry exactly for the vnode names of the
    records, named by its key and counted by the open files that point to
    it, so that the counts add up to the number of open files. *)
Theorem populateVnodeTable_outcome l t :
  populateOpenFileTable l = inr t →
  (throws (populateVnodeTable l t)
   ↔ ∃ f, f ∈ l ∧ Js.inherited (vnodeName f))
  ∧ (∀ exc, populateVnodeTable l t = inl exc →
            ∃ message, exc = DebugDataError message)
  ∧ ∀ v, populateVnodeTable l t = inr v →
         (∀ n, is_Some (v !! n) ↔ ∃ f, f ∈ l ∧ vnodeName f = n)
         ∧ (∀ n e, v !! n = Some e →
                   name e = n ∧ refcount e = Z.of_nat (openFilesNaming n t))
         ∧ vnodeRefs v = Z.of_nat (size t).
Proof.
  intros Ht. pose proof (populateOpenFileTable_spec l) as Hinv.
  rewrite Ht in Hinv.
  pose proof (populateVnodeTable_spec l t Hinv) as Hspec. split_and!.
  - destruct (populateVnodeTable l t) as [exc|v]; simpl.
    + split; [intros _; apply Hspec | done].
    + split; [done|]. intros (f & Hin & Hf). by apply (proj1 Hspec f).
  - intros exc Hexc. rewrite Hexc in Hspec. apply Hspec.
  - intros v. by apply populateVnodeTable_full.
Qed.

(** X4: cleanContainerData returns exactly for a namespace that has a
    process under container pid 1, no conflicting records among its exposed
    processes, and among their records no open-file id or vnode name that
    is a key every object inherits (such as constructor); whatever it
    throws is a DebugDataError, and a missing init process is the error
    reported when several faults are present. *)
Theorem cleanContainerData_outcome raw :
  ((∃ stored, cleanContainerData raw = inr stored)
   ↔ is_Some (raw !! 1) ∧ ¬ conflictingRecords raw ∧ ¬ inheritedKeys raw)
  ∧ (∀ exc, cleanContainerData raw = inl exc →
            ∃ message, exc = DebugDataError message)
  ∧ (raw !! 1 = None →
     cleanContainerData raw
     = inl (DebugDataError
              "This namespace seems to be missing an init process! This should never happen.")).
Proof.
  split_and!.
  - split.
    + intros [[g info] Hclean].
      destruct (cleanContainerData_returns _ _ _ Hclean)
        as ((init & Hinit & _) & _).
      split; [eauto|].
      split; intros Hbad;
        (destruct (cleanContainerData_throws raw) as [message Hthrows];
         [auto|congruence]).
    + intros ([init Hinit] & Hok & Hown).
      destruct (cleanContainerData_wellFormed raw init Hinit Hok Hown)
        as [info ?].
      eauto.
  - apply cleanContainerData_exn.
  - intros Hnone. unfold cleanContainerData. by rewrite Hnone.
Qed.

Lemma length_concat {A} (xss : list (list A)) :
  length (concat xss) = sum_list (length <$> xss).
Proof.
  induction xss as [|xs xss IH]; [done|]. simpl.
  by rewrite length_app, IH.
Qed.

Lemma size_fdTable proc :
  map_Forall (fun k f => fd f = k) (files proc) →
  size (fdTable proc) = length (Object_values (files proc)).
Proof.
  intros Hkeyed. rewrite fdTable_keyed, map_size_fmap by done.
  unfold Object_values. rewrite length_fmap, Object_entries_perm.
  symmetry. apply length_map_to_list.
Qed.

(** The reference counts of a cleaned namespace, added up. *)
Lemma cleaned_reference_totals raw g info :
  filesKeyedByFd raw →
  cleanContainerData raw = inr (g, info) →
  openFileRefs (openFiles info) = Z.of_nat (descriptorCount (processes info))
  ∧ vnodeRefs (vnodes info) = Z.of_nat (size (openFiles info)).
Proof.
  intros Hkeyed (_ & Hprocs & Hopen & Hvnodes)%cleanContainerData_returns.
  pose proof (populateOpenFileTable_spec (exposedFiles raw)) as Hinv.
  rewrite Hopen in Hinv. split.
  - rewrite (openFileRefs_total _ _ Hinv). f_equal.
    rewrite Hprocs. unfold descriptorCount, populateProcessTable, exposedFiles.
    rewrite length_concat, <- !list_fmap_compose. f_equal.
    apply list_fmap_ext. intros i proc Hin. simpl. symmetry.
    apply size_fdTable.
    apply list_elem_of_lookup_2, list_elem_of_filter in Hin as [_ Hin].
    apply elem_of_Object_values in Hin as [k Hk]. by apply (Hkeyed k).
  - by destruct (populateVnodeTable_full _ _ _ Hopen Hvnodes) as (_ & _ & Hsum).
Qed.

(** X5: in a reconstructed namespace whose file records are stored under
    their descriptor number, the reference counts of the open files add up
    to the number of descriptor-table entries of the exposed processes,
    and the reference counts of the vnodes add up to the number of open
    files. *)
Theorem reconstructed_reference_totals raw g info :
  filesKeyedByFd raw →
  cleanContainerData raw = inr (g, info) →
  openFileRefs (openFiles info) = Z.of_nat (descriptorCount (processes info))
  ∧ vnodeRefs (vnodes info) = Z.of_nat (size (openFiles info)).
Proof. exact (cleaned_reference_totals raw g info). Qed.

Lemma keyLe_strict {A} (entries : list (Z * A)) :
  StronglySorted keyLe entries → NoDup entries.*1 →
  StronglySorted (fun x y : Z * A => x.1 < y.1) entries.
Proof.
  induction 1 as [|[k x] entries Hsorted IH Hall]; [constructor|].
  rewrite fmap_cons. intros [Hfresh Hnodup]%NoDup_cons. simpl in *.
  constructor; [by apply IH|].
  apply Forall_forall. intros [k' x'] Hin. simpl.
  rewrite Forall_forall in Hall. specialize (Hall _ Hin).
  unfold keyLe in Hall. simpl in Hall.
  assert (k ≠ k'); [|lia]. intros ->. apply Hfresh.
  apply list_elem_of_fmap. by exists (k', x').
Qed.

Lemma StronglySorted_filter' {A} (R : relation A) (P : A → Prop)
    `{∀ x, Decision (P x)} (xs : list A) :
  StronglySorted R xs → StronglySorted R (filter P xs).
Proof.
  induction 1 as [|x xs Hsorted IH Hall]; [constructor|].
  rewrite filter_cons. destruct (decide (P x)); [|done].
  constructor; [done|]. rewrite Forall_forall in Hall |- *.
  intros y [_ Hy]%list_elem_of_filter. by apply Hall.
Qed.

Lemma filter_ext_elem {A} (P Q : A → Prop) `{∀ x, Decision (P x)}
    `{∀ x, Decision (Q x)} (xs : list A) :
  (∀ x, x ∈ xs → (P x ↔ Q x)) → filter P xs = filter Q xs.
Proof.
  induction xs as [|x xs IH]; intros Hext; [done|].
  rewrite !filter_cons.
  destruct (decide (P x)) as [HP|HP], (decide (Q x)) as [HQ|HQ].
  - f_equal. apply IH. intros y Hy. apply Hext. by right.
  - destruct HQ. apply Hext; [left|done].
  - destruct HP. apply Hext; [left|done].
  - apply IH. intros y Hy. apply Hext. by right.
Qed.

Lemma exposed_pids raw :
  keyedByContainerPID raw →
  containerPID <$> exposedProcesses raw
  = (filter (fun kv : Z * RawProcessInfo => 1 < kv.1) (Object_entries raw)).*1.
Proof.
  intros Hkeyed. unfold exposedProcesses, Object_values.
  rewrite filter_fmap_comm, <- list_fmap_compose.
  rewrite (filter_ext_elem _ (fun kv : Z * RawProcessInfo => 1 < kv.1)).
  - apply list_fmap_ext.
    intros i [k proc] [_ Hin]%list_elem_of_lookup_2%list_elem_of_filter.
    simpl. apply elem_of_Object_entries in Hin. by apply (Hkeyed k).
  - intros [k proc] Hin%elem_of_Object_entries. simpl.
    by rewrite (Hkeyed k proc Hin).
Qed.

(** The pids of a cleaned namespace. *)
Lemma cleaned_processes_ascending raw g info :
  keyedByContainerPID raw →
  cleanContainerData raw = inr (g, info) →
  StronglySorted Z.lt (pid <$> processes info)
  ∧ ∀ k, k ∈ pid <$> processes info ↔ 1 < k ∧ is_Some (raw !! k).
Proof.
  intros Hkeyed (_ & Hprocs & _)%cleanContainerData_returns.
  assert (pid <$> processes info
          = (filter (fun kv : Z * RawProcessInfo => 1 < kv.1)
                    (Object_entries raw)).*1) as ->.
  { rewrite Hprocs, <- (exposed_pids raw Hkeyed).
    unfold populateProcessTable. by rewrite <- list_fmap_compose. }
  split.
  - apply (StronglySorted_fmap _ (fun x y : Z * RawProcessInfo => x.1 < y.1));
      [done|].
    apply StronglySorted_filter', keyLe_strict.
    + apply Object_entries_sorted.
    + apply NoDup_Object_entries_keys.
  - intros k. rewrite list_elem_of_fmap. split.
    + intros ([k' proc] & -> & [Hgt Hin]%list_elem_of_filter). simpl in *.
      apply elem_of_Object_entries in Hin. eauto.
    + intros [Hgt [proc Hk]]. exists (k, proc). split; [done|].
      apply list_elem_of_filter. split; [done|].
      by apply elem_of_Object_entries.
Qed.

(** X6: when the processes are stored under their container pid, and the
    pids are array indices (from 0 to 2^32 - 2, the keys Object.values
    enumerates in ascending order), the exposed process list holds exactly
    the container pids above 1 of the namespace, in ascending order without
    repetition. *)
Theorem reconstructed_processes_ascending raw g info :
  arrayIndexKeys raw →
  keyedByContainerPID raw →
  cleanContainerData raw = inr (g, info) →
  StronglySorted Z.lt (pid <$> processes info)
  ∧ ∀ k, k ∈ pid <$> processes info ↔ 1 < k ∧ is_Some (raw !! k).
Proof. intros _. exact (cleaned_processes_ascending raw g info). Qed.

Lemma reconstructStep_foldl namespaces : ∀ containers,
  foldl reconstructStep containers namespaces
  = foldl (fun (m : CleanedInfoByNamespace) stored => <[stored.1 := stored.2]> m)
          containers (reconstructed namespaces).
Proof.
  induction namespaces as [|ns namespaces IH]; intros containers; [done|].
  simpl. rewrite IH. unfold reconstructStep.
  by destruct (cleanContainerData ns.2) as [?|[g info]].
Qed.

Lemma foldl_insert_list_to_map {A} (entries : list (Z * A)) : ∀ m : gmap Z A,
  foldl (fun (m : gmap Z A) kv => <[kv.1 := kv.2]> m) m entries
  = list_to_map (reverse entries) ∪ m.
Proof.
  induction entries as [|[k x] entries IH]; intros m; simpl.
  - by rewrite (left_id_L ∅ (∪)).
  - rewrite IH, reverse_cons, list_to_map_app. simpl.
    rewrite insert_empty, <- (assoc_L (∪)).
    by rewrite <- insert_union_singleton_l.
Qed.

Lemma reconstructTables_list namespaces :
  reconstructTables namespaces
  = list_to_map (reverse (reconstructed namespaces)).
Proof.
  unfold reconstructTables.
  rewrite reconstructStep_foldl, foldl_insert_list_to_map.
  by rewrite (right_id_L ∅ (∪)).
Qed.

Lemma reconstructTables_lookup namespaces g info :
  reconstructTables namespaces !! g = Some info →
  ∃ ns, ns ∈ namespaces ∧ cleanContainerData ns.2 = inr (g, info).
Proof.
  rewrite reconstructTables_list. intros Hg.
  apply elem_of_list_to_map_2 in Hg. rewrite elem_of_reverse in Hg.
  apply list_elem_of_omap in Hg as (ns & Hns & Hclean).
  exists ns. split; [done|].
  by destruct (cleanContainerData ns.2) as [|stored]; simplify_eq.
Qed.

(** X7: reconstructTables returns the map of the namespaces that
    cleanContainerData accepts, under their global pid, the later one
    winning where two share a global pid.  Every entry of the result is the
    cleaned data of a namespace of the input, and every namespace of the
    input is either logged with its exception or stored. *)
Theorem reconstructTables_accounts namespaces :
  reconstructTables namespaces
  = list_to_map (reverse (reconstructed namespaces))
  ∧ (∀ g info, reconstructTables namespaces !! g = Some info →
               ∃ ns, ns ∈ namespaces ∧ cleanContainerData ns.2 = inr (g, info))
  ∧ (∀ ns, ns ∈ namespaces →
           (∃ exc, cleanContainerData ns.2 = inl exc
                   ∧ (ns.1, exc) ∈ reconstructErrors namespaces)
           ∨ (∃ g info, cleanContainerData ns.2 = inr (g, info)
                        ∧ is_Some (reconstructTables namespaces !! g)))
  ∧ (length (reconstructErrors namespaces)
     + length (reconstructed namespaces) = length namespaces)%nat
  ∧ (size (reconstructTables namespaces)
     ≤ length (reconstructed namespaces))%nat.
Proof.
  assert (reconstructTables namespaces
          = list_to_map (reverse (reconstructed namespaces))) as Heq.
  { unfold reconstructTables.
    rewrite reconstructStep_foldl, foldl_insert_list_to_map.
    by rewrite (right_id_L ∅ (∪)). }
  split_and!.
  - done.
  - intros g info Hg. rewrite Heq in Hg.
    apply elem_of_list_to_map_2 in Hg. rewrite elem_of_reverse in Hg.
    apply list_elem_of_omap in Hg as (ns & Hns & Hclean).
    exists ns. split; [done|].
    by destruct (cleanContainerData ns.2) as [|stored]; simplify_eq.
  - intros ns Hns. destruct (cleanContainerData ns.2) as [exc|[g info]] eqn:Hc.
    + left. exists exc. split; [done|]. apply list_elem_of_omap.
      exists ns. by rewrite Hc.
    + right. exists g, info. split; [done|]. rewrite Heq.
      apply not_eq_None_Some. intros Hnone%not_elem_of_list_to_map.
      apply Hnone. apply list_elem_of_fmap. exists (g, info).
      split; [done|]. rewrite elem_of_reverse. apply list_elem_of_omap.
      exists ns. by rewrite Hc.
  - unfold reconstructErrors, reconstructed. clear Heq.
    induction namespaces as [|ns namespaces IH]; [done|].
    change (ns :: namespaces) with ([ns] ++ namespaces).
    rewrite !omap_app, !length_app. simpl.
    destruct (cleanContainerData ns.2); simpl; lia.
  - rewrite Heq. clear Heq.
    rewrite <- (length_reverse (reconstructed namespaces)).
    induction (reverse (reconstructed namespaces)) as [|[g info] entries IH];
      simpl; [by rewrite map_size_empty|].
    pose proof (map_size_insert g info
                  (list_to_map entries : gmap Z ContainerInfo)) as Hsize.
    rewrite Hsize. destruct (_ !! g); unfold id; lia.
Qed.

(** X8: when the namespaces that reconstruct have different init global
    pids, the result of reconstructTables does not depend on the order in
    which the namespaces are enumerated, and holds every one of them. *)
Theorem reconstructTables_order namespaces1 namespaces2 :
  namespaces1 ≡ₚ namespaces2 →
  NoDup (reconstructed namespaces1).*1 →
  reconstructTables namespaces1 = reconstructTables namespaces2
  ∧ size (reconstructTables namespaces1)
    = length (reconstructed namespaces1).
Proof.
  intros Hperm Hnodup.
  assert (∀ namespaces,
            reconstructTables namespaces
            = list_to_map (reverse (reconstructed namespaces))) as Heq.
  { intros namespaces. unfold reconstructTables.
    rewrite reconstructStep_foldl, foldl_insert_list_to_map.
    by rewrite (right_id_L ∅ (∪)). }
  assert (NoDup (reverse (reconstructed namespaces1)).*1) as Hnodup'.
  { by rewrite fmap_reverse, reverse_Permutation. }
  split.
  - rewrite !Heq. apply list_to_map_proper; [done|].
    rewrite !reverse_Permutation. unfold reconstructed. by rewrite Hperm.
  - rewrite Heq, map_size_list_to_map by done. apply length_reverse.
Qed.

End Tables.

(** The records of [forked], folded in two orders. *)
Lemma populateOpenFileTable_order_forked :
  populateOpenFileTable (reverse (exposedFiles forked))
  = populateOpenFileTable (exposedFiles forked).
Proof.
  destruct (populateOpenFileTable_order
              (reverse (exposedFiles forked)) (exposedFiles forked)
              (reverse_Permutation _)) as [_ Hsame].
  destruct (populateOpenFileTable (reverse (exposedFiles forked)))
    as [exc|t1] eqn:H1; [vm_compute in H1; discriminate|].
  destruct (populateOpenFileTable (exposedFiles forked))
    as [exc|t2] eqn:H2; [vm_compute in H2; discriminate|].
  f_equal. by apply Hsame.
Defined.

(** The vnode table of [forked]: the terminal and the pipe, counted 1
    and 2 for the three open files. *)
Lemma populateVnodeTable_outcome_forked :
  populateVnodeTable (exposedFiles forked) (openFiles forkedInfo)
  = inr (vnodes forkedInfo)
  ∧ vnodeRefs (vnodes forkedInfo) = 3.
Proof.
  assert (populateVnodeTable (exposedFiles forked) (openFiles forkedInfo)
          = inr (vnodes forkedInfo)) as Hv.
  { vm_compute. reflexivity. }
  destruct (populateVnodeTable_outcome
              (exposedFiles forked) (openFiles forkedInfo))
    as (_ & _ & Hreturned).
  { vm_compute. reflexivity. }
  destruct (Hreturned _ Hv) as (_ & _ & Hsum).
  split; [exact Hv|]. rewrite Hsum. vm_compute. reflexivity.
Defined.

(** [forked]: five descriptors on three open files on two vnodes. *)
Lemma reconstructed_reference_totals_forked :
  openFileRefs (openFiles forkedInfo) = 5
  ∧ vnodeRefs (vnodes forkedInfo) = 3.
Proof.
  destruct (reconstructed_reference_totals forked 4000 forkedInfo)
    as [Hfiles Hvnodes].
  - apply (bool_decide_unpack _). vm_compute. exact I.
  - vm_compute. reflexivity.
  - rewrite Hfiles, Hvnodes. split; vm_compute; reflexivity.
Defined.

Lemma reconstructed_references_resolve_forked :
  (∀ p k d, p ∈ processes forkedInfo → fds p !! k = Some d →
            is_Some (openFiles forkedInfo !! file d))
  ∧ (∀ id e, openFiles forkedInfo !! id = Some e →
             is_Some (vnodes forkedInfo !! vnode e)).
Proof.
  apply (reconstructed_references_resolve forked 4000 forkedInfo).
  - apply (bool_decide_unpack _). vm_compute. exact I.
  - vm_compute. reflexivity.
Defined.

(** The exposed processes of [forked] are 20 and 21, in this order. *)
Lemma reconstructed_processes_ascending_forked :
  StronglySorted Z.lt (pid <$> processes forkedInfo)
  ∧ pid <$> processes forkedInfo = [20; 21].
Proof.
  destruct (reconstructed_processes_ascending forked 4000 forkedInfo)
    as [Hsorted _].
  - apply (bool_decide_unpack _). vm_compute. exact I.
  - apply (bool_decide_unpack _). vm_compute. exact I.
  - vm_compute. reflexivity.
  - split; [exact Hsorted|]. vm_compute. reflexivity.
Defined.

(** Two namespaces with different init pids, polled in either order. *)
Lemma reconstructTables_order_sample :
  reconstructTables [("a", forked); ("b", forkedElsewhere)]
  = reconstructTables [("b", forkedElsewhere); ("a", forked)].
Proof.
  apply (reconstructTables_order
           [("a", forked); ("b", forkedElsewhere)]
           [("b", forkedElsewhere); ("a", forked)]).
  - apply perm_swap.
  - apply (bool_decide_unpack _). vm_compute. exact I.
Defined.

(** * Further properties of readFlags *)

Section FlagBits.

Implicit Types (octal v mask : Z) (flag : FileFlag).

Lemma land_lor_both v a b :
  Z.land v (Z.lor a b) = Z.lor a b ↔ Z.land v a = a ∧ Z.land v b = b.
Proof.
  split.
  - intros Hboth. split; apply Z.bits_inj'; intros n Hn;
      apply (f_equal (fun z => Z.testbit z n)) in Hboth;
      rewrite Z.land_spec, Z.lor_spec in Hboth; rewrite Z.land_spec;
      destruct (Z.testbit v n), (Z.testbit a n), (Z.testbit b n);
      simpl in *; congruence.
  - intros [Ha Hb]. rewrite Z.land_lor_distr_r. by rewrite Ha, Hb.
Qed.

Lemma all_flags_are_keys flag : flag ∈ FILE_FLAGS_keys.
Proof.
  apply (bool_decide_unpack _). by destruct flag.
Qed.

(** Apart from O_RDONLY, readFlags returns exactly the flags whose bits are
    all in the value. *)
Lemma readFlagsOf_elem octal flag :
  flag ≠ O_RDONLY → flag ∈ readFlagsOf octal ↔ hasFlag octal flag.
Proof.
  intros Hne. unfold readFlagsOf. rewrite dropReadOnly_matched.
  unfold dropReadOnly_removeIfPresent, matchedFlags.
  pose proof (all_flags_are_keys flag).
  destruct (orb _ _); rewrite !list_elem_of_filter; tauto.
Qed.

(** X10: readFlags does not decode the file type or the aliases
    independently.  Flags with the same value come together (O_NONBLOCK
    and O_NDELAY, O_DSYNC and S_IFIFO, O_ASYNC and S_IFCHR), O_SYNC brings
    O_DSYNC, and a type whose value is the union of two others is returned
    exactly when both are: S_IFBLK with S_IFCHR and S_IFDIR, S_IFLNK with
    S_IFREG and S_IFCHR, S_IFSOCK with S_IFREG and S_IFDIR. *)
Theorem readFlags_aliases (octalStr : string) :
  let flags := readFlags octalStr in
  (O_NONBLOCK ∈ flags ↔ O_NDELAY ∈ flags)
  ∧ (O_DSYNC ∈ flags ↔ S_IFIFO ∈ flags)
  ∧ (O_ASYNC ∈ flags ↔ S_IFCHR ∈ flags)
  ∧ (O_SYNC ∈ flags → O_DSYNC ∈ flags)
  ∧ (S_IFBLK ∈ flags ↔ S_IFCHR ∈ flags ∧ S_IFDIR ∈ flags)
  ∧ (S_IFLNK ∈ flags ↔ S_IFREG ∈ flags ∧ S_IFCHR ∈ flags)
  ∧ (S_IFSOCK ∈ flags ↔ S_IFREG ∈ flags ∧ S_IFDIR ∈ flags).
Proof.
  intros flags. subst flags. unfold readFlags.
  set (v := Js.toInt32 (Js.parseInt8 octalStr)).
  rewrite !readFlagsOf_elem by done. unfold hasFlag. simpl FILE_FLAGS.
  split_and!; try done.
  - change 1052672 with (Z.lor 1048576 4096).
    by intros [_ ?]%land_lor_both.
  - change 24576 with (Z.lor 8192 16384). apply land_lor_both.
  - change 40960 with (Z.lor 32768 8192). apply land_lor_both.
  - change 49152 with (Z.lor 32768 16384). apply land_lor_both.
Qed.

Lemma land_pow2 v k :
  0 ≤ k →
  Z.land v (2 ^ k) = (if Z.testbit v k then 2 ^ k else 0).
Proof.
  intros Hk. apply Z.bits_inj'. intros n Hn.
  rewrite Z.land_spec, Z.pow2_bits_eqb by done.
  destruct (Z.eqb_spec k n) as [->|Hne].
  - destruct (Z.testbit v n) eqn:Hv; rewrite ?Hv; simpl.
    + by rewrite Z.pow2_bits_true.
    + by rewrite Z.bits_0.
  - rewrite andb_false_r. destruct (Z.testbit v k).
    + by rewrite Z.pow2_bits_false.
    + by rewrite Z.bits_0.
Qed.

Lemma oneBit_land value v :
  oneBit value = true → Z.land v value = 0 ∨ Z.land v value = value.
Proof.
  unfold oneBit. intros [Hpos Heq%Z.eqb_eq]%andb_true_iff.
  pose proof (Z.log2_nonneg value) as Hk.
  destruct (Z.log2 value) as [|k|k] eqn:Hlog; [| |lia]; rewrite Heq;
    rewrite land_pow2 by done; destruct (Z.testbit v _); auto.
Qed.

Lemma clearFlag_land v flag :
  Z.land v (FILE_FLAGS flag) = 0
  ∨ Z.land v (FILE_FLAGS flag) = FILE_FLAGS flag →
  clearFlag v flag = Z.land v (Z.lnot (FILE_FLAGS flag)).
Proof.
  intros Hcases. unfold clearFlag, hasFlag. case_decide as Hhas; [done|].
  destruct Hcases as [Hzero|]; [|done].
  apply Z.bits_inj'. intros n Hn.
  apply (f_equal (fun z => Z.testbit z n)) in Hzero.
  rewrite Z.land_spec, Z.bits_0 in Hzero.
  rewrite Z.land_spec, Z.lnot_spec by done.
  destruct (Z.testbit v n), (Z.testbit (FILE_FLAGS flag) n); simpl in *;
    congruence.
Qed.

Lemma land_already_cleared v mask value :
  Z.land value (Z.lnot mask) = 0 →
  Z.land (Z.land v (Z.lnot mask)) value = 0.
Proof.
  intros Hin. apply Z.bits_inj'. intros n Hn.
  apply (f_equal (fun z => Z.testbit z n)) in Hin.
  rewrite Z.land_spec, Z.lnot_spec, Z.bits_0 in Hin by done.
  rewrite !Z.land_spec, Z.lnot_spec, Z.bits_0 by done.
  destruct (Z.testbit v n), (Z.testbit mask n), (Z.testbit value n);
    simpl in *; congruence.
Qed.

Lemma land_lnot_lor v a b :
  Z.land (Z.land v (Z.lnot a)) (Z.lnot b) = Z.land v (Z.lnot (Z.lor a b)).
Proof.
  apply Z.bits_inj'. intros n Hn.
  rewrite !Z.land_spec, !Z.lnot_spec, Z.lor_spec by done.
  by destruct (Z.testbit v n), (Z.testbit a n), (Z.testbit b n).
Qed.

Lemma clear_loop flags : ∀ v mask,
  allClearedAnyway mask flags = true →
  foldl clearFlag (Z.land v (Z.lnot mask)) flags
  = Z.land v (Z.lnot (maskOf mask flags)).
Proof.
  induction flags as [|flag flags IH]; intros v mask Hall; [done|].
  simpl in Hall. apply andb_true_iff in Hall as [Hflag Hall].
  simpl foldl. unfold maskOf. simpl foldl. fold (maskOf (Z.lor mask (FILE_FLAGS flag)) flags).
  rewrite clearFlag_land, land_lnot_lor; [by apply IH|].
  unfold clearedAnyway in Hflag. apply orb_true_iff in Hflag as [Hone|Hin].
  - by apply oneBit_land.
  - left. apply land_already_cleared. by apply Z.eqb_eq.
Qed.

Lemma hasFlag_after_clearing v mask flag :
  Z.land (FILE_FLAGS flag) mask = 0 →
  hasFlag (Z.land v (Z.lnot mask)) flag ↔ hasFlag v flag.
Proof.
  intros Hdisjoint. unfold hasFlag.
  assert (Z.land (Z.land v (Z.lnot mask)) (FILE_FLAGS flag)
          = Z.land v (FILE_FLAGS flag)) as ->; [|done].
  apply Z.bits_inj'. intros n Hn.
  apply (f_equal (fun z => Z.testbit z n)) in Hdisjoint.
  rewrite Z.land_spec, Z.bits_0 in Hdisjoint.
  rewrite !Z.land_spec, Z.lnot_spec by done.
  destruct (Z.testbit v n), (Z.testbit mask n),
    (Z.testbit (FILE_FLAGS flag) n); simpl in *; congruence.
Qed.

Lemma clear_around before flag after v :
  allClearedAnyway 0 before = true →
  Z.land (FILE_FLAGS flag) (maskOf 0 before) = 0 →
  allClearedAnyway (Z.lor (maskOf 0 before) (FILE_FLAGS flag)) after = true →
  allClearedAnyway (maskOf 0 before) after = true →
  foldl clearFlag v (before ++ flag :: after)
  = Z.land v (Z.lnot
      (if decide (hasFlag v flag)
       then maskOf (Z.lor (maskOf 0 before) (FILE_FLAGS flag)) after
       else maskOf (maskOf 0 before) after)).
Proof.
  intros Hbefore Hdisjoint Hwith Hwithout.
  rewrite foldl_app.
  assert (v = Z.land v (Z.lnot 0)) as Hv by (symmetry; apply Z.land_m1_r).
  rewrite Hv at 1. rewrite clear_loop by done.
  change (foldl clearFlag ?a (flag :: after))
    with (foldl clearFlag (clearFlag a flag) after).
  unfold clearFlag at 2.
  rewrite (decide_ext _ (hasFlag v flag))
    by (by apply hasFlag_after_clearing).
  case_decide.
  - by rewrite land_lnot_lor, clear_loop.
  - by rewrite clear_loop.
Qed.

(** What the second loop of readFlags leaves of a value. *)
Lemma clearFlags_known v :
  clearFlags v = Z.land v (Z.lnot (knownBits v)).
Proof.
  change (clearFlags v) with (foldl clearFlag v FILE_FLAGS_keys).
  change FILE_FLAGS_keys
    with ([O_RDONLY; O_WRONLY; O_RDWR; O_APPEND; O_NONBLOCK; O_NDELAY]
          ++ O_SYNC
          :: [O_ASYNC; O_DSYNC; O_NOATIME; O_CLOEXEC; S_IFIFO; S_IFCHR;
              S_IFDIR; S_IFBLK; S_IFREG; S_IFLNK; S_IFSOCK]).
  rewrite clear_around by reflexivity. reflexivity.
Qed.

(** X11: readFlags warns exactly when the value has a bit that no flag
    accounts for: a bit outside 0o3176003, where 0o4000000 is accounted for
    only when 0o10000 comes with it (O_SYNC).  Any bit outside 0o7176003
    raises the warning, and a string that holds no number decodes to
    O_RDONLY without a warning. *)
Theorem readFlags_warns_unknown_bits (octalStr : string) :
  let v := Js.toInt32 (Js.parseInt8 octalStr) in
  (readFlags_warns octalStr = true ↔ Z.land v (Z.lnot (knownBits v)) ≠ 0)
  ∧ (Z.land v (Z.lnot 1899523) ≠ 0 → readFlags_warns octalStr = true)
  ∧ (Js.parseInt8 octalStr = Js.NaN →
     readFlags octalStr = [O_RDONLY] ∧ readFlags_warns octalStr = false).
Proof.
  intros v. unfold readFlags_warns. fold v. rewrite clearFlags_known.
  split_and!.
  - rewrite negb_true_iff, Z.eqb_neq. done.
  - intros Hout. rewrite negb_true_iff, Z.eqb_neq. intros Hzero.
    apply Hout. unfold knownBits in Hzero. case_decide; [done|].
    apply Z.bits_inj'. intros n Hn.
    apply (f_equal (fun z => Z.testbit z n)) in Hzero.
    rewrite Z.land_spec, Z.lnot_spec, Z.bits_0 in Hzero by done.
    rewrite Z.land_spec, Z.lnot_spec, Z.bits_0 by done.
    change 1899523 with (Z.lor 850947 1048576). rewrite Z.lor_spec.
    destruct (Z.testbit v n), (Z.testbit 850947 n); simpl in *; congruence.
  - intros Hnan. unfold readFlags, v. rewrite Hnan. done.
Qed.

Lemma maskOf_keeps flags : ∀ mask value,
  Z.land mask value = value → Z.land (maskOf mask flags) value = value.
Proof.
  induction flags as [|flag flags IH]; intros mask value Hin; [done|].
  apply (IH (Z.lor mask (FILE_FLAGS flag))).
  rewrite Z.land_lor_distr_l, Hin.
  apply Z.bits_inj'. intros n Hn. rewrite Z.lor_spec, Z.land_spec.
  by destruct (Z.testbit value n), (Z.testbit (FILE_FLAGS flag) n).
Qed.

Lemma maskOf_has flags : ∀ mask flag,
  flag ∈ flags → hasFlag (maskOf mask flags) flag.
Proof.
  induction flags as [|first flags IH]; intros mask flag Hin.
  - by apply elem_of_nil in Hin.
  - apply elem_of_cons in Hin as [->|Hin]; [|by apply (IH _ flag)].
    apply (maskOf_keeps flags (Z.lor mask (FILE_FLAGS first))).
    rewrite Z.land_lor_distr_l, Z.land_diag.
    apply Z.bits_inj'. intros n Hn. rewrite Z.lor_spec, Z.land_spec.
    by destruct (Z.testbit mask n), (Z.testbit (FILE_FLAGS first) n).
Qed.

Lemma maskOf_accounted flags : ∀ mask,
  Z.land mask (Z.lnot 1899523) = 0 →
  (Z.testbit mask 20 = true → Z.testbit mask 12 = true) →
  Z.land (maskOf mask flags) (Z.lnot 1899523) = 0
  ∧ (Z.testbit (maskOf mask flags) 20 = true →
     Z.testbit (maskOf mask flags) 12 = true).
Proof.
  induction flags as [|flag flags IH]; intros mask Hin Hsync; [done|].
  apply (IH (Z.lor mask (FILE_FLAGS flag))).
  - rewrite Z.land_lor_distr_l, Hin. by destruct flag.
  - rewrite !Z.lor_spec. destruct flag; simpl;
      rewrite ?orb_false_r, ?orb_true_r; auto.
Qed.

(** X12: the value that sets the bits of a list of flags decodes to every
    flag of the list (O_RDONLY, whose value is 0, apart), and without a
    warning: the warning is never raised by a combination of known flags. *)
Theorem readFlags_of_known_flags (octalStr : string) (set : list FileFlag) :
  Js.toInt32 (Js.parseInt8 octalStr) = maskOf 0 set →
  (∀ flag, flag ∈ set → flag ≠ O_RDONLY → flag ∈ readFlags octalStr)
  ∧ readFlags_warns octalStr = false.
Proof.
  intros Hvalue. split.
  - intros flag Hin Hne. unfold readFlags. rewrite Hvalue.
    apply readFlagsOf_elem; [done|]. by apply maskOf_has.
  - unfold readFlags_warns. rewrite Hvalue, clearFlags_known.
    apply negb_false_iff, Z.eqb_eq.
    destruct (maskOf_accounted set 0) as [Hin Hsync]; [done..|].
    unfold knownBits. case_decide as Hhas; [done|].
    change (Z.lnot 850947) with (Z.lor (Z.lnot 1899523) (2 ^ 20)).
    rewrite Z.land_lor_distr_r, Hin, Z.lor_0_l, land_pow2 by done.
    destruct (Z.testbit (maskOf 0 set) 20) eqn:Hbit; [|done].
    destruct Hhas. unfold hasFlag.
    change (FILE_FLAGS O_SYNC) with (Z.lor (2 ^ 20) (2 ^ 12)).
    apply land_lor_both. rewrite !land_pow2, Hbit, Hsync by done. done.
Qed.

End FlagBits.

Lemma readFlags_of_known_flags_sample :
  Js.toInt32 (Js.parseInt8 "1100002") = maskOf 0 [O_RDWR; O_NOATIME; S_IFREG]
  ∧ (∀ flag, flag ∈ [O_RDWR; O_NOATIME; S_IFREG] → flag ≠ O_RDONLY →
     flag ∈ readFlags "1100002")
  ∧ readFlags_warns "1100002" = false.
Proof.
  split; [vm_compute; reflexivity|].
  apply (readFlags_of_known_flags "1100002" [O_RDWR; O_NOATIME; S_IFREG]).
  vm_compute. reflexivity.
Defined.

(** * Further properties of the session *)

Section Runs.

Variable cfg : Config.
Implicit Types (request : RunEventBody) (s : Session) (p : RunParams)
  (c : Container) (trace : list Effect).

Lemma filter_none {A} (P : A → Prop) `{∀ x, Decision (P x)} (xs : list A) :
  Forall (fun x => ¬ P x) xs → filter P xs = [].
Proof.
  induction 1 as [|x xs Hx _ IH]; [done|].
  rewrite filter_cons. by case_decide.
Qed.

(** What getRunParams returns, field by field. *)
Lemma getRunParams_accepted request p :
  (getRunParams cfg request).2 = inr p →
  p = {| rp_compiler := compilerOf (langOf cfg request);
         rp_cflags := cflagsOf cfg request;
         rp_code := default "" (code request);
         rp_argsStr := default "" (args request);
         rp_includeFileId := suppliedFileId request;
         rp_includeFileData := suppliedFileId request ≫= getFileContents cfg;
         rp_debug := debug request;
         rp_breakpoints := default [] (breakpoints request) |}
  ∧ Js.strlen (cflagsOf cfg request) <= CFLAGS_MAX_LEN cfg
  ∧ Js.strlen (default "" (code request)) <= CODE_MAX_LEN cfg
  ∧ Js.strlen (default "" (args request)) <= ARGS_MAX_LEN cfg
  ∧ (∀ id, suppliedFileId request = Some id →
           is_Some (getFileContents cfg id))
  ∧ (debug request = false → default [] (breakpoints request) = []).
Proof.
  unfold getRunParams.
  destruct (CFLAGS_MAX_LEN cfg <? _) eqn:H1; [done|]. apply Z.ltb_ge in H1.
  destruct (CODE_MAX_LEN cfg <? _) eqn:H2; [done|]. apply Z.ltb_ge in H2.
  destruct (ARGS_MAX_LEN cfg <? _) eqn:H3; [done|]. apply Z.ltb_ge in H3.
  destruct (suppliedFileId request) as [id|] eqn:Hid.
  - apply suppliedFileId_spec in Hid as [Hid Hne]. simpl.
    destruct (getFileContents cfg id) as [data|] eqn:Hdata.
    + destruct (negb _ && _) eqn:Hbp; [done|]. simpl.
      intros [= <-]. rewrite Hid. split_and!; try done.
      * intros id' [= <-]. rewrite Hdata. eauto.
      * intros Hdebug. rewrite Hdebug in Hbp. simpl in Hbp.
        apply bool_decide_eq_false in Hbp.
        destruct (default [] (breakpoints request)); [done|]. simpl in Hbp. lia.
    + rewrite (bool_decide_eq_true_2 (None = None)) by done. done.
  - simpl.
    destruct (negb _ && _) eqn:Hbp; [done|]. simpl.
    intros [= <-]. split_and!; try done.
    intros Hdebug. rewrite Hdebug in Hbp. simpl in Hbp.
    apply bool_decide_eq_false in Hbp.
    destruct (default [] (breakpoints request)); [done|]. simpl in Hbp. lia.
Qed.

(** The trace of getRunParams holds a warning and a query, nothing else. *)
Lemma getRunParams_quiet request :
  Forall (fun e => isWarning e ∨ ∃ id, e = DbGetFileContents id)
         (getRunParams cfg request).1.
Proof.
  destruct (getRunParams_cases cfg request) as [(queried & -> & Hq) _].
  apply Forall_app. split.
  - unfold flagWarning. case_decide; repeat constructor; simpl; tauto.
  - eapply Forall_impl; [exact Hq|]. intros e [id ->]. eauto.
Qed.

Lemma getRunParams_filter (P : Effect → Prop) `{∀ e, Decision (P e)} request :
  (∀ text, ¬ P (ConsoleWarn text)) →
  (∀ id, ¬ P (DbGetFileContents id)) →
  filter P (getRunParams cfg request).1 = [].
Proof.
  intros Hwarn Hquery. apply filter_none.
  eapply Forall_impl; [apply getRunParams_quiet|].
  intros e [Hw|[id ->]]; [|done]. by destruct e.
Qed.

(** X13: the parameters getRunParams returns respect the three maxima;
    they hold breakpoints only for a debug run; an include file id comes
    with the bytes ./db has for it, and is the non-empty id of the request;
    an empty id is no id; a missing program or argument string is the empty
    string. *)
Theorem getRunParams_returns request p :
  (getRunParams cfg request).2 = inr p →
  Js.strlen (rp_cflags p) <= CFLAGS_MAX_LEN cfg
  ∧ Js.strlen (rp_code p) <= CODE_MAX_LEN cfg
  ∧ Js.strlen (rp_argsStr p) <= ARGS_MAX_LEN cfg
  ∧ (rp_debug p = false → rp_breakpoints p = [])
  ∧ (rp_includeFileId p = None ↔ rp_includeFileData p = None)
  ∧ (∀ id, rp_includeFileId p = Some id →
           id ≠ "" ∧ includeFileId request = Some id
           ∧ rp_includeFileData p = getFileContents cfg id)
  ∧ (includeFileId request = Some "" → rp_includeFileId p = None)
  ∧ (code request = None → rp_code p = "")
  ∧ (args request = None → rp_argsStr p = "").
Proof.
  intros Hp. apply getRunParams_accepted in Hp
    as (-> & Hflags & Hcode & Hargs & Hfile & Hbp). simpl.
  split_and!; try done.
  - destruct (suppliedFileId request) as [id|] eqn:Hid; simpl; [|done].
    destruct (Hfile id eq_refl) as [data ->]. done.
  - intros id Hid. rewrite Hid. simpl.
    apply suppliedFileId_spec in Hid as [? ?]. done.
  - intros Hempty. unfold suppliedFileId. rewrite Hempty. done.
  - by intros ->.
  - by intros ->.
Qed.

(** X14: a run that is accepted on a session without a container stores
    the program and then the run in ./db, tells the client the alias of the
    program, and constructs one container, in this order; the container
    runs what was stored, within the maxima, on a terminal that has rows
    and columns; the session then holds the container and the id of the
    run. *)
Theorem startContainer_accepted request s p :
  container s = None →
  (getRunParams cfg request).2 = inr p →
  let row := insertProgram cfg (rp_compiler p) (rp_cflags p) (rp_code p)
               (rp_argsStr p) (rp_includeFileId p) (sourceIP s) (sourceUA s) in
  let result := startContainer cfg request s in
  ∃ c,
    container result.1 = Some c
    ∧ runId result.1 = Some (createRun cfg row.1 (sourceIP s) (sourceUA s))
    ∧ filter (fun e => persists e ∨ constructsContainer e) result.2
      = [DbInsertProgram (c_compiler c) (c_cflags c) (c_code c) (c_argsStr c)
           (rp_includeFileId p) (sourceIP s) (sourceUA s);
         DbCreateRun row.1 (sourceIP s) (sourceUA s);
         NewContainer c]
    ∧ filter isSaved result.2 = [SocketEmitSaved row.2]
    ∧ validated cfg c
    ∧ c_includeFileData c = rp_includeFileData p
    ∧ SocketDisconnect ∉ result.2.
Proof.
  intros Hidle Hp row result.
  pose proof (getRunParams_filter
                (fun e => persists e ∨ constructsContainer e) request)
    as Hquiet.
  pose proof (getRunParams_filter isSaved request) as Hsaved.
  pose proof (getRunParams_quiet request) as Hconnected.
  destruct (getRunParams_accepted request p Hp)
    as (Hfields & Hflags & Hcode & Hargs & _ & Hbp).
  unfold result, startContainer. rewrite Hidle.
  destruct (getRunParams cfg request) as [effects [exc|p']] eqn:Hrun;
    simpl in Hp; [done|]. injection Hp as ->. simpl in *.
  eexists. split_and!; [done|done| | | | |].
  - rewrite filter_app, Hquiet; [done|simpl; tauto..].
  - rewrite filter_app, Hsaved; [done|simpl; tauto..].
  - unfold validated. simpl. rewrite Hfields. simpl.
    split_and!; try done.
    + unfold orDefault. destruct (rows request) as [v|]; [|done].
      destruct (Z.eqb_spec v 0); done.
    + unfold orDefault. destruct (cols request) as [v|]; [|done].
      destruct (Z.eqb_spec v 0); done.
  - done.
  - rewrite elem_of_app. intros [Hin|Hin].
    + rewrite Forall_forall in Hconnected.
      by destruct (Hconnected _ Hin) as [?|[? ?]].
    + repeat (apply elem_of_cons in Hin as [Hin|Hin]; [discriminate|]).
      by apply elem_of_nil in Hin.
Qed.

(** X15: the flags that are not whitelisted have no effect but the warning:
    two requests that differ only in their flags and keep the same
    whitelisted ones are validated alike, and leave a session and its
    collaborators in the same state, the console apart. *)
Theorem startContainer_ignores_dropped_flags r1 r2 s :
  sameButFlags r1 r2 →
  suppliedCflagsOf cfg r1 = suppliedCflagsOf cfg r2 →
  (getRunParams cfg r1).2 = (getRunParams cfg r2).2
  ∧ (startContainer cfg r1 s).1 = (startContainer cfg r2 s).1
  ∧ filter (fun e => ¬ isWarning e) (startContainer cfg r1 s).2
    = filter (fun e => ¬ isWarning e) (startContainer cfg r2 s).2.
Proof.
  intros (Hlang & Hcode & Hargs & Hfile & Hdebug & Hbp & Hrows & Hcols) Hsup.
  assert (∀ r, filter (fun e => ¬ isWarning e) (flagWarning cfg r) = [])
    as Hwarn.
  { intros r. unfold flagWarning. by case_decide. }
  assert (∃ rest outcome,
            getRunParams cfg r1 = (flagWarning cfg r1 ++ rest, outcome)
            ∧ getRunParams cfg r2 = (flagWarning cfg r2 ++ rest, outcome))
    as (rest & outcome & H1 & H2).
  { unfold getRunParams, cflagsOf, langOf, suppliedFileId.
    rewrite <- Hsup, <- Hlang, <- Hcode, <- Hargs, <- Hfile, <- Hdebug, <- Hbp.
    repeat (case_match; simplify_eq);
      try (by eexists [], _; rewrite !app_nil_r);
      by eexists _, _. }
  split_and!.
  - by rewrite H1, H2.
  - unfold startContainer. rewrite H1, H2, <- Hrows, <- Hcols.
    by repeat case_match.
  - unfold startContainer. rewrite H1, H2, <- Hrows, <- Hcols.
    destruct (container s); [done|].
    destruct outcome; simpl; by rewrite !filter_app, !Hwarn.
Qed.

End Runs.

Lemma getRunParams_returns_debug :
  (getRunParams config debugRequest).2
  = inr {| rp_compiler := gpp; rp_cflags := "-std=c++14 -O0";
           rp_code := "int main(){}"; rp_argsStr := "1 2";
           rp_includeFileId := Some "upload-1";
           rp_includeFileData := Some "#define N 3";
           rp_debug := true; rp_breakpoints := [1] |}
  ∧ Js.strlen "-std=c++14 -O0" <= CFLAGS_MAX_LEN config.
Proof.
  assert ((getRunParams config debugRequest).2
          = inr {| rp_compiler := gpp; rp_cflags := "-std=c++14 -O0";
                   rp_code := "int main(){}"; rp_argsStr := "1 2";
                   rp_includeFileId := Some "upload-1";
                   rp_includeFileData := Some "#define N 3";
                   rp_debug := true; rp_breakpoints := [1] |}) as Hp
    by (vm_compute; reflexivity).
  split; [exact Hp|].
  destruct (getRunParams_returns config debugRequest _ Hp) as [Hlen _].
  exact Hlen.
Defined.

Lemma startContainer_accepted_debug :
  ∃ c, container (startContainer config debugRequest idle).1 = Some c
       ∧ c_rows c = 24 ∧ c_cols c = 120 ∧ validated config c.
Proof.
  assert ((getRunParams config debugRequest).2
          = inr {| rp_compiler := gpp; rp_cflags := "-std=c++14 -O0";
                   rp_code := "int main(){}"; rp_argsStr := "1 2";
                   rp_includeFileId := Some "upload-1";
                   rp_includeFileData := Some "#define N 3";
                   rp_debug := true; rp_breakpoints := [1] |}) as Hp
    by (vm_compute; reflexivity).
  destruct (startContainer_accepted config debugRequest idle _ eq_refl Hp)
    as (c & Hc & _ & _ & _ & Hvalid & _).
  exists c. split; [exact Hc|].
  assert (Some c = Some (containerOf
            {| lr_alias := "alias-7"; lr_runId := 42;
               lr_params := {| rp_compiler := gpp;
                               rp_cflags := "-std=c++14 -O0";
                               rp_code := "int main(){}"; rp_argsStr := "1 2";
                               rp_includeFileId := Some "upload-1";
                               rp_includeFileData := Some "#define N 3";
                               rp_debug := true; rp_breakpoints := [1] |};
               lr_rows := 24; lr_cols := 120 |} idle)) as [= ->]
    by (rewrite <- Hc; vm_compute; reflexivity).
  split; [reflexivity|]. split; [reflexivity|]. exact Hvalid.
Defined.

Lemma startContainer_ignores_dropped_flags_debug :
  sameButFlags debugRequest debugRequestWhitelisted
  ∧ (startContainer config debugRequest idle).1
    = (startContainer config debugRequestWhitelisted idle).1.
Proof.
  assert (sameButFlags debugRequest debugRequestWhitelisted) as Hsame
    by (apply (bool_decide_unpack _); vm_compute; exact I).
  split; [exact Hsame|].
  destruct (startContainer_ignores_dropped_flags config debugRequest
              debugRequestWhitelisted idle Hsame) as (_ & Hstate & _).
  - vm_compute. reflexivity.
  - exact Hstate.
Defined.

(** ** The session as a transition system *)

Section Sessions.

Variable cfg : Config.
Implicit Types (request : RunEventBody) (s : Session) (p : RunParams)
  (c : Container) (sv : Server) (history trace effects : list Effect).

Lemma socketDisconnect_quiet s : Forall quietEffect (socketDisconnect s).
Proof.
  unfold socketDisconnect, onSocketDisconnect.
  destruct (container s);
    repeat (constructor; [split; [by intros []|by intros ? ? ?]|]);
    constructor.
Qed.

Ltac quiet :=
  repeat first
    [ exact (socketDisconnect_quiet _)
    | constructor; [split; [by intros []|by intros ? ? ?]|] ];
  try constructor.

Lemma app_eq_app_cons {A} (h effects t1 t2 : list A) (x : A) :
  h ++ effects = t1 ++ x :: t2 →
  (∃ t2', h = t1 ++ x :: t2')
  ∨ (∃ before, t1 = h ++ before ∧ effects = before ++ x :: t2).
Proof.
  revert t1. induction h as [|y h IH]; intros t1 Heq.
  - right. by exists t1.
  - destruct t1 as [|z t1]; simpl in Heq.
    + injection Heq as -> <-. left. by exists h.
    + injection Heq as -> Heq.
      destruct (IH t1 Heq) as [[t2' ->]|(before & -> & ->)].
      * left. by exists t2'.
      * right. by exists before.
Qed.

Lemma accountable_quiet history effects :
  accountable cfg history → Forall quietEffect effects →
  accountable cfg (history ++ effects).
Proof.
  intros [Hnew Hupdate] Hquiet. rewrite Forall_forall in Hquiet. split.
  - intros t1 c t2 Heq.
    apply app_eq_app_cons in Heq as [[t2' ->]|(before & -> & ->)].
    + by apply (Hnew t1 c t2').
    + destruct (Hquiet (NewContainer c)) as [Hno _]; [|by destruct Hno].
      apply elem_of_app. right. left.
  - intros ms st out [Hin|Hin]%elem_of_app.
    + by apply (Hupdate ms st out).
    + by destruct (Hquiet _ Hin) as [_ Hno]; destruct (Hno ms st out).
Qed.

Lemma accountable_new history c :
  accountable cfg history →
  (∃ e, e ∈ history ∧ persistedAs c e) → validated cfg c →
  accountable cfg (history ++ [NewContainer c]).
Proof.
  intros [Hnew Hupdate] Hstored Hvalid. split.
  - intros t1 c' t2 Heq.
    apply app_eq_app_cons in Heq as [[t2' ->]|(before & -> & Heq)].
    + by apply (Hnew t1 c' t2').
    + destruct before as [|e before]; simpl in Heq.
      * injection Heq as <- _. by rewrite app_nil_r.
      * injection Heq as _ Heq. by destruct before.
  - intros ms st out [Hin|Hin]%elem_of_app.
    + by apply (Hupdate ms st out).
    + apply list_elem_of_singleton in Hin. done.
Qed.

(** The first part of a run: its effects construct nothing, and a run that
    waits for its last callback was validated and stored. *)
Lemma startContainer_request_spec request s :
  Forall quietEffect (startContainer_request cfg request s).1
  ∧ ∀ run s', (startContainer_request cfg request s).2 = Some run →
      (∃ e, e ∈ (startContainer_request cfg request s).1
            ∧ persistedAs (containerOf run s') e)
      ∧ validated cfg (containerOf run s').
Proof.
  assert (Forall quietEffect (getRunParams cfg request).1) as Hquiet.
  { eapply Forall_impl; [apply getRunParams_quiet|].
    intros e [Hw|[id ->]]; [destruct e; try done|];
      (split; [by intros []|by intros ? ? ?]). }
  pose proof (getRunParams_accepted cfg request) as Hp.
  unfold startContainer_request. destruct (container s) as [held|].
  { split; [quiet|done]. }
  destruct (getRunParams cfg request) as [effects [exc|p]]; simpl in *.
  { split; [|done]. apply Forall_app. split; [done|]. quiet. }
  split.
  { apply Forall_app. split; [done|]. quiet. }
  intros run s' [= <-].
  destruct (Hp p eq_refl) as (Hfields & Hflags & Hcode & Hargs & _ & Hbp).
  split.
  - eexists. split; [apply elem_of_app; right; left|].
    by eexists _, _, _.
  - unfold validated. simpl. rewrite Hfields. simpl. split_and!; try done.
    + unfold orDefault. destruct (rows request) as [v|]; [|done].
      by destruct (Z.eqb_spec v 0).
    + unfold orDefault. destruct (cols request) as [v|]; [|done].
      by destruct (Z.eqb_spec v 0).
Qed.

Lemma step_sessionInv ev sv sv' history effects :
  sessionInv cfg sv history →
  step cfg ev sv = Some (sv', effects) →
  sessionInv cfg sv' (history ++ effects).
Proof.
  intros (Htrace & Hpending & Hrun) Hstep.
  assert (∀ r : Session * list Effect,
            Forall quietEffect r.2 → r.1 = session sv →
            sessionInv cfg
              {| session := r.1; pending := pending sv; live := live sv |}
              (history ++ r.2)) as Hhandler.
  { intros r Hquiet Hsame. split_and!; simpl.
    - by apply accountable_quiet.
    - intros run s Hin. destruct (Hpending run s Hin) as [(e & He & Hp) Hv].
      split; [|done]. exists e. split; [|done]. apply elem_of_app. by left.
    - by rewrite Hsame. }
  destruct ev as [request|i|data|rows cols| |call outcome|connected data];
    simpl in Hstep.
  - injection Hstep as <- <-.
    destruct (startContainer_request_spec request (session sv))
      as [Hquiet Hlogged].
    split_and!; simpl.
    + by apply accountable_quiet.
    + intros run s [Hin|Hin]%elem_of_app.
      * destruct (Hpending run s Hin) as [(e & He & Hp) Hv].
        split; [|done]. exists e. split; [|done]. apply elem_of_app. by left.
      * destruct (startContainer_request cfg request (session sv)).2
          as [run'|] eqn:Hsome; simpl in Hin; [|by apply elem_of_nil in Hin].
        apply list_elem_of_singleton in Hin as ->.
        destruct (Hlogged run' s eq_refl) as [(e & He & Hp) Hv].
        split; [|done]. exists e. split; [|done]. apply elem_of_app. by right.
    + done.
  - destruct (pending sv !! i) as [run|] eqn:Hrun'; [|done].
    injection Hstep as <- <-.
    apply list_elem_of_lookup_2 in Hrun'.
    destruct (Hpending run (session sv) Hrun') as [Hstored Hvalid].
    split_and!; simpl.
    + change [ConsoleLog (logPrefix (session sv) +:+ "Run logged with ID "
                          +:+ pretty (lr_runId run));
              SocketEmitSaved (lr_alias run);
              NewContainer (containerOf run (session sv))]
        with ([ConsoleLog (logPrefix (session sv) +:+ "Run logged with ID "
                           +:+ pretty (lr_runId run));
               SocketEmitSaved (lr_alias run)]
              ++ [NewContainer (containerOf run (session sv))]).
      rewrite app_assoc. apply accountable_new; [|
        destruct Hstored as (e & He & Hp); exists e; split; [|done];
        apply elem_of_app; by left|done].
      apply accountable_quiet; [done|]. quiet.
    + intros run' s Hin%list_elem_of_delete_inv.
      destruct (Hpending run' s Hin) as [(e & He & Hp) Hv].
      split; [|done]. exists e. split; [|done]. apply elem_of_app. by left.
    + done.
  - injection Hstep as <- <-.
    apply (Hhandler (onStdinReceived data (session sv))).
    + unfold onStdinReceived. destruct (container _); quiet.
    + unfold onStdinReceived. by destruct (container _).
  - injection Hstep as <- <-.
    apply (Hhandler (onTerminalResize rows cols (session sv))); [|done].
    unfold onTerminalResize. destruct (container _); quiet.
  - injection Hstep as <- <-.
    apply (Hhandler (onSocketDisconnect (session sv))); [|done].
    unfold onSocketDisconnect. destruct (container _); quiet.
  - injection Hstep as <- <-.
    apply (Hhandler
             (makeDebugHandler (gdbCommand call outcome) () (session sv)).1).
    + unfold makeDebugHandler, gdbCommand.
      destruct (container _); [|quiet].
      destruct outcome as [[]|]; quiet.
    + unfold makeDebugHandler, gdbCommand.
      destruct (container _); [|done]. by destruct outcome as [[]|].
  - destruct (live sv) as [|n] eqn:Hlive; [done|].
    injection Hstep as <- <-.
    assert (runId (session sv) ≠ None) as Hid by (apply Hrun; left; lia).
    split_and!; simpl.
    + apply accountable_quiet; [done|].
      apply Forall_app. split; [destruct connected; quiet|].
      constructor; [|done]. split; [by intros []|].
      intros ms st out [= Hnone]. done.
    + intros run s Hin. destruct (Hpending run s Hin) as [(e & He & Hp) Hv].
      split; [|done]. exists e. split; [|done]. apply elem_of_app. by left.
    + done.
Qed.

Lemma exec_sessionInv events : ∀ sv sv' history trace,
  sessionInv cfg sv history →
  exec cfg events sv = Some (sv', trace) →
  sessionInv cfg sv' (history ++ trace).
Proof.
  induction events as [|ev events IH]; intros sv sv' history trace Hinv Hexec;
    simpl in Hexec.
  - injection Hexec as <- <-. by rewrite app_nil_r.
  - destruct (step cfg ev sv) as [[sv1 effects]|] eqn:Hstep; [|done].
    destruct (exec cfg events sv1) as [[sv2 effects']|] eqn:Hrest; [|done].
    injection Hexec as <- <-. rewrite app_assoc.
    apply (IH sv1); [|done]. by apply (step_sessionInv ev sv).
Qed.

(** X16: whatever events a session handles, in whatever order the last
    callbacks of its runs come: every container it constructs was
    validated (flags, program and arguments within their maxima,
    breakpoints only with debug, a terminal with rows and columns) and runs
    a program that ./db was given before the container was constructed; no
    exit is recorded in ./db under an undefined run id; and a session that
    holds a container has the id of a run. *)
Theorem session_accountable (ip ua prefix : string) events sv trace :
  exec cfg events (opened ip ua prefix) = Some (sv, trace) →
  (∀ t1 c t2, trace = t1 ++ NewContainer c :: t2 →
     (∃ e, e ∈ t1 ∧ persistedAs c e) ∧ validated cfg c)
  ∧ (∀ ms st out, DbUpdateRun None ms st out ∉ trace)
  ∧ (container (session sv) ≠ None → runId (session sv) ≠ None).
Proof.
  intros Hexec.
  assert (sessionInv cfg (opened ip ua prefix) []) as Hinit.
  { split_and!; simpl.
    - split; [by intros [|? ?] ? ? ?|]. intros ms st out Hin.
      by apply elem_of_nil in Hin.
    - intros run s Hin. by apply elem_of_nil in Hin.
    - intros [?|?]; [lia|done]. }
  destruct (exec_sessionInv events _ _ _ _ Hinit Hexec)
    as ([Hnew Hupdate] & _ & Hrun).
  split_and!; [exact Hnew|exact Hupdate|]. intros Hheld. apply Hrun. by right.
Qed.

(** X17: the guard of startContainer does not serialize the runs of a
    session.  When the last callback of a run comes before any other
    event, the two parts of the run are startContainer as a whole.  But
    a second run event that arrives before it is let through: two
    containers are constructed, the session holds the second, and a
    disconnect shuts down one container only.  And a run whose last
    callback comes after the disconnect constructs its container after it,
    and no shutdown is ever called on it. *)
Theorem runs_overlap (ip ua prefix : string) r1 r2 p1 p2 :
  (getRunParams cfg r1).2 = inr p1 →
  (getRunParams cfg r2).2 = inr p2 →
  let fresh := opened ip ua prefix in
  (∀ s, container s = None →
     exec cfg [EvRun r1; EvLogged 0]
          {| session := s; pending := []; live := 0 |}
     = Some ({| session := (startContainer cfg r1 s).1; pending := [];
                live := 1 |},
             (startContainer cfg r1 s).2))
  ∧ (∃ sv trace,
       exec cfg [EvRun r1; EvRun r2; EvLogged 0; EvLogged 0; EvDisconnect]
            fresh = Some (sv, trace)
       ∧ length (filter constructsContainer trace) = 2%nat
       ∧ shutdownCalls trace = 1%nat
       ∧ live sv = 2%nat ∧ pending sv = [])
  ∧ (∃ sv trace c,
       exec cfg [EvRun r1; EvDisconnect; EvLogged 0] fresh = Some (sv, trace)
       ∧ last trace = Some (NewContainer c)
       ∧ shutdownCalls trace = 0%nat
       ∧ container (session sv) = Some c).
Proof.
  intros H1 H2 fresh.
  pose proof (getRunParams_filter cfg constructsContainer r1) as Hc1.
  pose proof (getRunParams_filter cfg constructsContainer r2) as Hc2.
  pose proof (getRunParams_filter cfg isShutdown r1) as Hs1.
  pose proof (getRunParams_filter cfg isShutdown r2) as Hs2.
  destruct (getRunParams cfg r1) as [e1 [?|p1']] eqn:Hrun1; simpl in H1;
    [done|]. injection H1 as ->.
  destruct (getRunParams cfg r2) as [e2 [?|p2']] eqn:Hrun2; simpl in H2;
    [done|]. injection H2 as ->.
  simpl in *. split_and!.
  - intros s Hidle. unfold exec, step, startContainer_request, startContainer.
    simpl. rewrite Hidle, Hrun1. simpl. by rewrite <- app_assoc.
  - unfold exec, step, startContainer_request, fresh. simpl.
    rewrite Hrun1, Hrun2. simpl. eexists _, _. split; [reflexivity|].
    unfold shutdownCalls. simpl.
    rewrite !filter_app, Hc1, Hc2, Hs1, Hs2 by (simpl; tauto). done.
  - unfold exec, step, startContainer_request, fresh. simpl.
    rewrite Hrun1. simpl. eexists _, _, _. split; [reflexivity|].
    unfold shutdownCalls. simpl.
    rewrite !filter_app, Hs1 by (simpl; tauto). split_and!; [|done|done].
    by rewrite last_app.
Qed.

End Sessions.

(** A debug run with its last callback delayed past the client's input. *)
Lemma session_accountable_debug :
  ∃ sv trace,
    exec config [EvRun debugRequest; EvData "x"; EvLogged 0;
                 EvExit true exitNotification]
         (opened "203.0.113.9" "agent" "[s1] ") = Some (sv, trace)
    ∧ ∀ ms st out, DbUpdateRun None ms st out ∉ trace.
Proof.
  eexists _, _. split; [vm_compute; reflexivity|].
  destruct (session_accountable config "203.0.113.9" "agent" "[s1] "
              [EvRun debugRequest; EvData "x"; EvLogged 0;
               EvExit true exitNotification] _ _ eq_refl)
    as (_ & Hupdate & _).
  exact Hupdate.
Defined.

(** C8: the session does not keep to one container at a time.  The guard
    of startContainer reads [this.container], which a run assigns in its
    last callback only.  [debugRequestWhitelisted], arriving after
    [request] and before that callback, finds the reference null: the
    warning of the guard is not given, the request is validated and stored
    like the first, and a second container is constructed while the first
    has not exited.  The session then holds the second container only. *)
Theorem startContainer_admits_second_run :
  let fresh := opened "203.0.113.9" "agent" "[s1] " in
  let events :=
    [EvRun request; EvRun debugRequestWhitelisted; EvLogged 0; EvLogged 0] in
  (∃ sv1 trace1, exec config [EvRun request] fresh = Some (sv1, trace1)
                 ∧ container (session sv1) = None
                 ∧ length (pending sv1) = 1%nat)
  ∧ ∃ sv trace,
      exec config events fresh = Some (sv, trace)
      ∧ Forall (fun e => ¬ isWarning e) trace
      ∧ length (filter persists trace) = 4%nat
      ∧ filter constructsContainer trace
        = [NewContainer held; NewContainer heldDebug]
      ∧ live sv = 2%nat
      ∧ container (session sv) = Some heldDebug.
Proof.
  split.
  - eexists _, _. split; [reflexivity|]. split; reflexivity.
  - eexists _, _. split; [reflexivity|]. split_and!; try reflexivity.
    apply (bool_decide_unpack _). vm_compute. exact I.
Qed.

Lemma runs_overlap_sample :
  ∃ sv trace,
    exec config [EvRun request; EvRun debugRequest; EvLogged 0; EvLogged 0;
                 EvDisconnect]
         (opened "203.0.113.9" "agent" "[s1] ") = Some (sv, trace)
    ∧ length (filter constructsContainer trace) = 2%nat
    ∧ shutdownCalls trace = 1%nat.
Proof.
  destruct (runs_overlap config "203.0.113.9" "agent" "[s1] "
              request debugRequest
              {| rp_compiler := gcc; rp_cflags := "-std=c99 -O2 -Wall";
                 rp_code := "int main(){}"; rp_argsStr := "";
                 rp_includeFileId := None; rp_includeFileData := None;
                 rp_debug := false; rp_breakpoints := [] |}
              {| rp_compiler := gpp; rp_cflags := "-std=c++14 -O0";
                 rp_code := "int main(){}"; rp_argsStr := "1 2";
                 rp_includeFileId := Some "upload-1";
                 rp_includeFileData := Some "#define N 3";
                 rp_debug := true; rp_breakpoints := [1] |})
    as (_ & (sv & trace & Hexec & Hnew & Hshut & _) & _).
  - vm_compute. reflexivity.
  - vm_compute. reflexivity.
  - exists sv, trace. split; [exact Hexec|]. split; [exact Hnew|exact Hshut].
Defined.

(** * Further properties of the loader *)

Section Loading.

Variable toNumber : string → Z.
Implicit Types (namespaces : RawInfoByNamespace) (st : Loader)
  (line : string) (lines : list string) (process : RawProcessInfo)
  (processes : RawContainerInfo).

Lemma namespaceAt_elem id processes namespaces :
  NoDup namespaces.*1 →
  (id, processes) ∈ namespaces ↔ namespaceAt id namespaces = Some processes.
Proof.
  induction namespaces as [|[k m] namespaces IH]; simpl; intros Hnodup.
  - split; [by intros ?%elem_of_nil|done].
  - apply NoDup_cons in Hnodup as [Hk Hnodup]. rewrite elem_of_cons.
    case_decide as Heq.
    + subst k. split; [|intros [= ->]; by left].
      intros [[= ->]|Hin]; [done|]. destruct Hk.
      apply list_elem_of_fmap. by exists (id, processes).
    + rewrite <- (IH Hnodup). split; [|by right].
      by intros [[= -> ->]|?].
Qed.

Lemma storeProcess_keys process namespaces :
  (storeProcess process namespaces).*1
  = if decide (namespaceID process ∈ namespaces.*1) then namespaces.*1
    else namespaces.*1 ++ [namespaceID process].
Proof.
  induction namespaces as [|[k m] namespaces IH]; simpl.
  - done.
  - destruct (decide (k = namespaceID process)) as [->|Hk];
      rewrite !fmap_cons; cbn [fst].
    + by rewrite decide_True by left.
    + rewrite IH. destruct (decide (_ ∈ namespaces.*1)) as [Hin|Hnot].
      * by rewrite decide_True by (by right).
      * rewrite decide_False; [done|]. rewrite not_elem_of_cons. by split.
Qed.

Lemma namespaceAt_storeProcess process namespaces id :
  namespaceAt id (storeProcess process namespaces)
  = if decide (id = namespaceID process)
    then Some (<[containerPID process := process]>
                 (default ∅ (namespaceAt id namespaces)))
    else namespaceAt id namespaces.
Proof.
  induction namespaces as [|[k m] namespaces IH]; simpl.
  - destruct (decide (namespaceID process = id)) as [<-|Hne].
    + by rewrite decide_True.
    + by rewrite decide_False.
  - destruct (decide (k = namespaceID process)) as [->|Hk]; simpl.
    + destruct (decide (namespaceID process = id)) as [<-|Hne].
      * by rewrite decide_True.
      * by rewrite decide_False.
    + destruct (decide (k = id)) as [->|Hne].
      * by rewrite decide_False.
      * apply IH.
Qed.

Lemma Forall_storeProcess (P : string * RawContainerInfo → Prop)
    process namespaces :
  Forall P namespaces →
  P (namespaceID process,
     <[containerPID process := process]>
       (default ∅ (namespaceAt (namespaceID process) namespaces))) →
  Forall P (storeProcess process namespaces).
Proof.
  induction 1 as [|[k m] namespaces Hm Hrest IH]; simpl; intros Hnew.
  - by repeat constructor.
  - destruct (decide (k = namespaceID process)) as [->|Hk].
    + constructor; [done|done].
    + constructor; [done|]. by apply IH.
Qed.

Lemma loaded_storeProcess process namespaces :
  map_Forall (fun k f => fd f = k) (files process) →
  loaded namespaces → loaded (storeProcess process namespaces).
Proof.
  intros Hfiles [Hnodup Hall]. split.
  - rewrite storeProcess_keys. case_decide as Hin; [done|].
    apply NoDup_app. split_and!; [done| |apply NoDup_singleton].
    intros id Hid ->%list_elem_of_singleton. done.
  - apply Forall_storeProcess; [done|]. simpl.
    set (seen := default ∅ (namespaceAt (namespaceID process) namespaces)).
    assert (keyedByContainerPID seen ∧ filesKeyedByFd seen
            ∧ map_Forall (fun _ p => namespaceID p = namespaceID process) seen)
      as (Hkeyed & Hfds & Hns).
    { unfold seen.
      destruct (namespaceAt _ namespaces) as [m|] eqn:Hat; simpl.
      - apply namespaceAt_elem in Hat; [|done].
        rewrite Forall_forall in Hall.
        by destruct (Hall _ Hat) as (_ & ? & ? & ?).
      - split_and!; apply map_Forall_empty. }
    split_and!.
    + apply insert_non_empty.
    + by apply map_Forall_insert_2.
    + by apply map_Forall_insert_2.
    + by apply map_Forall_insert_2.
Qed.

Lemma ownEntries_perm {A} (created : list (string * A)) :
  Js.ownEntries created ≡ₚ created.
Proof.
  unfold Js.ownEntries. rewrite merge_sort_Permutation.
  apply filter_app_complement.
Qed.

Lemma elem_of_ownEntries {A} (x : string * A) created :
  x ∈ Js.ownEntries created ↔ x ∈ created.
Proof. by rewrite ownEntries_perm. Qed.

Lemma loaded_storeNamed process namespaces :
  map_Forall (fun k f => fd f = k) (files process) →
  loaded namespaces → loaded (storeNamed process namespaces).
Proof.
  intros Hfiles Hloaded. unfold storeNamed. case_decide; [done|].
  by apply loaded_storeProcess.
Qed.

Lemma own_storeNamed process namespaces :
  Forall (fun ns : string * RawContainerInfo => ¬ Js.inherited ns.1)
         namespaces →
  Forall (fun ns : string * RawContainerInfo => ¬ Js.inherited ns.1)
         (storeNamed process namespaces).
Proof.
  intros Hown. unfold storeNamed. case_decide as Hid; [done|].
  by apply Forall_storeProcess.
Qed.

Lemma namespaceAt_storeNamed process namespaces :
  ¬ Js.inherited (namespaceID process) →
  namespaceAt (namespaceID process) (storeNamed process namespaces)
    ≫= (fun processes => processes !! containerPID process)
  = Some process.
Proof.
  intros Hid. unfold storeNamed. rewrite decide_False by done.
  rewrite namespaceAt_storeProcess, decide_True by done. simpl.
  apply lookup_insert_eq.
Qed.

Lemma loadLine_inv st line :
  loaderInv st →
  ∃ st', loadLine toNumber st line = inr st' ∧ loaderInv st'.
Proof.
  intros (Hloaded & Hown & Hcurr & Halias). unfold loadLine.
  destruct (ld_readingProcessLine st) eqn:Hreading.
  - eexists. split; [done|].
    split_and!; cbn [ld_namespaces ld_readingProcessLine ld_currProcess].
    + apply loaded_storeNamed; [apply map_Forall_empty|done].
    + by apply own_storeNamed.
    + eauto.
    + intros currProcess [= <-]. split; [apply map_Forall_empty|].
      apply namespaceAt_storeNamed.
  - case_decide as Hblank.
    + eexists. split; [done|]. split_and!; simpl; [done|done|done|exact Halias].
    + destruct (Hcurr eq_refl) as [currProcess Hsome].
      rewrite Hsome. destruct (Halias _ Hsome) as [Hfiles Hstored].
      eexists. split; [done|].
      split_and!; cbn [ld_namespaces ld_readingProcessLine ld_currProcess].
      * apply loaded_storeNamed; [|done].
        by apply (storeFile_keyed currProcess).
      * by apply own_storeNamed.
      * eauto.
      * intros stored [= <-]. split; [by apply (storeFile_keyed currProcess)|].
        apply namespaceAt_storeNamed.
Qed.

Lemma loader_loop lines : ∀ st,
  loaderInv st →
  ∃ st', forOf lines (loadLine toNumber) st = inr st' ∧ loaderInv st'.
Proof.
  induction lines as [|line lines IH]; intros st Hinv; simpl.
  - eauto.
  - destruct (loadLine_inv st line Hinv) as (st1 & -> & Hinv1). simpl.
    by apply IH.
Qed.

Lemma loaderStart_inv : loaderInv loaderStart.
Proof.
  split_and!; simpl; [|done|done|done].
  split; simpl; [apply NoDup_nil_2|apply Forall_nil_2].
Qed.


Lemma distinct_insert processes k process :
  distinctGlobalPIDs processes →
  (∀ k' p, k' ≠ k → processes !! k' = Some p →
           globalPID p ≠ globalPID process) →
  distinctGlobalPIDs (<[k := process]> processes).
Proof.
  intros Hdistinct Hfresh k1 k2 p1 p2 H1 H2 Heq.
  destruct (decide (k1 = k)) as [->|Hk1], (decide (k2 = k)) as [->|Hk2];
    [done| | |].
  - rewrite lookup_insert_eq in H1. rewrite lookup_insert_ne in H2 by done.
    injection H1 as <-. by destruct (Hfresh k2 p2 Hk2 H2).
  - rewrite lookup_insert_eq in H2. rewrite lookup_insert_ne in H1 by done.
    injection H2 as <-. by destruct (Hfresh k1 p1 Hk1 H1).
  - rewrite lookup_insert_ne in H1, H2 by done.
    by apply (Hdistinct k1 k2 p1 p2).
Qed.

Lemma loadLine_distinct st line :
  loaderInv st →
  (Forall (fun w => ¬ isRepeatedGlobalPID w) (ld_warnings st) →
   Forall (fun ns => distinctGlobalPIDs ns.2) (ld_namespaces st)) →
  ∃ st', loadLine toNumber st line = inr st'
         ∧ (Forall (fun w => ¬ isRepeatedGlobalPID w) (ld_warnings st') →
            Forall (fun ns => distinctGlobalPIDs ns.2) (ld_namespaces st')).
Proof.
  intros ([Hnodup Hall] & Hown & Hcurr & Halias) Hbefore. unfold loadLine.
  assert (∀ id, distinctGlobalPIDs (default ∅ (namespaceAt id (ld_namespaces st)))
                ∨ ¬ Forall (fun w => ¬ isRepeatedGlobalPID w) (ld_warnings st))
    as Hseen.
  { intros id.
    destruct (decide (Forall (fun w => ¬ isRepeatedGlobalPID w)
                             (ld_warnings st))) as [Hquiet|]; [left|by right].
    destruct (namespaceAt id _) as [m|] eqn:Hat; simpl.
    - apply namespaceAt_elem in Hat; [|done].
      specialize (Hbefore Hquiet). rewrite Forall_forall in Hbefore.
      by apply (Hbefore (id, m)).
    - by intros ? ? ? ? ?. }
  destruct (ld_readingProcessLine st) eqn:Hreading.
  - eexists. split; [reflexivity|]. cbn [ld_warnings ld_namespaces].
    intros [Hquiet [_ Hglobal]%Forall_app]%Forall_app.
    unfold storeNamed.
    destruct (decide (Js.inherited _)) as [Hid|Hid]; [by apply Hbefore|].
    apply Forall_storeProcess; [by apply Hbefore|]. cbn [snd].
    destruct (Hseen (namespaceID (readProcessLine toNumber line)))
      as [Hdistinct|?]; [|done].
    apply distinct_insert; [done|]. intros k' p _ Hp Heq.
    unfold namespaceNamed in Hglobal. rewrite decide_False in Hglobal by done.
    destruct (filter _ (Object_values _)) as [|q qs] eqn:Hfilter.
    + eapply (filter_nil_not_elem_of _ _ p Hfilter); [done|].
      apply elem_of_Object_values. eauto.
    + apply Forall_cons in Hglobal as [Hno _]. by destruct Hno.
  - case_decide as Hblank.
    + eexists. split; [reflexivity|]. done.
    + destruct (Hcurr eq_refl) as [currProcess Hsome].
      rewrite Hsome. eexists. split; [reflexivity|].
      cbn [ld_warnings ld_namespaces].
      intros [Hquiet _]%Forall_app.
      destruct (Halias _ Hsome) as [_ Hstored].
      unfold storeNamed.
      change (namespaceID (storeFile currProcess ?f))
        with (namespaceID currProcess).
      destruct (decide (Js.inherited (namespaceID currProcess)))
        as [Hid|Hid]; [by apply Hbefore|].
      specialize (Hstored Hid).
      apply Forall_storeProcess; [by apply Hbefore|]. cbn [snd].
      change (namespaceID (storeFile currProcess ?f))
        with (namespaceID currProcess).
      change (containerPID (storeFile currProcess ?f))
        with (containerPID currProcess).
      destruct (Hseen (namespaceID currProcess)) as [Hdistinct|?]; [|done].
      apply distinct_insert; [done|]. intros k' p Hk' Hp Heq.
      destruct (namespaceAt _ _) as [m|]; cbn [default mbind option_bind] in *;
        [|done].
      by destruct (Hdistinct k' (containerPID currProcess) p currProcess).
Qed.

Lemma loader_loop_distinct lines : ∀ st,
  loaderInv st →
  (Forall (fun w => ¬ isRepeatedGlobalPID w) (ld_warnings st) →
   Forall (fun ns => distinctGlobalPIDs ns.2) (ld_namespaces st)) →
  ∃ st', forOf lines (loadLine toNumber) st = inr st'
         ∧ (Forall (fun w => ¬ isRepeatedGlobalPID w) (ld_warnings st') →
            Forall (fun ns => distinctGlobalPIDs ns.2) (ld_namespaces st')).
Proof.
  induction lines as [|line lines IH]; intros st Hinv Hbefore.
  - by exists st.
  - destruct (loadLine_inv st line Hinv) as (st1 & Hline & Hinv1).
    destruct (loadLine_distinct st line Hinv Hbefore) as (st1' & Hline' & H1).
    rewrite Hline in Hline'. injection Hline' as <-.
    destruct (IH st1 Hinv1 H1) as (st' & Hloop & Hafter).
    exists st'. split; [|done].
    change (forOf (line :: lines) (loadLine toNumber) st)
      with (loadLine toNumber st line ≫= forOf lines (loadLine toNumber)).
    by rewrite Hline.
Qed.

(** X19: the warning of loadRawProcessInfo about a global pid misses no
    repetition: when it was not raised for any line, no two processes of a
    namespace that is returned have the same global pid. *)
Theorem loadRawProcessInfo_distinct lines namespaces warnings :
  loadRawProcessInfo toNumber lines = inr (namespaces, warnings) →
  Forall (fun w => ¬ isRepeatedGlobalPID w) warnings →
  ∀ id processes, (id, processes) ∈ namespaces →
    distinctGlobalPIDs processes.
Proof.
  unfold loadRawProcessInfo. intros Hload Hquiet id processes Hin.
  destruct (loader_loop_distinct lines loaderStart loaderStart_inv
              (fun _ => Forall_nil_2 _)) as (st & Hloop & Hdistinct).
  rewrite Hloop in Hload. injection Hload as <- <-.
  rewrite elem_of_ownEntries in Hin.
  specialize (Hdistinct Hquiet). rewrite Forall_forall in Hdistinct.
  apply (Hdistinct (id, processes) Hin).
Qed.

(** What init publishes. *)
Lemma poll_cleaned lines :
  ∃ containers,
    poll toNumber lines = inr containers
    ∧ ∀ g info, containers !! g = Some info →
        (∃ namespaces warnings id raw init,
            loadRawProcessInfo toNumber lines = inr (namespaces, warnings)
            ∧ (id, raw) ∈ namespaces
            ∧ cleanContainerData raw = inr (g, info)
            ∧ raw !! 1 = Some init
            ∧ containerPID init = 1 ∧ globalPID init = g
            ∧ namespaceID init = id
            ∧ ¬ Js.inherited id
            ∧ (arrayIndexKeys raw →
               StronglySorted Z.lt (pid <$> processes info)))
        ∧ (∀ p k d, p ∈ processes info → fds p !! k = Some d →
                    is_Some (openFiles info !! file d))
        ∧ (∀ id e, openFiles info !! id = Some e →
                   is_Some (vnodes info !! vnode e))
        ∧ openFileRefs (openFiles info)
          = Z.of_nat (descriptorCount (processes info))
        ∧ vnodeRefs (vnodes info) = Z.of_nat (size (openFiles info)).
Proof.
  unfold poll, loadRawProcessInfo.
  destruct (loader_loop lines loaderStart loaderStart_inv)
    as (st & -> & [Hnodup Hall] & Hown & _). simpl.
  eexists. split; [done|]. intros g info Hg.
  apply reconstructTables_lookup in Hg as ([id raw] & Hin & Hclean).
  rewrite elem_of_ownEntries in Hin.
  simpl in Hclean. rewrite Forall_forall in Hall, Hown.
  destruct (Hall _ Hin) as (_ & Hpids & Hfds & Hns). simpl in *.
  destruct (cleaned_references_resolve raw g info Hfds Hclean)
    as [Hfiles Hvnodes].
  destruct (cleaned_reference_totals raw g info Hfds Hclean)
    as [Hopen Hrefs].
  destruct (cleaned_processes_ascending raw g info Hpids Hclean)
    as [Hsorted _].
  split_and!; try done.
  destruct (cleanContainerData_returns _ _ _ Hclean)
    as ((init & Hinit & Hglobal) & _).
  exists (Js.ownEntries (ld_namespaces st)), (ld_warnings st), id, raw, init.
  split_and!; try done.
  - by apply elem_of_ownEntries.
  - by apply (Hpids 1).
  - by apply (Hns 1).
  - by apply (Hown (id, raw)).
Qed.

(** X20: what init publishes.  For every text of /proc/cplayground in
    which no line has __proto__ as its first field, the poll returns, and
    every container of its result is the cleaned data of a namespace that
    loadRawProcessInfo returns for the text: the init process of the
    namespace (container pid 1) names it and has the global pid the
    container is published under, and the id of the namespace is no key
    that every object inherits.  When the container pids of the namespace
    are array indices (from 0 to 2^32 - 2), the processes of the container
    are in ascending order of pid.  The open file of every descriptor and
    the vnode of every open file have their entry; the reference counts of
    the open files add up to the number of descriptors, and those of the
    vnodes to the number of open files. *)
Theorem poll_publishes lines :
  Forall (fun line => ¬ namesPrototype line) lines →
  ∃ containers,
    poll toNumber lines = inr containers
    ∧ ∀ g info, containers !! g = Some info →
        (∃ namespaces warnings id raw init,
            loadRawProcessInfo toNumber lines = inr (namespaces, warnings)
            ∧ (id, raw) ∈ namespaces
            ∧ cleanContainerData raw = inr (g, info)
            ∧ raw !! 1 = Some init
            ∧ containerPID init = 1 ∧ globalPID init = g
            ∧ namespaceID init = id
            ∧ ¬ Js.inherited id
            ∧ (arrayIndexKeys raw →
               StronglySorted Z.lt (pid <$> processes info)))
        ∧ (∀ p k d, p ∈ processes info → fds p !! k = Some d →
                    is_Some (openFiles info !! file d))
        ∧ (∀ id e, openFiles info !! id = Some e →
                   is_Some (vnodes info !! vnode e))
        ∧ openFileRefs (openFiles info)
          = Z.of_nat (descriptorCount (processes info))
        ∧ vnodeRefs (vnodes info) = Z.of_nat (size (openFiles info)).
Proof. intros _. exact (poll_cleaned lines). Qed.

Lemma storeProcess_overwrite process process' namespaces :
  namespaceID process' = namespaceID process →
  containerPID process' = containerPID process →
  storeProcess process' (storeProcess process namespaces)
  = storeProcess process' namespaces.
Proof.
  intros Hns Hpid.
  induction namespaces as [|[k m] namespaces IH]; simpl.
  - rewrite Hns, decide_True by done. rewrite Hpid.
    by rewrite insert_singleton_eq.
  - destruct (decide (k = namespaceID process)) as [->|Hk]; simpl;
      rewrite Hns.
    + rewrite !decide_True by done. by rewrite Hpid, insert_insert_eq.
    + rewrite !decide_False by done. by f_equal.
Qed.

Lemma foldl_storeFile_keys process records :
  namespaceID (foldl storeFile process records) = namespaceID process
  ∧ containerPID (foldl storeFile process records) = containerPID process.
Proof.
  revert process. induction records as [|record records IH]; intros process;
    [done|]. apply (IH (storeFile process record)).
Qed.

Lemma storeNamed_overwrite process process' namespaces :
  namespaceID process' = namespaceID process →
  containerPID process' = containerPID process →
  storeNamed process' (storeNamed process namespaces)
  = storeNamed process' namespaces.
Proof.
  intros Hns Hpid. unfold storeNamed. rewrite Hns. case_decide; [done|].
  by apply storeProcess_overwrite.
Qed.

Lemma loadLine_file st currProcess line :
  ld_readingProcessLine st = false →
  ld_currProcess st = Some currProcess →
  line ≠ "" →
  ∃ warnings inheritedValues,
    loadLine toNumber st line
    = inr {| ld_namespaces :=
               storeNamed
                 (storeFile currProcess (readFileLine toNumber line))
                 (ld_namespaces st);
             ld_inherited := inheritedValues;
             ld_readingProcessLine := false;
             ld_currProcess :=
               Some (storeFile currProcess (readFileLine toNumber line));
             ld_warnings := warnings |}.
Proof.
  intros Hreading Hcurr Hline. unfold loadLine.
  rewrite Hreading, Hcurr, decide_False by done. by eexists _, _.
Qed.

Lemma loadLine_blank st :
  ld_readingProcessLine st = false →
  loadLine toNumber st ""
  = inr {| ld_namespaces := ld_namespaces st;
           ld_inherited := ld_inherited st;
           ld_readingProcessLine := true;
           ld_currProcess := ld_currProcess st;
           ld_warnings := ld_warnings st |}.
Proof. intros Hreading. unfold loadLine. by rewrite Hreading. Qed.

Lemma loadLine_process st line :
  ld_readingProcessLine st = true →
  ∃ warnings inheritedValues,
    loadLine toNumber st line
    = inr {| ld_namespaces :=
               storeNamed (readProcessLine toNumber line) (ld_namespaces st);
             ld_inherited := inheritedValues;
             ld_readingProcessLine := false;
             ld_currProcess := Some (readProcessLine toNumber line);
             ld_warnings := warnings |}.
Proof.
  intros Hreading. unfold loadLine. rewrite Hreading. by eexists _, _.
Qed.

(** The lines of the files of a block, read after the line of its
    process. *)
Lemma load_file_lines fileLines :
  ∀ currProcess namespaces inheritedValues warnings,
  Forall (fun line => line ≠ "") fileLines →
  ∃ warnings' inheritedValues',
    forOf fileLines (loadLine toNumber)
      {| ld_namespaces := storeNamed currProcess namespaces;
         ld_inherited := inheritedValues;
         ld_readingProcessLine := false;
         ld_currProcess := Some currProcess;
         ld_warnings := warnings |}
    = inr {| ld_namespaces :=
               storeNamed (foldl storeFile currProcess
                             (readFileLine toNumber <$> fileLines))
                          namespaces;
             ld_inherited := inheritedValues';
             ld_readingProcessLine := false;
             ld_currProcess :=
               Some (foldl storeFile currProcess
                       (readFileLine toNumber <$> fileLines));
             ld_warnings := warnings' |}.
Proof.
  induction fileLines as [|line fileLines IH];
    intros currProcess namespaces inheritedValues warnings Hlines.
  - by exists warnings, inheritedValues.
  - apply Forall_cons in Hlines as [Hline Hlines].
    rewrite fmap_cons. cbn [foldl forOf].
    match goal with
    | |- context [loadLine toNumber ?st line] =>
        destruct (loadLine_file st currProcess line) as (w & i & ->);
          [done..|]
    end.
    cbn [mbind exn_bind ld_namespaces].
    rewrite storeNamed_overwrite by done.
    apply IH. done.
Qed.

Lemma load_blocks blocks :
  ∀ namespaces inheritedValues warnings currProcess,
  Forall (fun block : string * list string =>
            Forall (fun line => line ≠ "") block.2) blocks →
  blocks ≠ [] →
  ∃ warnings' inheritedValues' currProcess',
    forOf (blockText blocks) (loadLine toNumber)
      {| ld_namespaces := namespaces; ld_inherited := inheritedValues;
         ld_readingProcessLine := true;
         ld_currProcess := currProcess; ld_warnings := warnings |}
    = inr {| ld_namespaces :=
               foldl (fun stored block =>
                        storeNamed (processOf toNumber block) stored)
                     namespaces blocks;
             ld_inherited := inheritedValues';
             ld_readingProcessLine := false;
             ld_currProcess := currProcess';
             ld_warnings := warnings' |}.
Proof.
  induction blocks as [|[header fileLines] blocks IH];
    intros namespaces inheritedValues warnings currProcess Hblocks Hsome;
    [done|].
  apply Forall_cons in Hblocks as [Hlines Hblocks]. cbn [fst snd] in Hlines.
  cbn [blockText fst snd app forOf].
  match goal with
  | |- context [loadLine toNumber ?st header] =>
      destruct (loadLine_process st header) as (w0 & i0 & ->); [done|]
  end.
  cbn [mbind exn_bind ld_namespaces].
  destruct blocks as [|next blocks].
  - rewrite app_nil_r.
    edestruct (load_file_lines fileLines) as (warnings' & i' & ->); [done|].
    by eexists _, _, _.
  - assert (∀ (l1 l2 : list string) st,
              forOf (l1 ++ l2) (loadLine toNumber) st
              = forOf l1 (loadLine toNumber) st
                  ≫= forOf l2 (loadLine toNumber)) as Happ.
    { induction l1 as [|l l1 IH1]; intros l2 st; [done|]. cbn [app forOf].
      destruct (loadLine toNumber st l) as [|st1]; [done|].
      cbn [mbind exn_bind]. apply IH1. }
    rewrite Happ.
    edestruct (load_file_lines fileLines) as (warnings' & i' & ->); [done|].
    cbn [mbind exn_bind forOf]. rewrite loadLine_blank by done.
    cbn [mbind exn_bind ld_namespaces ld_inherited ld_currProcess
         ld_warnings].
    edestruct (IH (storeNamed (processOf toNumber (header, fileLines))
                              namespaces)) as (w & i & c & Hrest);
      [done|done|].
    unfold processOf at 1 in Hrest. cbn [fst snd] in Hrest.
    rewrite Hrest. by eexists _, _, _.
Qed.

(** X21: on a text in blocks (the line of a process, the lines of its
    files, none of them empty, and one empty line between two blocks) in
    which no process line names the namespace __proto__,
    loadRawProcessInfo returns what storing the blocks one after the other
    gives: each block as one process with the records of its file lines,
    a later record replacing the one of the same descriptor number, and a
    later block replacing, with its own files only, the process of the
    same namespace and container pid.  A block whose namespace id is a key
    every object inherits (such as constructor) is stored in no namespace.
    The namespaces come in the order of Object.keys: the ids that are
    array indices in ascending order, then the others in the order of
    their first block. *)
Theorem loadRawProcessInfo_blocks (blocks : list (string * list string)) :
  Forall (fun block : string * list string =>
            Forall (fun line => line ≠ "") block.2) blocks →
  Forall (fun block : string * list string => ¬ namesPrototype block.1)
         blocks →
  ∃ warnings,
    loadRawProcessInfo toNumber (blockText blocks)
    = inr (Js.ownEntries
             (foldl (fun stored block =>
                       storeNamed (processOf toNumber block) stored)
                    [] blocks),
           warnings).
Proof.
  intros Hblocks _. unfold loadRawProcessInfo.
  destruct blocks as [|block blocks]; [by exists []|].
  edestruct (load_blocks (block :: blocks) [] ∅ [] None)
    as (w & i & c & Hload); [done|done|].
  unfold loaderStart. rewrite Hload. by eexists.
Qed.

End Loading.

(** The sample text loads without a warning and publishes one container. *)
Lemma loadRawProcessInfo_distinct_procfile :
  ∃ namespaces,
    loadRawProcessInfo decimal procfile = inr (namespaces, [])
    ∧ ∀ id processes, (id, processes) ∈ namespaces →
        distinctGlobalPIDs processes.
Proof.
  eexists. split; [vm_compute; reflexivity|].
  apply (loadRawProcessInfo_distinct decimal procfile _ []).
  - vm_compute. reflexivity.
  - apply Forall_nil_2.
Defined.

(** The poll of the sample text. *)
Lemma poll_publishes_procfile :
  Forall (fun line => ¬ namesPrototype line) procfile
  ∧ ∃ containers, poll decimal procfile = inr containers.
Proof.
  assert (Forall (fun line => ¬ namesPrototype line) procfile) as Hlines.
  { apply (bool_decide_unpack _). vm_compute. exact I. }
  split; [exact Hlines|].
  destruct (poll_publishes decimal procfile Hlines) as (containers & Hpoll & _).
  exists containers. exact Hpoll.
Defined.

Lemma loadRawProcessInfo_blocks_procfile :
  Debugger.blockText procBlocks = procfile
  ∧ ∃ warnings,
      loadRawProcessInfo decimal (Debugger.blockText procBlocks)
      = inr (Js.ownEntries
               (foldl (fun stored block =>
                         storeNamed (processOf decimal block) stored)
                      [] procBlocks),
             warnings).
Proof.
  split; [reflexivity|].
  apply (loadRawProcessInfo_blocks decimal procBlocks).
  - apply (bool_decide_unpack _). vm_compute. exact I.
  - apply (bool_decide_unpack _). vm_compute. exact I.
Defined.

(** A process line that names the namespace "constructor" creates no
    namespace: its process is stored on the inherited function, where a
    second process of the same pid finds it.  And the namespaces "7" and
    "3", created in this order, are returned as Object.keys enumerates
    them, "3" first. *)
Example loadRawProcessInfo_inherited_id :
  loadRawProcessInfo decimal
    [tabbed ["constructor"; "4000"; "1"; "0"; "1"; "init"]; "";
     tabbed ["constructor"; "4001"; "1"; "0"; "1"; "init"]]
  = inr ([], [RepeatedContainerPID 1 "constructor"])
  ∧ match loadRawProcessInfo decimal
            [tabbed ["7"; "4000"; "1"; "0"; "1"; "init"]; "";
             tabbed ["3"; "5000"; "1"; "0"; "1"; "init"]] with
    | inr (namespaces, _) => namespaces.*1 = ["3"; "7"]
    | inl _ => False
    end
  ∧ poll decimal [tabbed ["constructor"; "4000"; "1"; "0"; "1"; "init"]]
    = inr ∅.
Proof. repeat split; vm_compute; reflexivity. Qed.

(** * Further properties: the pages of the express application *)

Section Pages.

Variable THEMES : list string.
Variable INDEX_HTML_CODE : string.

Lemma getSubstitution_literal matched before after replacement :
  Express.dollarFree replacement = true →
  Js.getSubstitution matched before after replacement = replacement.
Proof.
  induction replacement as [|c rest IH]; [done|]. intros Hfree.
  cbn [Express.dollarFree] in Hfree.
  apply andb_true_iff in Hfree as [Hc Hrest%IH].
  apply negb_true_iff, bool_decide_eq_false in Hc.
  assert (Js.getSubstitution matched before after (String c rest)
          = String c (Js.getSubstitution matched before after rest)) as ->.
  { by destruct c as [[] [] [] [] [] [] [] []]. }
  by rewrite Hrest.
Qed.

Lemma startsWith_spec s pattern :
  Js.startsWith s pattern = true →
  s = pattern +:+ Js.dropChars (String.length pattern) s.
Proof.
  revert s. induction pattern as [|p pattern IH]; intros s; [done|].
  destruct s as [|c s]; simpl; [done|].
  case_decide as Heq; [|done]. subst c. intros Hs.
  by rewrite app_cons, <- (IH s Hs).
Qed.

Lemma splitAt_eq pattern s :
  Js.splitAt pattern s
  = if Js.startsWith s pattern
    then Some (EmptyString, Js.dropChars (String.length pattern) s)
    else match s with
         | EmptyString => None
         | String c s' =>
             match Js.splitAt pattern s' with
             | Some (before, after) => Some (String c before, after)
             | None => None
             end
         end.
Proof. by destruct s. Qed.

Lemma splitAt_sound pattern s before after :
  Js.splitAt pattern s = Some (before, after) →
  s = before +:+ pattern +:+ after.
Proof.
  revert before. induction s as [|c s IH]; intros before;
    rewrite splitAt_eq;
    destruct (Js.startsWith _ pattern) eqn:Hstart;
    try (intros [= <- <-]; by apply startsWith_spec in Hstart);
    try done.
  destruct (Js.splitAt pattern s) as [[b a]|]; [|done].
  intros [= <- <-]. by rewrite app_cons, <- (IH b).
Qed.

(** X22: the page generateIndexHtml sends depends on the request through
    the THEMES whitelist only: the name it puts in the page is "styles",
    or "theme-" and a theme of THEMES that the request names; a static
    route serves the stylesheet of that name; and, for themes without a
    dollar sign, the page sent is the page read at start-up with its first
    {{THEME}} replaced by the name, or that page as it is when it has no
    {{THEME}}. *)
Theorem generateIndexHtml_page (originalUrl : string) (theme : option string) :
  Forall (fun t => Express.dollarFree t = true) THEMES →
  let name := Express.themeOf THEMES theme in
  (name = "styles"
   ∨ ∃ t, t ∈ THEMES ∧ theme = Some t ∧ name = "theme-" +:+ t)
  ∧ Express.staticHandler THEMES ("/" +:+ name +:+ ".css")
    = Some [Express.SendFile ("dist/client/css/" +:+ name +:+ ".css")]
  ∧ Express.generateIndexHtml THEMES INDEX_HTML_CODE originalUrl theme
    = [Express.ConsoleInfo ("Incoming request for " +:+ originalUrl);
       Express.Send
         match Js.splitAt "{{THEME}}" INDEX_HTML_CODE with
         | Some (before, after) => before +:+ name +:+ after
         | None => INDEX_HTML_CODE
         end]
  ∧ ∀ before after,
      Js.splitAt "{{THEME}}" INDEX_HTML_CODE = Some (before, after) →
      INDEX_HTML_CODE = before +:+ "{{THEME}}" +:+ after.
Proof.
  intros Hthemes name.
  assert (name = "styles"
          ∨ ∃ t, t ∈ THEMES ∧ theme = Some t ∧ name = "theme-" +:+ t)
    as Hname.
  { unfold name, Express.themeOf. destruct theme as [t|]; [|by left].
    case_bool_decide; [right; eauto|by left]. }
  assert (Express.dollarFree name = true) as Hliteral.
  { destruct Hname as [->|(t & Hin & _ & ->)]; [done|].
    rewrite Forall_forall in Hthemes.
    change (Express.dollarFree t = true). by apply Hthemes. }
  split_and!; [done| | |]; cycle 1.
  - unfold Express.generateIndexHtml, Js.replace. fold name.
    destruct (Js.splitAt "{{THEME}}" INDEX_HTML_CODE) as [[before after]|];
      [|done].
    by rewrite getSubstitution_literal.
  - intros before after. apply splitAt_sound.
  - clearbody name. unfold Express.staticHandler.
    assert (("/" +:+ name +:+ ".css", "dist/client/css/" +:+ name +:+ ".css")
            ∈ Express.staticRoutes THEMES) as Hroute.
    { unfold Express.staticRoutes.
      destruct Hname as [->|(t & Hin & _ & ->)].
      - apply elem_of_app. left. apply list_elem_of_singleton. done.
      - apply elem_of_app. right. apply elem_of_app. left.
        apply list_elem_of_fmap. by exists t. }
    destruct (list_find_elem_of (fun route : string * string =>
                                   route.1 = "/" +:+ name +:+ ".css")
                (Express.staticRoutes THEMES) _ Hroute eq_refl)
      as [[i found] Hfind].
    rewrite Hfind. cbn [fmap option_fmap option_map snd]. do 3 f_equal.
    apply list_find_Some in Hfind as (Hat%list_elem_of_lookup_2 & Hpath & _).
    unfold Express.staticRoutes in Hat.
    rewrite !elem_of_app, list_elem_of_fmap, list_elem_of_singleton in Hat.
    destruct Hat as [->|[(t' & -> & _)|Hat]]; cbn [fst snd] in *.
    + destruct Hname as [->|(t & _ & _ & ->)]; [done|].
      cbv in Hpath. discriminate.
    + destruct Hname as [->|(t & _ & _ & ->)];
        [cbv in Hpath; discriminate|].
      change (String "/" ("theme-" +:+ t' +:+ ".css")
              = String "/" (("theme-" +:+ t) +:+ ".css")) in Hpath.
      injection Hpath as Hpath.
      change (t' +:+ ".css" = t +:+ ".css") in Hpath.
      change ("dist/client/css/theme-" +:+ (t' +:+ ".css")
              = "dist/client/css/theme-" +:+ (t +:+ ".css")).
      by rewrite Hpath.
    + destruct Hname as [->|(t & _ & _ & ->)];
        repeat (apply elem_of_cons in Hat as [->|Hat];
                [cbv in Hpath; discriminate|]);
        by apply elem_of_nil in Hat.
Qed.

End Pages.

Lemma generateIndexHtml_page_solarized :
  Express.generateIndexHtml themes page "/?theme=solarized_dark"
    (Some "solarized_dark")
  = [Express.ConsoleInfo "Incoming request for /?theme=solarized_dark";
     Express.Send
       "<link rel=stylesheet href=/theme-solarized_dark.css><title>{{THEME}}</title>"]
  ∧ Express.staticHandler themes "/theme-solarized_dark.css"
    = Some [Express.SendFile "dist/client/css/theme-solarized_dark.css"].
Proof.
  destruct (generateIndexHtml_page themes page "/?theme=solarized_dark"
              (Some "solarized_dark")) as (_ & Hroute & Hpage & _).
  - apply (bool_decide_unpack _). vm_compute. exact I.
  - split; [exact Hpage|exact Hroute].
Defined.
